(** * monaco-python-lsp-test: the Jedi worker and the editor bridge

    A shallow embedding of the two halves of the repository:

    - [Worker]: the web worker (the Jedi worker script).  It keeps a Pyodide
      interpreter, boots Jedi into it, and answers [initialize], [analyze],
      [completion], [hover] and [definition] requests.
    - [Bridge]: [src/components/MonacoEditor.tsx].  The React component owns
      the worker handle, the table of pending requests with their timeouts,
      and the Monaco completion and hover providers.
    - [Editor]: the component as a whole, around the bridge: the refs to
      the editor and to Monaco, the providers it registers and disposes of,
      the continuations of the promises it awaits, the markers it sets, and
      the [code] state of the page ([src/src/App.tsx]).

    How the code is read:

    - Asynchronous code is modelled by explicit state passing.  Every
      listener (a worker message, a message from the worker, a timer
      callback, an effect, a provider call up to its [await]) is one function
      on the state and runs to completion before the next one starts.  In
      the component the order of the listeners is left open: a run is any
      list of events.  In the worker a listener is suspended at each
      [await] of an external call, and a message that arrives meanwhile is
      handled in between; this interleaving is not modelled: what is stated
      of a handler is stated of the handler run on its own, and what is
      stated of a run of the worker is stated of messages handled one after
      the other.
    - What lies outside the repository (the network, Pyodide, micropip,
      Jedi, parso, [textwrap]) is a parameter: a [World] gives the outcome
      of each external call made while one worker message is handled.
    - The Python functions of the bootstrap script are embedded as the
      functions they define; what they return through [json.dumps] is read
      back by [JSON.parse] unchanged.
    - Lines, columns and time stamps are integers, as Monaco and
      [Date.now()] supply them.  Time itself is not modelled: a timer is
      armed with its delay and fires as an event.
    - Console output is left out. *)

From Stdlib Require Import ZArith String Ascii List Lia.
From stdpp Require Import base option list gmap strings pretty.

Local Open Scope Z_scope.

(** ** The worker *)

Module Worker.

(** *** Messages (the interfaces at the top of the worker script) *)

Inductive Severity := SevError | SevWarning.

Record WorkerDiagnostic := {
  diag_line : Z;
  diag_column : Z;
  diag_message : string;
  diag_severity : Severity
}.

Record WorkerCompletionItem := {
  ci_name : string;
  ci_type : string;
  ci_description : string;
  ci_signature : string;
  ci_docstring : string;
  ci_insert_text : string
}.

(** [contents.kind] is always the literal ["markdown"]. *)
Record WorkerHoverPayload := {
  contents_kind : string;
  contents_value : string
}.

Record DefinitionResult := {
  def_name : string;
  def_line : option Z;
  def_column : option Z;
  def_description : string
}.

(** [WorkerRequest].  The listener switches on the [type] tag and has a
    [default] branch, so a message with any other tag is part of the model:
    [ReqOther]. *)
Inductive WorkerRequest :=
| ReqInitialize (requestId : string)
| ReqAnalyze (requestId : string) (code : string)
| ReqCompletion (requestId : string) (code : string) (line column : Z)
| ReqHover (requestId : string) (code : string) (line column : Z)
| ReqDefinition (requestId : string) (code : string) (line column : Z)
| ReqOther (type : string) (requestId : string).

Inductive WorkerResponse :=
| RespInitialized (requestId : string) (success : bool) (error : option string)
| RespAnalysis (requestId : string) (diagnostics : list WorkerDiagnostic)
| RespCompletion (requestId : string) (data : list WorkerCompletionItem)
| RespHover (requestId : string) (data : option WorkerHoverPayload)
| RespDefinition (requestId : string) (data : list DefinitionResult).

Definition request_id (req : WorkerRequest) : string :=
  match req with
  | ReqInitialize i | ReqAnalyze i _ | ReqCompletion i _ _ _
  | ReqHover i _ _ _ | ReqDefinition i _ _ _ | ReqOther _ i => i
  end.

Definition response_id (r : WorkerResponse) : string :=
  match r with
  | RespInitialized i _ _ | RespAnalysis i _ | RespCompletion i _
  | RespHover i _ | RespDefinition i _ => i
  end.

(** The five tags the [switch] has a [case] for. *)
Definition known_kind (req : WorkerRequest) : bool :=
  match req with ReqOther _ _ => false | _ => true end.

(** *** The embedded interpreter *)

(** A value stored in the interpreter's global namespace. *)
Inductive PyVal := PyStr (s : string) | PyInt (z : Z).

(** Python source handed to [runPythonAsync]: the two scripts of the worker
    (they contain quotation marks, so they are named rather than spelled
    out) and the one-line call expressions. *)
Inductive PySource :=
| INSTALL_SCRIPT
| createJediBootstrap (maxCompletions : nat)
| PyExpr (src : string).

(** The state of one Pyodide instance: its globals, and the completion cap
    of the bootstrap script once that script has defined [get_completions],
    [get_hover], [get_diagnostics] and [get_definitions] in it. *)
Record PyodideInterface := {
  globals : gmap string PyVal;
  bootstrap : option nat
}.

(** The function exported by [pyodide.mjs], cached in [loadPyodideFn]. *)
Inductive LoadPyodideFn := loadPyodide.

(** What the bootstrap script reads off a Jedi [Name] or [Completion].
    [None] stands for Python's [None] (or a missing attribute); for the two
    methods, [jn_signatures] is [None] when [get_signatures()] raises and
    [jn_docstring] is [None] when [docstring()] raises or is absent. *)
Record JediName := {
  jn_name : option string;
  jn_type : option string;
  jn_description : option string;
  jn_signatures : option (list string);
  jn_docstring : option string;
  jn_complete : option string;
  jn_line : option Z;
  jn_column : option Z
}.

(** A parso issue: [error.start_pos] and [error.message]. *)
Record ParsoIssue := {
  start_pos : Z * Z;
  message : string
}.

(** The dictionary [get_hover] builds. *)
Record HoverInfo := {
  h_name : string;
  h_type : string;
  h_description : string;
  h_docstring : string;
  h_signature : string
}.

(** What a Python call returns through [json.dumps], read back by
    [JSON.parse]: the serialisation is taken to round-trip. *)
Inductive PyResult :=
| PyNone
| PyDiagnostics (l : list WorkerDiagnostic)
| PyCompletions (l : list WorkerCompletionItem)
| PyHover (h : option HoverInfo)
| PyDefinitions (l : list DefinitionResult).

(** The environment during one worker message.  A fault is the error an
    external promise rejects with; [None] is success.  The Jedi and parso
    entries return [None] when the library raises. *)
Record World := {
  import_fault : option string;
  loadPyodide_fault : option string;
  loadPackage_fault : string → option string;
  runPython_fault : PySource → option string;
  jedi_complete : string → Z → Z → option (list JediName);
  jedi_help : string → Z → Z → option (list JediName);
  jedi_goto : string → Z → Z → option (list JediName);
  parso_iter_errors : string → option (list ParsoIssue);
  textwrap_dedent : string → string;
  str_strip : string → string
}.

(** Calls that leave the worker script, in the order they are made.
    Console output is not recorded. *)
Inductive Effect :=
| DynamicImport (url : string)
| CallLoader (indexURL : string)
| LoadPackage (name : string)
| RunPython (src : PySource)
| GlobalsSet (name : string) (value : PyVal)
| JediComplete (code : string) (line column : Z)
| JediHelp (code : string) (line column : Z)
| JediGoto (code : string) (line column : Z)
| ParsoParse (code : string)
| PostMessage (message : WorkerResponse).

(** The module-level variables of the worker script, and the trace of
    effects so far (oldest first). *)
Record WorkerState := {
  pyodide : option PyodideInterface;
  jediInitialized : bool;
  loadPyodideFn : option LoadPyodideFn;
  trace : list Effect
}.

Definition initial : WorkerState :=
  {| pyodide := None; jediInitialized := false; loadPyodideFn := None; trace := [] |}.

Definition PYODIDE_INDEX_URL : string := "https://cdn.jsdelivr.net/pyodide/v0.25.0/full/".
Definition PYODIDE_MODULE_URL : string := PYODIDE_INDEX_URL +:+ "pyodide.mjs".
Definition MAX_COMPLETIONS : nat := 50.

(** *** A state-and-exception monad for the async functions *)

Inductive Outcome (A : Type) :=
| Returned (a : A)
| Thrown (err : string).
Arguments Returned {A} a.
Arguments Thrown {A} err.

Definition W (A : Type) : Type := WorkerState → Outcome A * WorkerState.

#[global] Instance W_ret : MRet W := λ A a s, (Returned a, s).
#[global] Instance W_bind : MBind W := λ A B f m s,
  match m s with
  | (Returned a, s') => f a s'
  | (Thrown e, s') => (Thrown e, s')
  end.

Definition throw {A} (e : string) : W A := λ s, (Thrown e, s).

(** [try { m } catch (error) { h error }] *)
Definition try_catch {A} (m : W A) (h : string → W A) : W A := λ s,
  match m s with
  | (Returned a, s') => (Returned a, s')
  | (Thrown e, s') => h e s'
  end.

Definition get_state : W WorkerState := λ s, (Returned s, s).

Definition emit (e : Effect) : W unit := λ s,
  (Returned (),
   {| pyodide := pyodide s; jediInitialized := jediInitialized s;
      loadPyodideFn := loadPyodideFn s; trace := trace s ++ [e] |}).

Definition set_pyodide (p : option PyodideInterface) : W unit := λ s,
  (Returned (),
   {| pyodide := p; jediInitialized := jediInitialized s;
      loadPyodideFn := loadPyodideFn s; trace := trace s |}).

Definition set_jediInitialized (b : bool) : W unit := λ s,
  (Returned (),
   {| pyodide := pyodide s; jediInitialized := b;
      loadPyodideFn := loadPyodideFn s; trace := trace s |}).

Definition set_loadPyodideFn (l : option LoadPyodideFn) : W unit := λ s,
  (Returned (),
   {| pyodide := pyodide s; jediInitialized := jediInitialized s;
      loadPyodideFn := l; trace := trace s |}).

(** A promise of the environment: rejects with the fault, if there is one. *)
Definition settle (fault : option string) : W unit :=
  match fault with
  | Some e => throw e
  | None => mret ()
  end.

(** *** The bootstrap script (Python), over the Jedi and parso oracles *)

Section WithWorld.
Context (w : World).

(** [x or d] on a string that may be [None]. *)
Definition py_or (x : option string) (d : string) : string :=
  match x with
  | Some s => if decide (s = "") then d else s
  | None => d
  end.

(** [_call_or_default(obj, attr_name, default_value)], given what calling
    (or reading) the attribute yields. *)
Definition _call_or_default (attr : option string) (default_value : string) : string :=
  match attr with
  | Some v => v
  | None => default_value
  end.

Definition _clean_docstring (value : string) : string :=
  if decide (value = "") then "" else str_strip w (textwrap_dedent w value).

(** [str(signatures[0]) if signatures else ""] *)
Definition first_signature (signatures : list string) : string :=
  match signatures with
  | sig :: _ => sig
  | [] => ""
  end.

(** One turn of the loop of [get_completions]; [None] when
    [item.get_signatures()] raises. *)
Definition completion_entry (item : JediName) : option WorkerCompletionItem :=
  signatures ← jn_signatures item;
  Some {| ci_name := py_or (jn_name item) "";
          ci_type := py_or (jn_type item) "";
          ci_description := py_or (jn_description item) "";
          ci_signature := first_signature signatures;
          ci_docstring := _clean_docstring (_call_or_default (jn_docstring item) "");
          ci_insert_text := py_or (jn_complete item) (py_or (jn_name item) "") |}.

(** The list [get_completions] dumps: the loop runs over
    [completions[:maxCompletions]], and any exception gives [[]]. *)
Definition completion_results (maxCompletions : nat) (code : string) (line column : Z)
  : list WorkerCompletionItem :=
  match jedi_complete w code line column with
  | Some completions =>
      match mapM completion_entry (take maxCompletions completions) with
      | Some results => results
      | None => []
      end
  | None => []
  end.

Definition get_completions (maxCompletions : nat) (code : string) (line column : Z)
  : W PyResult :=
  emit (JediComplete code line column);;
  mret (PyCompletions (completion_results maxCompletions code line column)).

Definition hover_entry (name : JediName) : option HoverInfo :=
  signatures ← jn_signatures name;
  Some {| h_name := py_or (jn_name name) "";
          h_type := py_or (jn_type name) "";
          h_description := py_or (jn_description name) "";
          h_docstring := _clean_docstring (_call_or_default (jn_docstring name) "");
          h_signature := first_signature signatures |}.

(** The value [get_hover] dumps: the first name, or [None] when there is
    none or on any exception. *)
Definition hover_result (code : string) (line column : Z) : option HoverInfo :=
  match jedi_help w code line column with
  | Some (name :: _) => hover_entry name
  | Some [] => None
  | None => None
  end.

Definition get_hover (code : string) (line column : Z) : W PyResult :=
  emit (JediHelp code line column);;
  mret (PyHover (hover_result code line column)).

Definition diagnostic_entry (error : ParsoIssue) : WorkerDiagnostic :=
  {| diag_line := fst (start_pos error);
     diag_column := snd (start_pos error);
     diag_message := message error;
     diag_severity := SevError |}.

Definition diagnostic_results (code : string) : list WorkerDiagnostic :=
  match parso_iter_errors w code with
  | Some errors => diagnostic_entry <$> errors
  | None => []
  end.

Definition get_diagnostics (code : string) : W PyResult :=
  emit (ParsoParse code);;
  mret (PyDiagnostics (diagnostic_results code)).

Definition definition_entry (definition : JediName) : DefinitionResult :=
  {| def_name := py_or (jn_name definition) "";
     def_line := jn_line definition;
     def_column := jn_column definition;
     def_description := py_or (jn_description definition) "" |}.

Definition definition_results (code : string) (line column : Z)
  : list DefinitionResult :=
  match jedi_goto w code line column with
  | Some definitions => definition_entry <$> definitions
  | None => []
  end.

Definition get_definitions (code : string) (line column : Z) : W PyResult :=
  emit (JediGoto code line column);;
  mret (PyDefinitions (definition_results code line column)).

(** Reading the three globals the call expressions mention; a missing
    name is a [NameError], raised before the function is entered. *)
Definition global_str (p : PyodideInterface) (name : string) : W string :=
  match globals p !! name with
  | Some (PyStr s) => mret s
  | _ => throw "NameError"
  end.

Definition global_int (p : PyodideInterface) (name : string) : W Z :=
  match globals p !! name with
  | Some (PyInt z) => mret z
  | _ => throw "NameError"
  end.

(** The four call expressions the worker runs.  The functions exist only
    in an instance in which the bootstrap script has run. *)
Definition eval_call (p : PyodideInterface) (expr : string) : W PyResult :=
  match bootstrap p with
  | None => throw "NameError"
  | Some maxCompletions =>
      if decide (expr = "get_diagnostics(user_code)") then
        code ← global_str p "user_code";
        get_diagnostics code
      else if decide (expr = "get_completions(user_code, user_line, user_column)") then
        code ← global_str p "user_code";
        line ← global_int p "user_line";
        column ← global_int p "user_column";
        get_completions maxCompletions code line column
      else if decide (expr = "get_hover(user_code, user_line, user_column)") then
        code ← global_str p "user_code";
        line ← global_int p "user_line";
        column ← global_int p "user_column";
        get_hover code line column
      else if decide (expr = "get_definitions(user_code, user_line, user_column)") then
        code ← global_str p "user_code";
        line ← global_int p "user_line";
        column ← global_int p "user_column";
        get_definitions code line column
      else throw "SyntaxError"
  end.

(** *** The worker script (TypeScript) *)

(** [runtime.globals.set(name, value)]: [runtime] is the object the
    module variable [pyodide] points to. *)
Definition globals_set (name : string) (value : PyVal) : W unit :=
  emit (GlobalsSet name value);;
  s ← get_state;
  match pyodide s with
  | Some p =>
      set_pyodide (Some {| globals := <[name := value]> (globals p);
                           bootstrap := bootstrap p |})
  | None => throw "TypeError"
  end.

Definition runPythonAsync (src : PySource) : W PyResult :=
  emit (RunPython src);;
  settle (runPython_fault w src);;
  s ← get_state;
  match pyodide s with
  | None => throw "TypeError"
  | Some p =>
      match src with
      | INSTALL_SCRIPT => mret PyNone
      | createJediBootstrap k =>
          set_pyodide (Some {| globals := globals p; bootstrap := Some k |});;
          mret PyNone
      | PyExpr e => eval_call p e
      end
  end.

(** A fresh interpreter, as [loadPyodide] returns it. *)
Definition fresh_pyodide : PyodideInterface :=
  {| globals := ∅; bootstrap := None |}.

Definition initializeJedi : W unit :=
  s ← get_state;
  if jediInitialized s then mret ()
  else
    try_catch
      (loader ← match loadPyodideFn s with
                | Some l => mret l
                | None =>
                    emit (DynamicImport PYODIDE_MODULE_URL);;
                    settle (import_fault w);;
                    set_loadPyodideFn (Some loadPyodide);;
                    mret loadPyodide
                end;
       emit (CallLoader PYODIDE_INDEX_URL);;
       settle (loadPyodide_fault w);;
       set_pyodide (Some fresh_pyodide);;
       emit (LoadPackage "micropip");;
       settle (loadPackage_fault w "micropip");;
       runPythonAsync INSTALL_SCRIPT;;
       runPythonAsync (createJediBootstrap MAX_COMPLETIONS);;
       set_jediInitialized true)
      (λ error, throw error).

Definition getRuntime : W (option PyodideInterface) :=
  s ← get_state;
  mret match pyodide s with
       | Some p => if jediInitialized s then Some p else None
       | None => None
       end.

(** [JSON.parse(result) as T].  Each call expression returns the shape
    its caller casts to, so the last branch is never taken. *)
Definition parse_diagnostics (result : PyResult) : W (list WorkerDiagnostic) :=
  match result with PyDiagnostics l => mret l | _ => throw "SyntaxError" end.

Definition parse_completions (result : PyResult) : W (list WorkerCompletionItem) :=
  match result with PyCompletions l => mret l | _ => throw "SyntaxError" end.

Definition parse_hover (result : PyResult) : W (option HoverInfo) :=
  match result with PyHover h => mret h | _ => throw "SyntaxError" end.

Definition parse_definitions (result : PyResult) : W (list DefinitionResult) :=
  match result with PyDefinitions l => mret l | _ => throw "SyntaxError" end.

Definition analyzeCode (code : string) : W (list WorkerDiagnostic) :=
  runtime ← getRuntime;
  match runtime with
  | None => mret []
  | Some _ =>
      try_catch
        (globals_set "user_code" (PyStr code);;
         result ← runPythonAsync (PyExpr "get_diagnostics(user_code)");
         parse_diagnostics result)
        (λ _, mret [])
  end.

Definition getCompletions (code : string) (line column : Z)
  : W (list WorkerCompletionItem) :=
  runtime ← getRuntime;
  match runtime with
  | None => mret []
  | Some _ =>
      try_catch
        (globals_set "user_code" (PyStr code);;
         globals_set "user_line" (PyInt (Z.max 1 line));;
         globals_set "user_column" (PyInt (Z.max 0 column));;
         result ← runPythonAsync
                    (PyExpr "get_completions(user_code, user_line, user_column)");
         parse_completions result)
        (λ _, mret [])
  end.

Definition nl : string := String "010"%char EmptyString.

(** [parts.join(sep)] *)
Fixpoint join (sep : string) (parts : list string) : string :=
  match parts with
  | [] => ""
  | [p] => p
  | p :: rest => p +:+ sep +:+ join sep rest
  end.

(** [Boolean(s)] on a string: the empty string is falsy. *)
Definition truthy (s : string) : bool :=
  match s with
  | EmptyString => false
  | String _ _ => true
  end.

(** The [value] that [getHover] renders from the parsed dictionary. *)
Definition hover_value (parsed : HoverInfo) : string :=
  let header := "**" +:+ h_name parsed +:+ "** (" +:+ h_type parsed +:+ ")" in
  let details := join (nl +:+ nl) (filter truthy [h_signature parsed; h_docstring parsed]) in
  if truthy details then header +:+ nl +:+ nl +:+ details else header.

Definition getHover (code : string) (line column : Z) : W (option WorkerHoverPayload) :=
  runtime ← getRuntime;
  match runtime with
  | None => mret None
  | Some _ =>
      try_catch
        (globals_set "user_code" (PyStr code);;
         globals_set "user_line" (PyInt (Z.max 1 line));;
         globals_set "user_column" (PyInt (Z.max 0 column));;
         result ← runPythonAsync
                    (PyExpr "get_hover(user_code, user_line, user_column)");
         parsed ← parse_hover result;
         match parsed with
         | None => mret None
         | Some parsed =>
             mret (Some {| contents_kind := "markdown";
                           contents_value := hover_value parsed |})
         end)
        (λ _, mret None)
  end.

Definition getDefinitions (code : string) (line column : Z)
  : W (list DefinitionResult) :=
  runtime ← getRuntime;
  match runtime with
  | None => mret []
  | Some _ =>
      try_catch
        (globals_set "user_code" (PyStr code);;
         globals_set "user_line" (PyInt (Z.max 1 line));;
         globals_set "user_column" (PyInt (Z.max 0 column));;
         result ← runPythonAsync
                    (PyExpr "get_definitions(user_code, user_line, user_column)");
         parse_definitions result)
        (λ _, mret [])
  end.

Definition respond (message : WorkerResponse) : W unit :=
  emit (PostMessage message).

(** The [message] listener. *)
Definition onmessage (req : WorkerRequest) : W unit :=
  match req with
  | ReqInitialize requestId =>
      try_catch
        (initializeJedi;;
         respond (RespInitialized requestId true None))
        (λ error, respond (RespInitialized requestId false (Some error)))
  | ReqAnalyze requestId code =>
      diagnostics ← analyzeCode code;
      respond (RespAnalysis requestId diagnostics)
  | ReqCompletion requestId code line column =>
      completions ← getCompletions code line column;
      respond (RespCompletion requestId completions)
  | ReqHover requestId code line column =>
      hover ← getHover code line column;
      respond (RespHover requestId hover)
  | ReqDefinition requestId code line column =>
      definitions ← getDefinitions code line column;
      respond (RespDefinition requestId definitions)
  | ReqOther _ _ => mret ()
  end.

(** The worker after one message. *)
Definition handle (req : WorkerRequest) (s : WorkerState) : WorkerState :=
  snd (onmessage req s).

End WithWorld.

(** The worker after a sequence of messages, each under its own world.
    Each listener is run to its end before the next message is taken: the
    schedule in which no message arrives while an earlier listener is
    suspended at an [await]. *)
Fixpoint run (msgs : list (World * WorkerRequest)) (s : WorkerState) : WorkerState :=
  match msgs with
  | [] => s
  | (w, req) :: rest => run rest (handle w req s)
  end.

(** What the worker did while it handled one message: the part of the
    trace that was added. *)
Definition effects_of (w : World) (req : WorkerRequest) (s : WorkerState) : list Effect :=
  drop (length (trace s)) (trace (handle w req s)).

Definition posted (es : list Effect) : list WorkerResponse :=
  omap (λ e, match e with PostMessage m => Some m | _ => None end) es.

(** The steps of the bootstrap: loading Pyodide and installing packages. *)
Definition bootstrap_step (e : Effect) : bool :=
  match e with
  | DynamicImport _ | CallLoader _ | LoadPackage _
  | RunPython INSTALL_SCRIPT | RunPython (createJediBootstrap _) => true
  | _ => false
  end.

(** The cursor an effect hands to Jedi, if it is a Jedi call. *)
Definition jedi_cursor (e : Effect) : option (Z * Z) :=
  match e with
  | JediComplete _ line column | JediHelp _ line column | JediGoto _ line column =>
      Some (line, column)
  | _ => None
  end.

(** The code and cursor of a request that carries a cursor. *)
Definition cursor_of (req : WorkerRequest) : option (string * Z * Z) :=
  match req with
  | ReqCompletion _ code line column | ReqHover _ code line column
  | ReqDefinition _ code line column => Some (code, line, column)
  | _ => None
  end.

(** The response that carries the empty result of an analysis request:
    no diagnostics, no completions, [null] hover, no definitions. *)
Definition no_result (req : WorkerRequest) : option WorkerResponse :=
  match req with
  | ReqAnalyze requestId _ => Some (RespAnalysis requestId [])
  | ReqCompletion requestId _ _ _ => Some (RespCompletion requestId [])
  | ReqHover requestId _ _ _ => Some (RespHover requestId None)
  | ReqDefinition requestId _ _ _ => Some (RespDefinition requestId [])
  | ReqInitialize _ | ReqOther _ _ => None
  end.

(** The interpreter either lacks the Jedi functions or has them with the
    cap [MAX_COMPLETIONS]. *)
Definition capped (s : WorkerState) : Prop :=
  ∀ p, pyodide s = Some p → bootstrap p = None ∨ bootstrap p = Some MAX_COMPLETIONS.

(** No fault on the path of the bootstrap. *)
Definition boots (w : World) : Prop :=
  import_fault w = None ∧ loadPyodide_fault w = None ∧
  loadPackage_fault w "micropip" = None ∧
  runPython_fault w INSTALL_SCRIPT = None ∧
  runPython_fault w (createJediBootstrap MAX_COMPLETIONS) = None.

(** The interpreter after the three [globals.set] calls of a cursor
    request. *)
Definition with_cursor (code : string) (line column : Z) (p : PyodideInterface)
  : PyodideInterface :=
  {| globals := <["user_column" := PyInt (Z.max 0 column)]>
                  (<["user_line" := PyInt (Z.max 1 line)]>
                     (<["user_code" := PyStr code]> (globals p)));
     bootstrap := bootstrap p |}.

Definition cursor_effects (code : string) (line column : Z) : list Effect :=
  [GlobalsSet "user_code" (PyStr code);
   GlobalsSet "user_line" (PyInt (Z.max 1 line));
   GlobalsSet "user_column" (PyInt (Z.max 0 column))].

(** The payload [getHover] builds from what [get_hover] returned. *)
Definition rendered (parsed : option HoverInfo) : option WorkerHoverPayload :=
  match parsed with
  | Some parsed => Some {| contents_kind := "markdown";
                           contents_value := hover_value parsed |}
  | None => None
  end.

(** Some [initialize] request was answered with [success: true]. *)
Definition init_succeeded (es : list Effect) : bool :=
  existsb (λ e, match e with
                | PostMessage (RespInitialized _ true _) => true
                | _ => false
                end) es.

(** *** Sample environments *)

(** Everything loads, and Jedi and parso find nothing. *)
Definition calm : World :=
  {| import_fault := None; loadPyodide_fault := None;
     loadPackage_fault := λ _, None; runPython_fault := λ _, None;
     jedi_complete := λ _ _ _, Some []; jedi_help := λ _ _ _, Some [];
     jedi_goto := λ _ _ _, Some []; parso_iter_errors := λ _, Some [];
     textwrap_dedent := λ s, s; str_strip := λ s, s |}.

(** The CDN cannot be reached when micropip is fetched. *)
Definition offline : World :=
  {| import_fault := None; loadPyodide_fault := None;
     loadPackage_fault := λ _, Some "NetworkError"; runPython_fault := λ _, None;
     jedi_complete := λ _ _ _, Some []; jedi_help := λ _ _ _, Some [];
     jedi_goto := λ _ _ _, Some []; parso_iter_errors := λ _, Some [];
     textwrap_dedent := λ s, s; str_strip := λ s, s |}.

(** The interpreter rejects whatever it is asked to run. *)
Definition faulty : World :=
  {| import_fault := None; loadPyodide_fault := None;
     loadPackage_fault := λ _, None; runPython_fault := λ _, Some "PythonError";
     jedi_complete := λ _ _ _, Some []; jedi_help := λ _ _ _, Some [];
     jedi_goto := λ _ _ _, Some []; parso_iter_errors := λ _, Some [];
     textwrap_dedent := λ s, s; str_strip := λ s, s |}.

(** A function [foo] without docstring, as Jedi reports it. *)
Definition foo : JediName :=
  {| jn_name := Some "foo"; jn_type := Some "function";
     jn_description := Some "def foo"; jn_signatures := Some ["foo()"];
     jn_docstring := Some ""; jn_complete := Some "o";
     jn_line := Some 1; jn_column := Some 4 |}.

(** Jedi resolves every cursor to [foo] and offers [many] copies of it as
    completions. *)
Definition foo_world (many : nat) : World :=
  {| import_fault := None; loadPyodide_fault := None;
     loadPackage_fault := λ _, None; runPython_fault := λ _, None;
     jedi_complete := λ _ _ _, Some (replicate many foo);
     jedi_help := λ _ _ _, Some [foo];
     jedi_goto := λ _ _ _, Some [foo]; parso_iter_errors := λ _, Some [];
     textwrap_dedent := λ s, s; str_strip := λ s, s |}.

End Worker.

(** ** The editor component *)

Module Bridge.

Import Worker.

(** *** Requests, as [callWorker] posts them *)

Inductive WorkerRequestType := initialize | analyze | completion | hover | definition.

(** The tag as it is spliced into the request id. *)
Definition type_name (type : WorkerRequestType) : string :=
  match type with
  | initialize => "initialize"
  | analyze => "analyze"
  | completion => "completion"
  | hover => "hover"
  | definition => "definition"
  end.

(** The [payload] object: the call sites pass [{}], [{code}] or
    [{code, line, column}]. *)
Record Payload := {
  pl_code : option string;
  pl_line : option Z;
  pl_column : option Z
}.

Definition no_payload : Payload :=
  {| pl_code := None; pl_line := None; pl_column := None |}.

Record PostedMessage := {
  msg_type : WorkerRequestType;
  msg_data : Payload;
  msg_requestId : string
}.

(** *** The refs and state of the component *)

(** A timer armed by [window.setTimeout]: the [requestId] its callback
    closes over, and its delay in milliseconds. *)
Record Timer := {
  timer_requestId : string;
  timer_delay : N
}.

(** Every call that gets past the worker check creates one promise, one
    timer and one resolver closure.  All three are named by the value the
    call gave to [requestIdCounter]: promise [n], timer handle [n], and the
    resolver stored in the table, which clears timer [n] and resolves
    promise [n].

    - [workerRef]: the live worker, numbered by creation.
    - [settled]: every call of a promise's [resolve], newest first, with the
      value passed ([None] is [null]).
    - [outbox]: the messages handed to [worker.postMessage], oldest first,
      each with the worker it went to. *)
Record Bridge := {
  workerRef : option nat;
  spawned : nat;
  isWorkerReady : bool;
  workerReadyRef : bool;
  requestIdCounter : nat;
  pendingRequests : gmap string nat;
  timers : gmap nat Timer;
  settled : list (nat * option WorkerResponse);
  outbox : list (nat * PostedMessage)
}.

Definition unmounted : Bridge :=
  {| workerRef := None; spawned := 0; isWorkerReady := false;
     workerReadyRef := false; requestIdCounter := 0;
     pendingRequests := ∅; timers := ∅; settled := []; outbox := [] |}.

Definition TIMEOUT_MS : N := 5000.

(** [`${type}-${Date.now()}-${requestIdCounter.current}`] *)
Definition make_requestId (type : WorkerRequestType) (now : N) (counter : nat) : string :=
  type_name type +:+ "-" +:+ pretty now +:+ "-" +:+ pretty counter.

(** What an [async] call hands back: a value at once, or promise [n]
    still pending. *)
Inductive Promise (A : Type) :=
| Resolved (value : A)
| Awaiting (n : nat).
Arguments Resolved {A} value.
Arguments Awaiting {A} n.

(** [resolve(value)] of promise [n]. *)
Definition resolve (n : nat) (value : option WorkerResponse) (st : Bridge) : Bridge :=
  {| workerRef := workerRef st; spawned := spawned st;
     isWorkerReady := isWorkerReady st; workerReadyRef := workerReadyRef st;
     requestIdCounter := requestIdCounter st;
     pendingRequests := pendingRequests st; timers := timers st;
     settled := (n, value) :: settled st; outbox := outbox st |}.

(** [window.clearTimeout(n)]; also what happens to a timer once it fired. *)
Definition clearTimeout (n : nat) (st : Bridge) : Bridge :=
  {| workerRef := workerRef st; spawned := spawned st;
     isWorkerReady := isWorkerReady st; workerReadyRef := workerReadyRef st;
     requestIdCounter := requestIdCounter st;
     pendingRequests := pendingRequests st; timers := delete n (timers st);
     settled := settled st; outbox := outbox st |}.

(** [pendingRequests.current.delete(requestId)] *)
Definition pending_delete (requestId : string) (st : Bridge) : Bridge :=
  {| workerRef := workerRef st; spawned := spawned st;
     isWorkerReady := isWorkerReady st; workerReadyRef := workerReadyRef st;
     requestIdCounter := requestIdCounter st;
     pendingRequests := delete requestId (pendingRequests st); timers := timers st;
     settled := settled st; outbox := outbox st |}.

Definition setIsWorkerReady (ready : bool) (st : Bridge) : Bridge :=
  {| workerRef := workerRef st; spawned := spawned st;
     isWorkerReady := ready; workerReadyRef := workerReadyRef st;
     requestIdCounter := requestIdCounter st;
     pendingRequests := pendingRequests st; timers := timers st;
     settled := settled st; outbox := outbox st |}.

(** The resolver that call [n] stores in the table:
    [(response) => { window.clearTimeout(timeoutId); resolve(response); }] *)
Definition resolver (n : nat) (response : WorkerResponse) (st : Bridge) : Bridge :=
  resolve n (Some response) (clearTimeout n st).

Definition callWorker (type : WorkerRequestType) (payload : Payload) (now : N)
    (st : Bridge) : Bridge * Promise (option WorkerResponse) :=
  match workerRef st with
  | None => (st, Resolved None)
  | Some worker =>
      let n := S (requestIdCounter st) in
      let requestId := make_requestId type now n in
      ({| workerRef := workerRef st; spawned := spawned st;
          isWorkerReady := isWorkerReady st; workerReadyRef := workerReadyRef st;
          requestIdCounter := n;
          pendingRequests := <[requestId := n]> (pendingRequests st);
          timers := <[n := {| timer_requestId := requestId; timer_delay := TIMEOUT_MS |}]>
                      (timers st);
          settled := settled st;
          outbox := outbox st ++
                    [(worker, {| msg_type := type; msg_data := payload;
                                 msg_requestId := requestId |})] |},
       Awaiting n)
  end.

(** The callback of timer [n], run when the timer fires.  A timer that is
    not armed (never set, cleared, or already fired) does not fire. *)
Definition timer_fires (n : nat) (st : Bridge) : Bridge :=
  match timers st !! n with
  | None => st
  | Some t =>
      let st := clearTimeout n st in
      if decide (is_Some (pendingRequests st !! timer_requestId t)) then
        resolve n None (pending_delete (timer_requestId t) st)
      else st
  end.

(** [worker.onmessage] *)
Definition worker_onmessage (message : WorkerResponse) (st : Bridge) : Bridge :=
  let st :=
    if truthy (response_id message) then
      match pendingRequests st !! response_id message with
      | Some n => resolver n message (pending_delete (response_id message) st)
      | None => st
      end
    else st in
  match message with
  | RespInitialized _ success _ => setIsWorkerReady success st
  | _ => st
  end.

(** The body of the worker effect.  With another language it only
    disposes the providers; with Python it creates a worker and sends
    [initialize]. *)
Definition worker_effect (language : string) (now : N) (st : Bridge) : Bridge :=
  if decide (language = "python") then
    let worker := S (spawned st) in
    fst (callWorker initialize no_payload now
      {| workerRef := Some worker; spawned := worker;
         isWorkerReady := isWorkerReady st; workerReadyRef := workerReadyRef st;
         requestIdCounter := requestIdCounter st;
         pendingRequests := pendingRequests st; timers := timers st;
         settled := settled st; outbox := outbox st |})
  else st.

(** The cleanup the worker effect returns: the table is cleared, the
    worker terminated and the ref reset. *)
Definition worker_cleanup (st : Bridge) : Bridge :=
  {| workerRef := None; spawned := spawned st;
     isWorkerReady := false; workerReadyRef := workerReadyRef st;
     requestIdCounter := requestIdCounter st;
     pendingRequests := ∅; timers := timers st;
     settled := settled st; outbox := outbox st |}.

(** The effect that copies [isWorkerReady] into [workerReadyRef]. *)
Definition ready_effect (st : Bridge) : Bridge :=
  {| workerRef := workerRef st; spawned := spawned st;
     isWorkerReady := isWorkerReady st; workerReadyRef := isWorkerReady st;
     requestIdCounter := requestIdCounter st;
     pendingRequests := pendingRequests st; timers := timers st;
     settled := settled st; outbox := outbox st |}.

(** *** The editor adapters *)

Record Position := {
  lineNumber : Z;
  column : Z
}.

Record Range := {
  startLineNumber : Z;
  startColumn : Z;
  endLineNumber : Z;
  endColumn : Z
}.

Inductive CompletionItemKind :=
| KindFunction | KindClass | KindModule | KindField
| KindProperty | KindKeyword | KindText.

Record Suggestion := {
  label : string;
  kind : CompletionItemKind;
  detail : string;
  documentation : option string;
  insertText : string;
  filterText : string;
  range : Range
}.

Inductive MarkerSeverity := MarkerError | MarkerWarning.

Record Marker := {
  mk_severity : MarkerSeverity;
  mk_startLineNumber : Z;
  mk_startColumn : Z;
  mk_endLineNumber : Z;
  mk_endColumn : Z;
  mk_message : string
}.

Definition item_kind (type : string) : CompletionItemKind :=
  if decide (type = "function") then KindFunction
  else if decide (type = "method") then KindFunction
  else if decide (type = "class") then KindClass
  else if decide (type = "module") then KindModule
  else if decide (type = "instance") then KindField
  else if decide (type = "param") then KindProperty
  else if decide (type = "property") then KindProperty
  else if decide (type = "keyword") then KindKeyword
  else if decide (type = "statement") then KindKeyword
  else KindText.

(** The function mapped over [response.data]. *)
Definition suggestion (range : Range) (item : WorkerCompletionItem) : Suggestion :=
  {| label := ci_name item;
     kind := item_kind (ci_type item);
     detail := if truthy (ci_signature item) then ci_signature item
               else ci_description item;
     documentation := if truthy (ci_docstring item) then Some (ci_docstring item)
                      else None;
     insertText := ci_name item;
     filterText := ci_name item;
     range := range |}.

(** [provideCompletionItems] after the [await]: [wordStart] is
    [model.getWordUntilPosition(position).startColumn]. *)
Definition completion_suggestions (response : option WorkerResponse)
    (wordStart : Z) (position : Position) : list Suggestion :=
  match response with
  | Some (RespCompletion _ data) =>
      suggestion {| startLineNumber := lineNumber position;
                    startColumn := wordStart;
                    endLineNumber := lineNumber position;
                    endColumn := column position |} <$> data
  | _ => []
  end.

(** What an adapter does when it is triggered: it answers at once, or it
    waits for promise [n]. *)
Definition provideCompletionItems (value : string) (position : Position)
    (wordStart : Z) (now : N) (st : Bridge) : Bridge * Promise (list Suggestion) :=
  if negb (workerReadyRef st) then (st, Resolved [])
  else
    match callWorker completion
            {| pl_code := Some value;
               pl_line := Some (lineNumber position);
               pl_column := Some (column position - 1) |} now st with
    | (st', Resolved response) =>
        (st', Resolved (completion_suggestions response wordStart position))
    | (st', Awaiting n) => (st', Awaiting n)
    end.

(** [provideHover] after the [await]: the markdown value, untrusted. *)
Definition hover_contents (response : option WorkerResponse) : option string :=
  match response with
  | Some (RespHover _ (Some data)) => Some (contents_value data)
  | _ => None
  end.

Definition provideHover (value : string) (position : Position) (now : N)
    (st : Bridge) : Bridge * Promise (option string) :=
  if negb (workerReadyRef st) then (st, Resolved None)
  else
    match callWorker hover
            {| pl_code := Some value;
               pl_line := Some (lineNumber position);
               pl_column := Some (column position - 1) |} now st with
    | (st', Resolved response) => (st', Resolved (hover_contents response))
    | (st', Awaiting n) => (st', Awaiting n)
    end.

(** The markers [updateDiagnostics] sets. *)
Definition marker (d : WorkerDiagnostic) : Marker :=
  {| mk_severity := match diag_severity d with
                    | SevError => MarkerError
                    | SevWarning => MarkerWarning
                    end;
     mk_startLineNumber := diag_line d;
     mk_startColumn := diag_column d;
     mk_endLineNumber := diag_line d;
     mk_endColumn := diag_column d + 1;
     mk_message := diag_message d |}.

(** The [then] callback of [handleEditorChange]: the markers to set, or
    [None] when [updateDiagnostics] is not called. *)
Definition analysis_markers (response : option WorkerResponse) : option (list Marker) :=
  match response with
  | Some (RespAnalysis _ diagnostics) => Some (marker <$> diagnostics)
  | _ => None
  end.

(** [handleEditorChange], after [onChange]: [value] is [None] for
    [undefined]. *)
Definition handleEditorChange (value : option string) (now : N) (st : Bridge)
    : Bridge * Promise (option (list Marker)) :=
  match value with
  | Some code =>
      if isWorkerReady st && truthy code then
        match callWorker analyze
                {| pl_code := Some code; pl_line := None; pl_column := None |} now st with
        | (st', Resolved response) => (st', Resolved (analysis_markers response))
        | (st', Awaiting n) => (st', Awaiting n)
        end
      else (st, Resolved None)
  | None => (st, Resolved None)
  end.

(** *** Runs of the component *)

Inductive Event :=
| EffectRuns (language : string) (now : N)
| CleanupRuns
| ReadyEffectRuns
| Calls (type : WorkerRequestType) (payload : Payload) (now : N)
| CompletionTriggered (value : string) (position : Position) (wordStart : Z) (now : N)
| HoverTriggered (value : string) (position : Position) (now : N)
| EditorChanged (value : option string) (now : N)
| MessageArrives (message : WorkerResponse)
| TimerFires (n : nat).

Definition step (e : Event) (st : Bridge) : Bridge :=
  match e with
  | EffectRuns language now => worker_effect language now st
  | CleanupRuns => worker_cleanup st
  | ReadyEffectRuns => ready_effect st
  | Calls type payload now => fst (callWorker type payload now st)
  | CompletionTriggered value position wordStart now =>
      fst (provideCompletionItems value position wordStart now st)
  | HoverTriggered value position now => fst (provideHover value position now st)
  | EditorChanged value now => fst (handleEditorChange value now st)
  | MessageArrives message => worker_onmessage message st
  | TimerFires n => timer_fires n st
  end.

Fixpoint run_events (events : list Event) (st : Bridge) : Bridge :=
  match events with
  | [] => st
  | e :: rest => run_events rest (step e st)
  end.

(** The promises that have been resolved. *)
Definition resolved_promises (st : Bridge) : list nat := fst <$> settled st.

(** The id the next call will use. *)
Definition next_requestId (type : WorkerRequestType) (now : N) (st : Bridge) : string :=
  make_requestId type now (S (requestIdCounter st)).

(** No hyphen in the string: true of a number in decimal. *)
Fixpoint dash_free (s : string) : bool :=
  match s with
  | EmptyString => true
  | String c rest => negb (Ascii.eqb c "-") && dash_free rest
  end.

(** How the table, the timers and the settled promises hang together in
    every state the component reaches. *)
Record consistent (st : Bridge) : Prop := {
  pending_armed : ∀ requestId n,
    pendingRequests st !! requestId = Some n →
    timers st !! n = Some {| timer_requestId := requestId; timer_delay := TIMEOUT_MS |};
  timer_named : ∀ n t,
    timers st !! n = Some t →
    (n ≤ requestIdCounter st)%nat ∧ timer_delay t = TIMEOUT_MS ∧
    ∃ type now, timer_requestId t = make_requestId type now n;
  timer_unresolved : ∀ n, is_Some (timers st !! n) → n ∉ resolved_promises st;
  resolved_old : ∀ n, n ∈ resolved_promises st → (n ≤ requestIdCounter st)%nat;
  resolved_once : NoDup (resolved_promises st)
}.

(** The part of the state that calls, messages and timers work on. *)
Definition core (st : Bridge)
  : nat * gmap string nat * gmap nat Timer * list (nat * option WorkerResponse) :=
  (requestIdCounter st, pendingRequests st, timers st, settled st).

(** Events that leave request [requestId] of call [n] alone: no cleanup,
    no message for [requestId], and timer [n] does not fire. *)
Definition leaves_alone (requestId : string) (n : nat) (e : Event) : bool :=
  match e with
  | CleanupRuns => false
  | MessageArrives message => negb (String.eqb (response_id message) requestId)
  | TimerFires k => negb (Nat.eqb k n)
  | _ => true
  end.

(** The same item with another [insert_text]. *)
Definition with_insert_text (text : string) (item : WorkerCompletionItem)
  : WorkerCompletionItem :=
  {| ci_name := ci_name item; ci_type := ci_type item;
     ci_description := ci_description item; ci_signature := ci_signature item;
     ci_docstring := ci_docstring item; ci_insert_text := text |}.

(** *** Sample runs *)

(** The editor is mounted for Python, the worker reports that it is
    ready, and the ref is brought up to date. *)
Definition getting_ready : list Event :=
  [EffectRuns "python" 1000;
   MessageArrives (RespInitialized "initialize-1000-1" true None);
   ReadyEffectRuns].

Definition cursor : Position := {| lineNumber := 3; column := 5 |}.

(** Then the user hovers: call 2, with id [hover-2000-2]. *)
Definition hovering : list Event :=
  getting_ready ++ [HoverTriggered "x = 1" cursor 2000].

End Bridge.

(** ** The protocol between the two *)

Module Protocol.

Import Worker Bridge.

(** The [type] tag of a response. *)
Definition response_type (r : WorkerResponse) : string :=
  match r with
  | RespInitialized _ _ _ => "initialized"
  | RespAnalysis _ _ => "analysis"
  | RespCompletion _ _ => "completion"
  | RespHover _ _ => "hover"
  | RespDefinition _ _ => "definition"
  end.

(** The tag the listener answers each case of its [switch] with. *)
Definition answer_type (req : WorkerRequest) : option string :=
  match req with
  | ReqInitialize _ => Some "initialized"
  | ReqAnalyze _ _ => Some "analysis"
  | ReqCompletion _ _ _ _ => Some "completion"
  | ReqHover _ _ _ _ => Some "hover"
  | ReqDefinition _ _ _ _ => Some "definition"
  | ReqOther _ _ => None
  end.

(** What the listener of the worker reads of a message that [callWorker]
    posted: the tag, the id, and the fields of [data] that the case of the
    tag destructures.  A payload that lacks one of these fields is outside
    the types of the worker ([None]). *)
Definition to_request (m : PostedMessage) : option WorkerRequest :=
  match msg_type m, pl_code (msg_data m), pl_line (msg_data m), pl_column (msg_data m) with
  | initialize, _, _, _ => Some (ReqInitialize (msg_requestId m))
  | analyze, Some code, _, _ => Some (ReqAnalyze (msg_requestId m) code)
  | completion, Some code, Some line, Some column =>
      Some (ReqCompletion (msg_requestId m) code line column)
  | hover, Some code, Some line, Some column =>
      Some (ReqHover (msg_requestId m) code line column)
  | definition, Some code, Some line, Some column =>
      Some (ReqDefinition (msg_requestId m) code line column)
  | _, _, _, _ => None
  end.

(** The dynamic import of [pyodide.mjs]. *)
Definition is_import (e : Effect) : bool :=
  match e with DynamicImport _ => true | _ => false end.

(** What the worker did while it handled a sequence of messages. *)
Definition effects_of_run (msgs : list (World * WorkerRequest)) (s : WorkerState)
  : list Effect :=
  drop (length (trace s)) (trace (run msgs s)).

(** The names of the globals the worker sets. *)
Definition cursor_globals : list string := ["user_code"; "user_line"; "user_column"].


End Protocol.

(** ** The bootstrap as a plan *)

Module Bootstrap.

Import Worker.

(** The external calls of [initializeJedi] in the order of the source,
    each with the fault the world answers it with; the import is skipped
    when [loadPyodideFn] holds the loader. *)
Definition plan (w : World) (cached : bool) : list (Effect * option string) :=
  (if cached then [] else [(DynamicImport PYODIDE_MODULE_URL, import_fault w)]) ++
  [(CallLoader PYODIDE_INDEX_URL, loadPyodide_fault w);
   (LoadPackage "micropip", loadPackage_fault w "micropip");
   (RunPython INSTALL_SCRIPT, runPython_fault w INSTALL_SCRIPT);
   (RunPython (createJediBootstrap MAX_COMPLETIONS),
    runPython_fault w (createJediBootstrap MAX_COMPLETIONS))].

(** The calls made until the first one fails, and that failure. *)
Fixpoint until_fault (steps : list (Effect * option string))
  : list Effect * option string :=
  match steps with
  | [] => ([], None)
  | (e, Some err) :: _ => ([e], Some err)
  | (e, None) :: rest => (e :: fst (until_fault rest), snd (until_fault rest))
  end.

Definition cached (s : WorkerState) : bool :=
  match loadPyodideFn s with Some _ => true | None => false end.

Definition succeeded (failure : option string) : bool :=
  match failure with None => true | Some _ => false end.

End Bootstrap.

(** ** Notions for the further properties of the worker *)

Module WorkerNotions.

Import Worker.

Definition is_initialize (req : WorkerRequest) : bool :=
  match req with ReqInitialize _ => true | _ => false end.

(** A Jedi candidate whose [get_signatures()] raises. *)
Definition untouchable : JediName :=
  {| jn_name := Some "bar"; jn_type := Some "instance";
     jn_description := None; jn_signatures := None;
     jn_docstring := None; jn_complete := None;
     jn_line := None; jn_column := None |}.

(** Jedi offers [good] copies of [foo] followed by one candidate that
    raises. *)
Definition thorny_world (good : nat) : World :=
  {| import_fault := None; loadPyodide_fault := None;
     loadPackage_fault := λ _, None; runPython_fault := λ _, None;
     jedi_complete := λ _ _ _, Some (replicate good foo ++ [untouchable]);
     jedi_help := λ _ _ _, Some [foo];
     jedi_goto := λ _ _ _, Some [foo]; parso_iter_errors := λ _, Some [];
     textwrap_dedent := λ s, s; str_strip := λ s, s |}.

End WorkerNotions.

(** ** Notions for the further properties of the component *)

Module BridgeNotions.

Import Worker Bridge Protocol.

(** The call to the worker that an event makes, if it makes one: the
    worker the message goes to, the tag, the payload and the time. *)
Definition call_of (e : Event) (st : Bridge)
  : option (nat * WorkerRequestType * Payload * N) :=
  match e with
  | EffectRuns language now =>
      if decide (language = "python")
      then Some (S (spawned st), initialize, no_payload, now) else None
  | Calls type payload now =>
      match workerRef st with
      | Some worker => Some (worker, type, payload, now)
      | None => None
      end
  | CompletionTriggered value position _ now =>
      match workerRef st with
      | Some worker =>
          if workerReadyRef st
          then Some (worker, completion,
                     {| pl_code := Some value; pl_line := Some (lineNumber position);
                        pl_column := Some (column position - 1) |}, now)
          else None
      | None => None
      end
  | HoverTriggered value position now =>
      match workerRef st with
      | Some worker =>
          if workerReadyRef st
          then Some (worker, hover,
                     {| pl_code := Some value; pl_line := Some (lineNumber position);
                        pl_column := Some (column position - 1) |}, now)
          else None
      | None => None
      end
  | EditorChanged (Some code) now =>
      match workerRef st with
      | Some worker =>
          if isWorkerReady st && truthy code
          then Some (worker, analyze,
                     {| pl_code := Some code; pl_line := None; pl_column := None |}, now)
          else None
      | None => None
      end
  | _ => None
  end.

(** The events the component itself gives rise to: all but a bare call
    of [callWorker]. *)
Definition of_component (e : Event) : bool :=
  match e with Calls _ _ _ => false | _ => true end.

Definition spawns (e : Event) : bool :=
  match e with
  | EffectRuns language _ => bool_decide (language = "python")
  | _ => false
  end.

(** The first message posted to a worker. *)
Definition first_to (worker : nat) (posted : list (nat * PostedMessage))
  : option PostedMessage :=
  snd <$> head (filter (λ x, fst x = worker) posted).

(** The ids of the messages posted. *)
Definition posted_ids (st : Bridge) : list string :=
  (λ x, msg_requestId (snd x)) <$> outbox st.

(** How the messages posted hang together with the counter and the
    workers in every state the component reaches. *)
Record posted_ok (st : Bridge) : Prop := {
  posted_counted : length (outbox st) = requestIdCounter st;
  posted_named : ∀ k worker m,
    outbox st !! k = Some (worker, m) →
    (1 ≤ worker ≤ spawned st)%nat
    ∧ ∃ now, msg_requestId m = make_requestId (msg_type m) now (S k);
  worker_latest : ∀ worker,
    workerRef st = Some worker → worker = spawned st ∧ (1 ≤ worker)%nat;
  worker_greeted : ∀ worker,
    (1 ≤ worker ≤ spawned st)%nat →
    ∃ m, first_to worker (outbox st) = Some m
         ∧ msg_type m = initialize ∧ msg_data m = no_payload
}.

(** A promise that was resolved with a response was resolved with one
    that carries the id of the promise's own request. *)
Definition settled_named (st : Bridge) : Prop :=
  ∀ n r, (n, Some r) ∈ settled st →
         ∃ type now, response_id r = make_requestId type now n.

(** A message as the effect and the adapters post it: never a
    [definition] request, with the fields of [data] that the worker
    reads, and never with empty code to analyse. *)
Definition well_formed (m : PostedMessage) : Prop :=
  msg_type m ≠ definition
  ∧ is_Some (to_request m)
  ∧ (msg_type m = analyze →
     ∃ code, pl_code (msg_data m) = Some code ∧ truthy code = true).

(** The worker effect was cleaned up while the user hovered. *)
Definition torn_down : Bridge := run_events (hovering ++ [CleanupRuns]) unmounted.

(** The component and the worker once the worker is up. *)
Definition ready_component : Bridge := run_events getting_ready unmounted.

Definition ready_worker : WorkerState :=
  run [(calm, ReqInitialize "initialize-1000-1")] initial.

End BridgeNotions.

(** ** The editor component as a whole *)

(** The component around the bridge: the refs to the editor and to the
    Monaco API, the providers it registers, and the continuations of the
    promises it awaits.  Of Monaco, the model keeps what the component can
    tell: which providers are registered for Python (by the handle their
    disposable stands for), which model each editor shows, and the markers
    of each model under the owner [python-jedi].  Of the page around it,
    the [code] state that [onChange] sets.

    A continuation runs in the step in which its promise is resolved:
    promise reactions are microtasks, which run before the next event.
    Monaco asks a provider only while it is registered. *)

Module Editor.

Import Worker Bridge.

Inductive ProviderKind := CompletionItemProvider | HoverProvider.

Global Instance ProviderKind_eq_dec : EqDecision ProviderKind.
Proof. solve_decision. Defined.

(** What is left to do once a promise of [callWorker] is resolved. *)
Inductive Continuation :=
| ThenSuggest (wordStart : Z) (position : Position)
| ThenHover
| ThenDiagnose.

(** What a provider hands back to Monaco. *)
Inductive Delivery :=
| Suggestions (suggestions : list Suggestion)
| HoverContents (contents : option string).

Record Component := {
  bridge : Bridge;
  editorRef : option nat;
  monacoRef : bool;
  providerDisposables : list nat;
  providers : gmap nat ProviderKind;
  registrations : nat;
  models : gmap nat nat;
  markers : gmap nat (list Marker);
  awaiting : gmap nat Continuation;
  delivered : list Delivery;
  code : string
}.

(** [const [code, setCode] = useState(initialCode)] and the component
    before anything ran. *)
Definition fresh (initialCode : string) : Component :=
  {| bridge := unmounted; editorRef := None; monacoRef := false;
     providerDisposables := []; providers := ∅; registrations := 0;
     models := ∅; markers := ∅; awaiting := ∅; delivered := [];
     code := initialCode |}.

Definition set_bridge (st : Bridge) (c : Component) : Component :=
  {| bridge := st; editorRef := editorRef c; monacoRef := monacoRef c;
     providerDisposables := providerDisposables c; providers := providers c;
     registrations := registrations c; models := models c; markers := markers c;
     awaiting := awaiting c; delivered := delivered c; code := code c |}.

Definition set_refs (editor : nat) (c : Component) : Component :=
  {| bridge := bridge c; editorRef := Some editor; monacoRef := true;
     providerDisposables := providerDisposables c; providers := providers c;
     registrations := registrations c; models := models c; markers := markers c;
     awaiting := awaiting c; delivered := delivered c; code := code c |}.

Definition set_providers (disposables : list nat) (registered : gmap nat ProviderKind)
    (count : nat) (c : Component) : Component :=
  {| bridge := bridge c; editorRef := editorRef c; monacoRef := monacoRef c;
     providerDisposables := disposables; providers := registered;
     registrations := count; models := models c; markers := markers c;
     awaiting := awaiting c; delivered := delivered c; code := code c |}.

Definition set_models (shown : gmap nat nat) (c : Component) : Component :=
  {| bridge := bridge c; editorRef := editorRef c; monacoRef := monacoRef c;
     providerDisposables := providerDisposables c; providers := providers c;
     registrations := registrations c; models := shown; markers := markers c;
     awaiting := awaiting c; delivered := delivered c; code := code c |}.

(** [monacoApi.editor.setModelMarkers(model, "python-jedi", markers)] *)
Definition setModelMarkers (model : nat) (ms : list Marker) (c : Component) : Component :=
  {| bridge := bridge c; editorRef := editorRef c; monacoRef := monacoRef c;
     providerDisposables := providerDisposables c; providers := providers c;
     registrations := registrations c; models := models c;
     markers := <[model := ms]> (markers c);
     awaiting := awaiting c; delivered := delivered c; code := code c |}.

Definition set_awaiting (continuations : gmap nat Continuation) (c : Component)
  : Component :=
  {| bridge := bridge c; editorRef := editorRef c; monacoRef := monacoRef c;
     providerDisposables := providerDisposables c; providers := providers c;
     registrations := registrations c; models := models c; markers := markers c;
     awaiting := continuations; delivered := delivered c; code := code c |}.

Definition deliver (d : Delivery) (c : Component) : Component :=
  {| bridge := bridge c; editorRef := editorRef c; monacoRef := monacoRef c;
     providerDisposables := providerDisposables c; providers := providers c;
     registrations := registrations c; models := models c; markers := markers c;
     awaiting := awaiting c; delivered := d :: delivered c; code := code c |}.

(** [onChange={(value) => setCode(value || "")}] of the page. *)
Definition onChange (value : option string) (c : Component) : Component :=
  {| bridge := bridge c; editorRef := editorRef c; monacoRef := monacoRef c;
     providerDisposables := providerDisposables c; providers := providers c;
     registrations := registrations c; models := models c; markers := markers c;
     awaiting := awaiting c; delivered := delivered c;
     code := match value with
             | Some text => if truthy text then text else ""
             | None => ""
             end |}.

(** *** Providers *)

(** Every disposable is disposed, which takes its provider out of
    Monaco, and the list is emptied. *)
Definition disposeProviders (c : Component) : Component :=
  set_providers []
    (foldl (λ registered disposable, delete disposable registered)
       (providers c) (providerDisposables c))
    (registrations c) c.

Definition registerProviders (c : Component) : Component :=
  let c := disposeProviders c in
  let completionDisposable := S (registrations c) in
  let hoverDisposable := S (S (registrations c)) in
  set_providers [completionDisposable; hoverDisposable]
    (<[hoverDisposable := HoverProvider]>
       (<[completionDisposable := CompletionItemProvider]> (providers c)))
    hoverDisposable c.

(** [language] is the prop of the render whose [onMount] runs. *)
Definition handleEditorDidMount (editor : nat) (language : string) (c : Component)
  : Component :=
  let c := set_refs editor c in
  if decide (language = "python") then registerProviders c else c.

(** Monaco has a provider of this kind. *)
Definition has_provider (k : ProviderKind) (c : Component) : bool :=
  bool_decide (k ∈ (snd <$> map_to_list (providers c))).

(** *** Diagnostics *)

Definition updateDiagnostics (diagnostics : list WorkerDiagnostic) (c : Component)
  : Component :=
  if monacoRef c then
    match editorRef c with
    | Some editorInstance =>
        match models c !! editorInstance with
        | Some model => setModelMarkers model (marker <$> diagnostics) c
        | None => c
        end
    | None => c
    end
  else c.

(** *** Continuations *)

(** The [then] callback of [handleEditorChange]. *)
Definition then_diagnose (response : option WorkerResponse) (c : Component)
  : Component :=
  match response with
  | Some (RespAnalysis _ diagnostics) => updateDiagnostics diagnostics c
  | _ => c
  end.

(** Promise [n] was resolved with [value]: what awaited it goes on. *)
Definition continue (n : nat) (value : option WorkerResponse) (c : Component)
  : Component :=
  match awaiting c !! n with
  | None => c
  | Some k =>
      let c := set_awaiting (delete n (awaiting c)) c in
      match k with
      | ThenSuggest wordStart position =>
          deliver (Suggestions (completion_suggestions value wordStart position)) c
      | ThenHover => deliver (HoverContents (hover_contents value)) c
      | ThenDiagnose => then_diagnose value c
      end
  end.

(** The promises resolved since the bridge was in state [before], newest
    first. *)
Definition newly_settled (before after : Bridge) : list (nat * option WorkerResponse) :=
  take (length (settled after) - length (settled before)) (settled after).

Definition run_continuations (before : Bridge) (c : Component) : Component :=
  foldr (λ x c, continue (fst x) (snd x) c) c (newly_settled before (bridge c)).

(** *** The handlers *)

Definition worker_effect (language : string) (now : N) (c : Component) : Component :=
  if decide (language = "python")
  then set_bridge (Bridge.worker_effect language now (bridge c)) c
  else disposeProviders c.

Definition worker_cleanup (c : Component) : Component :=
  disposeProviders (set_bridge (Bridge.worker_cleanup (bridge c)) c).

Definition ready_effect (c : Component) : Component :=
  set_bridge (Bridge.ready_effect (bridge c)) c.

Definition handleEditorChange (value : option string) (now : N) (c : Component)
  : Component :=
  let c := onChange value c in
  match value with
  | Some text =>
      if isWorkerReady (bridge c) && truthy text then
        match callWorker analyze
                {| pl_code := Some text; pl_line := None; pl_column := None |}
                now (bridge c) with
        | (st, Resolved response) => then_diagnose response (set_bridge st c)
        | (st, Awaiting n) =>
            set_awaiting (<[n := ThenDiagnose]> (awaiting c)) (set_bridge st c)
        end
      else c
  | None => c
  end.

(** Monaco asks the completion provider, if one is registered. *)
Definition asks_completion (value : string) (position : Position) (wordStart : Z)
    (now : N) (c : Component) : Component :=
  if has_provider CompletionItemProvider c then
    match provideCompletionItems value position wordStart now (bridge c) with
    | (st, Resolved suggestions) => deliver (Suggestions suggestions) (set_bridge st c)
    | (st, Awaiting n) =>
        set_awaiting (<[n := ThenSuggest wordStart position]> (awaiting c))
          (set_bridge st c)
    end
  else c.

Definition asks_hover (value : string) (position : Position) (now : N)
    (c : Component) : Component :=
  if has_provider HoverProvider c then
    match provideHover value position now (bridge c) with
    | (st, Resolved contents) => deliver (HoverContents contents) (set_bridge st c)
    | (st, Awaiting n) =>
        set_awaiting (<[n := ThenHover]> (awaiting c)) (set_bridge st c)
    end
  else c.

Definition onmessage (message : WorkerResponse) (c : Component) : Component :=
  run_continuations (bridge c) (set_bridge (worker_onmessage message (bridge c)) c).

Definition timeout (n : nat) (c : Component) : Component :=
  run_continuations (bridge c) (set_bridge (timer_fires n (bridge c)) c).

(** *** Runs *)

Inductive Event :=
| Mounts (editor : nat) (language : string)
| ShowsModel (editor : nat) (model : option nat)
| Effect (language : string) (now : N)
| Cleanup
| ReadyEffect
| Changes (value : option string) (now : N)
| AsksCompletion (value : string) (position : Position) (wordStart : Z) (now : N)
| AsksHover (value : string) (position : Position) (now : N)
| Message (message : WorkerResponse)
| Timeout (n : nat).

Definition step (e : Event) (c : Component) : Component :=
  match e with
  | Mounts editor language => handleEditorDidMount editor language c
  | ShowsModel editor model =>
      set_models (match model with
                  | Some model => <[editor := model]> (models c)
                  | None => delete editor (models c)
                  end) c
  | Effect language now => worker_effect language now c
  | Cleanup => worker_cleanup c
  | ReadyEffect => ready_effect c
  | Changes value now => handleEditorChange value now c
  | AsksCompletion value position wordStart now =>
      asks_completion value position wordStart now c
  | AsksHover value position now => asks_hover value position now c
  | Message message => onmessage message c
  | Timeout n => timeout n c
  end.

Fixpoint run (events : list Event) (c : Component) : Component :=
  match events with
  | [] => c
  | e :: rest => run rest (step e c)
  end.

(** *** Notions for the properties *)

(** What an event is to the bridge. *)
Definition to_bridge (e : Event) (c : Component) : option Bridge.Event :=
  match e with
  | Mounts _ _ | ShowsModel _ _ => None
  | Effect language now => Some (EffectRuns language now)
  | Cleanup => Some CleanupRuns
  | ReadyEffect => Some ReadyEffectRuns
  | Changes value now => Some (EditorChanged value now)
  | AsksCompletion value position wordStart now =>
      if has_provider CompletionItemProvider c
      then Some (CompletionTriggered value position wordStart now) else None
  | AsksHover value position now =>
      if has_provider HoverProvider c
      then Some (HoverTriggered value position now) else None
  | Message message => Some (MessageArrives message)
  | Timeout n => Some (TimerFires n)
  end.

(** The editor mounts under the language Python. *)
Definition mounts_python (e : Event) : bool :=
  match e with
  | Mounts _ language => bool_decide (language = "python")
  | _ => false
  end.

(** Monaco holds no provider of the component, or one completion
    provider and one hover provider, which are the two on the list. *)
Definition tidy (c : Component) : Prop :=
  (providerDisposables c = [] ∧ providers c = ∅)
  ∨ ∃ h, providerDisposables c = [h; S h]
         ∧ providers c = <[S h := HoverProvider]> {[h := CompletionItemProvider]}.

(** Events that leave request [requestId] of call [n] alone. *)
Definition spares (requestId : string) (n : nat) (e : Event) : bool :=
  match e with
  | Cleanup => false
  | Message message => negb (String.eqb (response_id message) requestId)
  | Timeout k => negb (Nat.eqb k n)
  | _ => true
  end.

(** The tags of requests that need no provider. *)
Definition provider_free (type : WorkerRequestType) : bool :=
  match type with initialize | analyze => true | _ => false end.

(** Monaco asks the provider of a kind; the tag of the request that
    provider sends; and what the provider hands back once its promise is
    resolved with [value]. *)
Definition asks (k : ProviderKind) (value : string) (position : Position)
    (wordStart : Z) (now : N) : Event :=
  match k with
  | CompletionItemProvider => AsksCompletion value position wordStart now
  | HoverProvider => AsksHover value position now
  end.

Definition request_tag (k : ProviderKind) : WorkerRequestType :=
  match k with
  | CompletionItemProvider => completion
  | HoverProvider => hover
  end.

Definition answer_with (k : ProviderKind) (value : option WorkerResponse)
    (wordStart : Z) (position : Position) : Delivery :=
  match k with
  | CompletionItemProvider =>
      Suggestions (completion_suggestions value wordStart position)
  | HoverProvider => HoverContents (hover_contents value)
  end.

Definition continuation_of (k : ProviderKind) (wordStart : Z) (position : Position)
  : Continuation :=
  match k with
  | CompletionItemProvider => ThenSuggest wordStart position
  | HoverProvider => ThenHover
  end.

(** The text the editor reported last: [undefined] counts as empty. *)
Definition reported (initialCode : string) (events : list Event) : string :=
  foldl (λ text e, match e with
                   | Changes value _ => default "" value
                   | _ => text
                   end) initialCode events.

(** *** Sample runs *)

(** The editor mounts, the worker comes up, and the ref follows. *)
Definition up : list Event :=
  [Mounts 1 "python"; ShowsModel 1 (Some 7%nat);
   Effect "python" 1000;
   Message (RespInitialized "initialize-1000-1" true None);
   ReadyEffect].

End Editor.

(** ** The switch of the listener *)

(** The listener of the worker reads [type] and [requestId] of
    [event.data] and switches on [type], a string; each case reads the
    fields of [data] that it destructures. *)

Module Listener.

Import Worker Bridge.





End Listener.

(** * Properties of the worker *)

Import Worker.

(** ** Running the monad *)

Lemma drop_trace (tr es : list Effect) : drop (length tr) (tr ++ es) = es.
Proof. by rewrite drop_app_length. Qed.

(** The handlers are straight-line code: unfolding them and splitting on
    what the world answers evaluates them. *)
Ltac run_worker :=
  cbv [handle onmessage initializeJedi analyzeCode getCompletions getHover
       getDefinitions getRuntime respond runPythonAsync globals_set eval_call
       global_str global_int get_completions get_hover get_diagnostics
       get_definitions parse_diagnostics parse_completions parse_hover
       parse_definitions settle try_catch throw emit get_state set_pyodide
       set_jediInitialized set_loadPyodideFn mbind mret W_bind W_ret];
  cbn [pyodide jediInitialized loadPyodideFn trace fst snd globals bootstrap].

Lemma snoc_nil {A} (x : A) : [x] = [] ++ [x].
Proof. done. Qed.

Lemma snoc_cons {A} (a x : A) (l es : list A) :
  l = es ++ [x] → a :: l = (a :: es) ++ [x].
Proof. by intros ->. Qed.

(** Splits a list that is spelled out into its front and its last element. *)
Ltac split_last := repeat first [ apply snoc_nil | apply snoc_cons ].

Lemma initialize_when_ready w requestId s :
  jediInitialized s = true →
  handle w (ReqInitialize requestId) s =
    {| pyodide := pyodide s; jediInitialized := true;
       loadPyodideFn := loadPyodideFn s;
       trace := trace s ++ [PostMessage (RespInitialized requestId true None)] |}.
Proof.
  destruct s as [py ji lf tr]; cbn; intros ->. run_worker. done.
Qed.

(** An [initialize] request that finds the flag unset runs bootstrap
    steps, at least one, and then posts a single answer; the flag ends up
    set exactly when the answer reports success. *)
Lemma initialize_when_not_ready w requestId s :
  jediInitialized s = false →
  ∃ e es ok err,
    trace (handle w (ReqInitialize requestId) s)
      = trace s ++ (e :: es) ++ [PostMessage (RespInitialized requestId ok err)]
    ∧ Forall (λ e, bootstrap_step e = true) (e :: es)
    ∧ jediInitialized (handle w (ReqInitialize requestId) s) = ok
    ∧ (ok = false → is_Some err)
    ∧ (ok = true → err = None)
    ∧ (boots w → ok = true)
    ∧ (capped s → capped (handle w (ReqInitialize requestId) s)).
Proof.
  destruct s as [py ji lf tr]; cbn; intros ->.
  unfold boots, capped. run_worker.
  destruct lf as [l|], (import_fault w) as [e0|], (loadPyodide_fault w) as [e1|],
    (loadPackage_fault w "micropip") as [e2|],
    (runPython_fault w INSTALL_SCRIPT) as [e3|],
    (runPython_fault w (createJediBootstrap MAX_COMPLETIONS)) as [e4|];
    cbn; rewrite <- ?app_assoc; cbn;
    do 4 eexists; (split; [f_equal; f_equal; split_last|]);
    (split; [repeat constructor|]);
    repeat split; cbn; eauto; try discriminate;
    try (by intros (? & ? & ? & ? & ?));
    try (by intros _ p [= <-]; cbn; auto).
Qed.

(** An analysis request on a worker that is not ready posts the empty
    result and does nothing else. *)
Lemma analysis_when_not_ready w req r s :
  no_result req = Some r →
  pyodide s = None ∨ jediInitialized s = false →
  handle w req s =
    {| pyodide := pyodide s; jediInitialized := jediInitialized s;
       loadPyodideFn := loadPyodideFn s;
       trace := trace s ++ [PostMessage r] |}.
Proof.
  destruct s as [py ji lf tr]; cbn. intros Hr Hs.
  assert (match py with Some p => if ji then Some p else None | None => None end
          = None) as Hrt.
  { destruct Hs as [-> | ->]; [done | by destruct py]. }
  destruct req; simplify_eq/=; run_worker; by rewrite Hrt.
Qed.

(** Evaluates a request on a worker that is ready. *)
Ltac run_ready :=
  run_worker;
  repeat first
    [ reflexivity
    | progress (rewrite <- !app_assoc)
    | match goal with
      | |- context [runPython_fault ?w ?src] =>
          destruct (runPython_fault w src); cbn
      | b : option nat |- _ => destruct b; cbn
      | |- context [decide (_ = _)] =>
          let Hd := fresh "Hd" in
          case_decide as Hd; [try discriminate Hd | try done]
      end
    | progress simplify_map_eq
    | progress cbn ].

Lemma analyze_when_ready w requestId code s p :
  pyodide s = Some p → jediInitialized s = true →
  handle w (ReqAnalyze requestId code) s =
    {| pyodide := Some {| globals := <["user_code" := PyStr code]> (globals p);
                          bootstrap := bootstrap p |};
       jediInitialized := true; loadPyodideFn := loadPyodideFn s;
       trace := trace s ++
         GlobalsSet "user_code" (PyStr code) ::
         RunPython (PyExpr "get_diagnostics(user_code)") ::
         match runPython_fault w (PyExpr "get_diagnostics(user_code)"),
               bootstrap p with
         | None, Some k =>
             [ParsoParse code;
              PostMessage (RespAnalysis requestId (diagnostic_results w code))]
         | _, _ => [PostMessage (RespAnalysis requestId [])]
         end |}.
Proof.
  destruct s as [py ji lf tr], p as [g b]; cbn. intros -> ->. run_ready.
Qed.

Lemma completion_when_ready w requestId code line column s p :
  pyodide s = Some p → jediInitialized s = true →
  handle w (ReqCompletion requestId code line column) s =
    {| pyodide := Some (with_cursor code line column p);
       jediInitialized := true; loadPyodideFn := loadPyodideFn s;
       trace := trace s ++ cursor_effects code line column ++
         RunPython (PyExpr "get_completions(user_code, user_line, user_column)") ::
         match runPython_fault w
                 (PyExpr "get_completions(user_code, user_line, user_column)"),
               bootstrap p with
         | None, Some k =>
             [JediComplete code (Z.max 1 line) (Z.max 0 column);
              PostMessage (RespCompletion requestId
                (completion_results w k code (Z.max 1 line) (Z.max 0 column)))]
         | _, _ => [PostMessage (RespCompletion requestId [])]
         end |}.
Proof.
  destruct s as [py ji lf tr], p as [g b]; cbn. intros -> ->. run_ready.
Qed.

Lemma hover_when_ready w requestId code line column s p :
  pyodide s = Some p → jediInitialized s = true →
  handle w (ReqHover requestId code line column) s =
    {| pyodide := Some (with_cursor code line column p);
       jediInitialized := true; loadPyodideFn := loadPyodideFn s;
       trace := trace s ++ cursor_effects code line column ++
         RunPython (PyExpr "get_hover(user_code, user_line, user_column)") ::
         match runPython_fault w
                 (PyExpr "get_hover(user_code, user_line, user_column)"),
               bootstrap p with
         | None, Some k =>
             [JediHelp code (Z.max 1 line) (Z.max 0 column);
              PostMessage (RespHover requestId
                (rendered (hover_result w code (Z.max 1 line) (Z.max 0 column))))]
         | _, _ => [PostMessage (RespHover requestId None)]
         end |}.
Proof.
  destruct s as [py ji lf tr], p as [g b]; cbn. intros -> ->. run_ready.
  destruct (hover_result w code _ _); run_ready.
Qed.

Lemma definition_when_ready w requestId code line column s p :
  pyodide s = Some p → jediInitialized s = true →
  handle w (ReqDefinition requestId code line column) s =
    {| pyodide := Some (with_cursor code line column p);
       jediInitialized := true; loadPyodideFn := loadPyodideFn s;
       trace := trace s ++ cursor_effects code line column ++
         RunPython (PyExpr "get_definitions(user_code, user_line, user_column)") ::
         match runPython_fault w
                 (PyExpr "get_definitions(user_code, user_line, user_column)"),
               bootstrap p with
         | None, Some k =>
             [JediGoto code (Z.max 1 line) (Z.max 0 column);
              PostMessage (RespDefinition requestId
                (definition_results w code (Z.max 1 line) (Z.max 0 column)))]
         | _, _ => [PostMessage (RespDefinition requestId [])]
         end |}.
Proof.
  destruct s as [py ji lf tr], p as [g b]; cbn. intros -> ->. run_ready.
Qed.

(** ** What one message adds to the trace *)

Lemma effects_of_eq w req s es :
  trace (handle w req s) = trace s ++ es → effects_of w req s = es.
Proof. unfold effects_of. intros ->. apply drop_trace. Qed.

(** Whether [getRuntime] finds a runtime. *)
Lemma readiness s :
  (∃ p, pyodide s = Some p ∧ jediInitialized s = true)
  ∨ (pyodide s = None ∨ jediInitialized s = false).
Proof. destruct (pyodide s), (jediInitialized s); eauto. Qed.

Lemma other_ignored w type requestId s : handle w (ReqOther type requestId) s = s.
Proof. by destruct s. Qed.

Lemma posted_bootstrap es :
  Forall (λ e, bootstrap_step e = true) es → posted es = [].
Proof.
  induction 1 as [|x l Hx _ IH]; [done|].
  by destruct x as [| | |[]| | | | | |].
Qed.

Lemma posted_app es1 es2 : posted (es1 ++ es2) = posted es1 ++ posted es2.
Proof. unfold posted. apply omap_app. Qed.

(** Every known request is answered once, under its own id; the answer is
    the last thing the handler does. *)
Lemma handle_answers w req s :
  known_kind req = true →
  ∃ es r, trace (handle w req s) = trace s ++ es ++ [PostMessage r]
          ∧ posted es = [] ∧ response_id r = request_id req.
Proof.
  intros Hk. destruct req as [i|i c|i c l k|i c l k|i c l k|t i]; [| | | | |done].
  - destruct (jediInitialized s) eqn:Hj.
    + rewrite initialize_when_ready by done. by exists [], (RespInitialized i true None).
    + destruct (initialize_when_not_ready w i s Hj)
        as (e & es & ok & err & -> & Hes & _).
      exists (e :: es), (RespInitialized i ok err).
      split_and!; [done|by apply posted_bootstrap|done].
  - destruct (readiness s) as [(p & Hp & Hj)|Hn].
    + rewrite (analyze_when_ready _ _ _ _ p) by done. cbn.
      destruct (runPython_fault w _), (bootstrap p);
        by eexists _, _; split; [do 2 f_equal; split_last|].
    + rewrite (analysis_when_not_ready _ _ (RespAnalysis i [])) by done.
      by exists [], (RespAnalysis i []).
  - destruct (readiness s) as [(p & Hp & Hj)|Hn].
    + rewrite (completion_when_ready _ _ _ _ _ _ p) by done. cbn.
      destruct (runPython_fault w _), (bootstrap p);
        by eexists _, _; split; [do 2 f_equal; split_last|].
    + rewrite (analysis_when_not_ready _ _ (RespCompletion i [])) by done.
      by exists [], (RespCompletion i []).
  - destruct (readiness s) as [(p & Hp & Hj)|Hn].
    + rewrite (hover_when_ready _ _ _ _ _ _ p) by done. cbn.
      destruct (runPython_fault w _), (bootstrap p);
        by eexists _, _; split; [do 2 f_equal; split_last|].
    + rewrite (analysis_when_not_ready _ _ (RespHover i None)) by done.
      by exists [], (RespHover i None).
  - destruct (readiness s) as [(p & Hp & Hj)|Hn].
    + rewrite (definition_when_ready _ _ _ _ _ _ p) by done. cbn.
      destruct (runPython_fault w _), (bootstrap p);
        by eexists _, _; split; [do 2 f_equal; split_last|].
    + rewrite (analysis_when_not_ready _ _ (RespDefinition i [])) by done.
      by exists [], (RespDefinition i []).
Qed.

Lemma handle_appends w req s :
  trace (handle w req s) = trace s ++ effects_of w req s.
Proof.
  destruct (known_kind req) eqn:Hk.
  - destruct (handle_answers w req s Hk) as (es & r & Ht & _).
    by rewrite (effects_of_eq _ _ _ _ Ht).
  - destruct req; try done. rewrite other_ignored.
    unfold effects_of. rewrite other_ignored, drop_all. by rewrite app_nil_r.
Qed.

(** ** Invariants of the worker *)

Lemma capped_handle w req s : capped s → capped (handle w req s).
Proof.
  intros Hc. destruct req as [i|i c|i c l k|i c l k|i c l k|t i].
  - destruct (jediInitialized s) eqn:Hj.
    + rewrite initialize_when_ready by done. exact Hc.
    + destruct (initialize_when_not_ready w i s Hj) as (?&?&?&?&_&_&_&_&_&_&H).
      by apply H.
  - destruct (readiness s) as [(p & Hp & Hj)|Hn].
    + rewrite (analyze_when_ready _ _ _ _ p) by done.
      intros p' [= <-]; cbn. by apply Hc.
    + by rewrite (analysis_when_not_ready _ _ (RespAnalysis i [])).
  - destruct (readiness s) as [(p & Hp & Hj)|Hn].
    + rewrite (completion_when_ready _ _ _ _ _ _ p) by done.
      intros p' [= <-]; cbn. by apply Hc.
    + by rewrite (analysis_when_not_ready _ _ (RespCompletion i [])).
  - destruct (readiness s) as [(p & Hp & Hj)|Hn].
    + rewrite (hover_when_ready _ _ _ _ _ _ p) by done.
      intros p' [= <-]; cbn. by apply Hc.
    + by rewrite (analysis_when_not_ready _ _ (RespHover i None)).
  - destruct (readiness s) as [(p & Hp & Hj)|Hn].
    + rewrite (definition_when_ready _ _ _ _ _ _ p) by done.
      intros p' [= <-]; cbn. by apply Hc.
    + by rewrite (analysis_when_not_ready _ _ (RespDefinition i [])).
  - by rewrite other_ignored.
Qed.

Lemma capped_run msgs s : capped s → capped (run msgs s).
Proof.
  revert s. induction msgs as [|[w req] msgs IH]; intros s Hc; [done|].
  cbn. by apply IH, capped_handle.
Qed.

Lemma capped_initial : capped initial.
Proof. by intros p. Qed.

(** Only an [initialize] request changes the flag. *)
Lemma flag_kept w req s :
  (∀ requestId, req ≠ ReqInitialize requestId) →
  jediInitialized (handle w req s) = jediInitialized s.
Proof.
  intros Hne. destruct req as [i|i c|i c l k|i c l k|i c l k|t i].
  - by destruct (Hne i).
  - destruct (readiness s) as [(p & Hp & Hj)|Hn].
    + by rewrite (analyze_when_ready _ _ _ _ p).
    + by rewrite (analysis_when_not_ready _ _ (RespAnalysis i [])).
  - destruct (readiness s) as [(p & Hp & Hj)|Hn].
    + by rewrite (completion_when_ready _ _ _ _ _ _ p).
    + by rewrite (analysis_when_not_ready _ _ (RespCompletion i [])).
  - destruct (readiness s) as [(p & Hp & Hj)|Hn].
    + by rewrite (hover_when_ready _ _ _ _ _ _ p).
    + by rewrite (analysis_when_not_ready _ _ (RespHover i None)).
  - destruct (readiness s) as [(p & Hp & Hj)|Hn].
    + by rewrite (definition_when_ready _ _ _ _ _ _ p).
    + by rewrite (analysis_when_not_ready _ _ (RespDefinition i [])).
  - by rewrite other_ignored.
Qed.

Lemma init_succeeded_app es1 es2 :
  init_succeeded (es1 ++ es2) = init_succeeded es1 || init_succeeded es2.
Proof. apply existsb_app. Qed.

(** The flag is set only by a handler that goes on to report success. *)
Lemma flag_reported w req s :
  (jediInitialized s = true → init_succeeded (trace s) = true) →
  jediInitialized (handle w req s) = true →
  init_succeeded (trace (handle w req s)) = true.
Proof.
  intros Hs Hj. rewrite handle_appends, init_succeeded_app.
  destruct (jediInitialized s) eqn:Hjs; [by rewrite Hs|].
  destruct req as [i|i c|i c l k|i c l k|i c l k|t i];
    try by rewrite flag_kept in Hj; [congruence|].
  destruct (initialize_when_not_ready w i s Hjs)
    as (e & es & ok & err & Ht & _ & Hok & _ & Herr & _).
  rewrite (effects_of_eq _ _ _ _ Ht), !init_succeeded_app.
  rewrite Hj in Hok; subst ok. rewrite Herr by done. cbn.
  by rewrite !orb_true_r.
Qed.

Lemma flag_reported_run msgs s :
  (jediInitialized s = true → init_succeeded (trace s) = true) →
  jediInitialized (run msgs s) = true →
  init_succeeded (trace (run msgs s)) = true.
Proof.
  revert s. induction msgs as [|[w req] msgs IH]; intros s Hs; [done|].
  cbn. apply IH. by apply flag_reported.
Qed.

(** ** Initialisation *)

(** A failure is reported only by a handler that found the flag unset and
    left it unset. *)
Lemma initialize_failed w requestId err s :
  posted (effects_of w (ReqInitialize requestId) s)
    = [RespInitialized requestId false err] →
  jediInitialized s = false
  ∧ jediInitialized (handle w (ReqInitialize requestId) s) = false.
Proof.
  intros Hp. destruct (jediInitialized s) eqn:Hj.
  - rewrite (effects_of_eq w _ s [PostMessage (RespInitialized requestId true None)])
      in Hp; [done|].
    by rewrite initialize_when_ready.
  - split; [done|].
    destruct (initialize_when_not_ready w requestId s Hj)
      as (e & es & ok & err' & Ht & Hes & Hok & _).
    rewrite (effects_of_eq _ _ _ _ Ht), posted_app, posted_bootstrap in Hp by done.
    injection Hp as <- _. done.
Qed.

Lemma initialize_succeeded w requestId s :
  posted (effects_of w (ReqInitialize requestId) s)
    = [RespInitialized requestId true None] →
  jediInitialized (handle w (ReqInitialize requestId) s) = true.
Proof.
  intros Hp. destruct (jediInitialized s) eqn:Hj.
  - by rewrite initialize_when_ready.
  - destruct (initialize_when_not_ready w requestId s Hj)
      as (e & es & ok & err' & Ht & Hes & Hok & _).
    rewrite (effects_of_eq _ _ _ _ Ht), posted_app, posted_bootstrap in Hp by done.
    injection Hp as <- _. done.
Qed.

(** C6: once an [initialize] request has been answered with success, the
    next [initialize] request does nothing but post success: it loads
    nothing, installs nothing, and leaves the interpreter, the cached loader
    and the flag as they were. *)
Theorem initialize_idempotent w1 w2 id1 id2 s :
  posted (effects_of w1 (ReqInitialize id1) s) = [RespInitialized id1 true None] →
  effects_of w2 (ReqInitialize id2) (handle w1 (ReqInitialize id1) s)
    = [PostMessage (RespInitialized id2 true None)]
  ∧ pyodide (handle w2 (ReqInitialize id2) (handle w1 (ReqInitialize id1) s))
    = pyodide (handle w1 (ReqInitialize id1) s)
  ∧ loadPyodideFn (handle w2 (ReqInitialize id2) (handle w1 (ReqInitialize id1) s))
    = loadPyodideFn (handle w1 (ReqInitialize id1) s)
  ∧ jediInitialized (handle w2 (ReqInitialize id2) (handle w1 (ReqInitialize id1) s))
    = true.
Proof.
  intros Hp. apply initialize_succeeded in Hp.
  rewrite (initialize_when_ready w2 id2 _ Hp). split_and!; try done.
  apply effects_of_eq. by rewrite (initialize_when_ready w2 id2 _ Hp).
Qed.

Lemma initialize_idempotent_witness :
  effects_of offline (ReqInitialize "initialize-2-2")
    (handle calm (ReqInitialize "initialize-1-1") initial)
    = [PostMessage (RespInitialized "initialize-2-2" true None)]
  ∧ pyodide (handle offline (ReqInitialize "initialize-2-2")
               (handle calm (ReqInitialize "initialize-1-1") initial))
    = pyodide (handle calm (ReqInitialize "initialize-1-1") initial)
  ∧ loadPyodideFn (handle offline (ReqInitialize "initialize-2-2")
                     (handle calm (ReqInitialize "initialize-1-1") initial))
    = loadPyodideFn (handle calm (ReqInitialize "initialize-1-1") initial)
  ∧ jediInitialized (handle offline (ReqInitialize "initialize-2-2")
                       (handle calm (ReqInitialize "initialize-1-1") initial))
    = true.
Proof.
  apply (initialize_idempotent calm offline "initialize-1-1" "initialize-2-2" initial).
  reflexivity.
Defined.

(** C4 as stated fails: the first [initialize] fails while micropip is
    fetched; the worker answers the second [initialize] by loading Pyodide
    and installing the packages again, and ends up ready. *)
Lemma failed_initialize_is_retried :
  posted (effects_of offline (ReqInitialize "initialize-1-1") initial)
    = [RespInitialized "initialize-1-1" false (Some "NetworkError")]
  ∧ jediInitialized (handle offline (ReqInitialize "initialize-1-1") initial) = false
  ∧ effects_of calm (ReqInitialize "initialize-2-2")
      (handle offline (ReqInitialize "initialize-1-1") initial)
    = [CallLoader PYODIDE_INDEX_URL; LoadPackage "micropip";
       RunPython INSTALL_SCRIPT; RunPython (createJediBootstrap 50);
       PostMessage (RespInitialized "initialize-2-2" true None)]
  ∧ jediInitialized
      (handle calm (ReqInitialize "initialize-2-2")
         (handle offline (ReqInitialize "initialize-1-1") initial)) = true.
Proof. by vm_compute. Qed.

(** C4, amended: after an [initialize] request was answered with a
    failure the flag is unset, and no other request sets it or runs a step
    of the bootstrap; but every later [initialize] request starts the
    bootstrap again, and it succeeds when nothing fails on the way. *)
Theorem failed_initialize_not_ready w1 id1 err s :
  posted (effects_of w1 (ReqInitialize id1) s) = [RespInitialized id1 false err] →
  jediInitialized (handle w1 (ReqInitialize id1) s) = false
  ∧ (∀ w req, (∀ i, req ≠ ReqInitialize i) →
       jediInitialized (handle w req (handle w1 (ReqInitialize id1) s)) = false
       ∧ Forall (λ e, bootstrap_step e = false)
           (effects_of w req (handle w1 (ReqInitialize id1) s)))
  ∧ (∀ w i, ∃ e es,
       effects_of w (ReqInitialize i) (handle w1 (ReqInitialize id1) s) = e :: es
       ∧ bootstrap_step e = true)
  ∧ (∀ w i, boots w →
       posted (effects_of w (ReqInitialize i) (handle w1 (ReqInitialize id1) s))
         = [RespInitialized i true None]
       ∧ jediInitialized
           (handle w (ReqInitialize i) (handle w1 (ReqInitialize id1) s)) = true).
Proof.
  intros Hp. apply initialize_failed in Hp as [_ Hj].
  set (s1 := handle w1 (ReqInitialize id1) s) in *. split_and!; [done|..].
  - intros w req Hne. split; [by rewrite flag_kept|].
    destruct req as [i|i c|i c l k|i c l k|i c l k|t i]; [by destruct (Hne i)|..].
    + rewrite (effects_of_eq _ _ _ [PostMessage (RespAnalysis i [])]);
        [by repeat constructor|].
      rewrite (analysis_when_not_ready _ _ (RespAnalysis i [])); auto.
    + rewrite (effects_of_eq _ _ _ [PostMessage (RespCompletion i [])]);
        [by repeat constructor|].
      rewrite (analysis_when_not_ready _ _ (RespCompletion i [])); auto.
    + rewrite (effects_of_eq _ _ _ [PostMessage (RespHover i None)]);
        [by repeat constructor|].
      rewrite (analysis_when_not_ready _ _ (RespHover i None)); auto.
    + rewrite (effects_of_eq _ _ _ [PostMessage (RespDefinition i [])]);
        [by repeat constructor|].
      rewrite (analysis_when_not_ready _ _ (RespDefinition i [])); auto.
    + rewrite (effects_of_eq _ _ _ []); [done|].
      by rewrite other_ignored, app_nil_r.
  - intros w i.
    destruct (initialize_when_not_ready w i s1 Hj)
      as (e & es & ok & err' & Ht & Hes & _).
    exists e, (es ++ [PostMessage (RespInitialized i ok err')]).
    split; [by apply effects_of_eq|]. by apply Forall_cons in Hes as [? _].
  - intros w i Hw.
    destruct (initialize_when_not_ready w i s1 Hj)
      as (e & es & ok & err' & Ht & Hes & Hok & _ & Herr & Hb & _).
    rewrite (effects_of_eq _ _ _ _ Ht), posted_app, posted_bootstrap by done.
    specialize (Hb Hw). subst ok. rewrite (Herr Hb). cbn. by rewrite Hb.
Qed.

Lemma failed_initialize_not_ready_witness :
  jediInitialized (handle offline (ReqInitialize "initialize-1-1") initial) = false
  ∧ (∀ w req, (∀ i, req ≠ ReqInitialize i) →
       jediInitialized
         (handle w req (handle offline (ReqInitialize "initialize-1-1") initial))
         = false
       ∧ Forall (λ e, bootstrap_step e = false)
           (effects_of w req
              (handle offline (ReqInitialize "initialize-1-1") initial)))
  ∧ (∀ w i, ∃ e es,
       effects_of w (ReqInitialize i)
         (handle offline (ReqInitialize "initialize-1-1") initial) = e :: es
       ∧ bootstrap_step e = true)
  ∧ (∀ w i, boots w →
       posted (effects_of w (ReqInitialize i)
                 (handle offline (ReqInitialize "initialize-1-1") initial))
         = [RespInitialized i true None]
       ∧ jediInitialized
           (handle w (ReqInitialize i)
              (handle offline (ReqInitialize "initialize-1-1") initial)) = true).
Proof.
  apply (failed_initialize_not_ready offline "initialize-1-1" (Some "NetworkError")
           initial).
  reflexivity.
Defined.

(** ** Completions *)

Lemma completion_results_length w k code line column :
  (length (completion_results w k code line column) ≤ k)%nat.
Proof.
  unfold completion_results.
  destruct (jedi_complete w code line column) as [completions|]; [|cbn; lia].
  destruct (mapM _ _) as [results|] eqn:Hm; [|cbn; lia].
  apply length_mapM in Hm. rewrite <- Hm, length_take. lia.
Qed.

(** C7: whatever requests the worker has handled before, and however many
    candidates Jedi produces, a [completion] request is answered with at
    most 50 items. *)
Theorem completions_capped msgs w requestId code line column :
  ∃ data,
    posted (effects_of w (ReqCompletion requestId code line column)
              (run msgs initial))
      = [RespCompletion requestId data]
    ∧ (length data ≤ 50)%nat.
Proof.
  pose proof (capped_run msgs initial capped_initial) as Hc.
  set (s := run msgs initial) in *.
  destruct (readiness s) as [(p & Hp & Hj)|Hn].
  - erewrite effects_of_eq; [|by rewrite (completion_when_ready _ _ _ _ _ _ p)].
    destruct (runPython_fault w _); [exists []; cbn; split; [done|lia]|].
    destruct (Hc p Hp) as [-> | ->]; [exists []; cbn; split; [done|lia]|].
    eexists; split; [done|]. apply completion_results_length.
  - erewrite effects_of_eq;
      [|by rewrite (analysis_when_not_ready _ _ (RespCompletion requestId []))].
    exists []; cbn; split; [done|lia].
Qed.

(** The cap is reached: Jedi offers 60 candidates, 50 are returned. *)
Example completions_capped_at_60 :
  length (completion_results (foo_world 60) MAX_COMPLETIONS "fo" 1 2) = 50%nat.
Proof. by vm_compute. Qed.

(** ** Hover *)

(** C8: the markdown value of a hover.  For [foo], a function with
    signature [foo()] and no docstring, it is the bold header, a blank line
    and the signature, and this is what a ready worker answers.  In general
    the value is the header alone when signature and docstring are both
    empty, and otherwise the header, a blank line, and the non-empty ones
    among signature and docstring, separated by a blank line. *)
Theorem hover_rendering :
  (∀ description,
     hover_value {| h_name := "foo"; h_type := "function";
                    h_description := description;
                    h_docstring := ""; h_signature := "foo()" |}
       = "**foo** (function)" +:+ nl +:+ nl +:+ "foo()")
  ∧ posted (effects_of (foo_world 1) (ReqHover "hover-2-2" "foo" 1 1)
              (handle (foo_world 1) (ReqInitialize "initialize-1-1") initial))
      = [RespHover "hover-2-2"
           (Some {| contents_kind := "markdown";
                    contents_value := "**foo** (function)" +:+ nl +:+ nl +:+ "foo()" |})]
  ∧ (∀ name type description,
       hover_value {| h_name := name; h_type := type; h_description := description;
                      h_docstring := ""; h_signature := "" |}
         = "**" +:+ name +:+ "** (" +:+ type +:+ ")")
  ∧ (∀ name type description c signature,
       hover_value {| h_name := name; h_type := type; h_description := description;
                      h_docstring := ""; h_signature := String c signature |}
         = ("**" +:+ name +:+ "** (" +:+ type +:+ ")")
             +:+ nl +:+ nl +:+ String c signature)
  ∧ (∀ name type description c docstring,
       hover_value {| h_name := name; h_type := type; h_description := description;
                      h_docstring := String c docstring; h_signature := "" |}
         = ("**" +:+ name +:+ "** (" +:+ type +:+ ")")
             +:+ nl +:+ nl +:+ String c docstring)
  ∧ (∀ name type description c signature c' docstring,
       hover_value {| h_name := name; h_type := type; h_description := description;
                      h_docstring := String c' docstring;
                      h_signature := String c signature |}
         = ("**" +:+ name +:+ "** (" +:+ type +:+ ")")
             +:+ nl +:+ nl +:+ String c signature
             +:+ nl +:+ nl +:+ String c' docstring)
  ∧ (∀ w requestId code line column s,
       ∃ data,
         posted (effects_of w (ReqHover requestId code line column) s)
           = [RespHover requestId data]
         ∧ (data = None
            ∨ data = rendered (hover_result w code (Z.max 1 line) (Z.max 0 column)))).
Proof.
  split_and!; try done.
  intros w requestId code line column s.
  destruct (readiness s) as [(p & Hp & Hj)|Hn].
  - erewrite effects_of_eq; [|by rewrite (hover_when_ready _ _ _ _ _ _ p)].
    destruct (runPython_fault w _), (bootstrap p); cbn; eauto.
  - erewrite effects_of_eq;
      [|by rewrite (analysis_when_not_ready _ _ (RespHover requestId None))].
    cbn; eauto.
Qed.

(** ** Cursor coordinates *)

(** Whatever the state of the worker, an effect of a request with cursor
    [(line, column)] that is a call into Jedi or sets [user_line] or
    [user_column] carries the clamped numbers. *)
Lemma jedi_calls_clamped w req code line column s e :
  cursor_of req = Some (code, line, column) →
  e ∈ effects_of w req s →
  (∀ l c, jedi_cursor e = Some (l, c) →
     l = Z.max 1 line ∧ c = Z.max 0 column ∧ 1 ≤ l ∧ 0 ≤ c)
  ∧ (∀ v, e = GlobalsSet "user_line" v → v = PyInt (Z.max 1 line))
  ∧ (∀ v, e = GlobalsSet "user_column" v → v = PyInt (Z.max 0 column)).
Proof.
  intros Hreq He.
  assert (∀ k es,
    effects_of w req s = cursor_effects code line column ++ RunPython k :: es →
    (∀ x, x ∈ es → jedi_cursor x = Some (Z.max 1 line, Z.max 0 column) ∨
                   ∃ r, x = PostMessage r) →
    (∀ l c, jedi_cursor e = Some (l, c) →
       l = Z.max 1 line ∧ c = Z.max 0 column ∧ 1 ≤ l ∧ 0 ≤ c)
    ∧ (∀ v, e = GlobalsSet "user_line" v → v = PyInt (Z.max 1 line))
    ∧ (∀ v, e = GlobalsSet "user_column" v → v = PyInt (Z.max 0 column)))
    as Hready.
  { intros k es Heq Hes. rewrite Heq in He. cbn in He.
    rewrite !elem_of_cons in He.
    destruct He as [->|[->|[->|[->|He]]]]; cbn;
      try (split_and!; intros; by simplify_eq).
    destruct (Hes _ He) as [Hc|[r ->]];
      [|split_and!; intros; by simplify_eq].
    split_and!; [|intros v ->; by simplify_eq..].
    intros l c Hlc. rewrite Hc in Hlc. simplify_eq. lia. }
  assert (∀ r, effects_of w req s = [PostMessage r] →
    (∀ l c, jedi_cursor e = Some (l, c) →
       l = Z.max 1 line ∧ c = Z.max 0 column ∧ 1 ≤ l ∧ 0 ≤ c)
    ∧ (∀ v, e = GlobalsSet "user_line" v → v = PyInt (Z.max 1 line))
    ∧ (∀ v, e = GlobalsSet "user_column" v → v = PyInt (Z.max 0 column)))
    as Hidle.
  { intros r Heq. rewrite Heq in He. apply list_elem_of_singleton in He as ->.
    split_and!; intros; by simplify_eq. }
  assert (∀ (x a : Effect) r,
    x ∈ [a; PostMessage r] →
    jedi_cursor a = Some (Z.max 1 line, Z.max 0 column) →
    jedi_cursor x = Some (Z.max 1 line, Z.max 0 column) ∨ ∃ r, x = PostMessage r)
    as Htwo.
  { intros x a r Hx Ha. rewrite !elem_of_cons in Hx.
    destruct Hx as [->|[->|Hx]]; eauto. by apply elem_of_nil in Hx. }
  assert (∀ (x : Effect) r,
    x ∈ [PostMessage r] →
    jedi_cursor x = Some (Z.max 1 line, Z.max 0 column) ∨ ∃ r, x = PostMessage r)
    as Hone.
  { intros x r Hx. apply list_elem_of_singleton in Hx as ->. eauto. }
  destruct req as [i|i c|i c l k|i c l k|i c l k|t i]; simplify_eq/=.
  - destruct (readiness s) as [(p & Hp & Hj)|Hn].
    + eapply Hready.
      * apply effects_of_eq. by rewrite (completion_when_ready _ _ _ _ _ _ p).
      * intros x Hx. destruct (runPython_fault w _), (bootstrap p); eauto.
    + eapply Hidle, effects_of_eq.
      by rewrite (analysis_when_not_ready _ _ (RespCompletion i [])).
  - destruct (readiness s) as [(p & Hp & Hj)|Hn].
    + eapply Hready.
      * apply effects_of_eq. by rewrite (hover_when_ready _ _ _ _ _ _ p).
      * intros x Hx. destruct (runPython_fault w _), (bootstrap p); eauto.
    + eapply Hidle, effects_of_eq.
      by rewrite (analysis_when_not_ready _ _ (RespHover i None)).
  - destruct (readiness s) as [(p & Hp & Hj)|Hn].
    + eapply Hready.
      * apply effects_of_eq. by rewrite (definition_when_ready _ _ _ _ _ _ p).
      * intros x Hx. destruct (runPython_fault w _), (bootstrap p); eauto.
    + eapply Hidle, effects_of_eq.
      by rewrite (analysis_when_not_ready _ _ (RespDefinition i [])).
Qed.


(** C9: for a [completion], [hover] or [definition] request with cursor
    [(line, column)], whenever [getRuntime] finds the runtime the worker
    first sets [user_code] to the code, [user_line] to [max 1 line] and
    [user_column] to [max 0 column], and then runs the call expression of
    the request; the interpreter holds these two numbers afterwards; and
    when the interpreter has the Jedi functions and does not fail, exactly
    one call into Jedi follows, at [(max 1 line, max 0 column)].  In every
    state, no effect of the request carries another cursor: a line below 1
    or a column below 0 never reaches Jedi. *)
Theorem cursor_clamped w req code line column s :
  cursor_of req = Some (code, line, column) →
  (∀ p, pyodide s = Some p → jediInitialized s = true →
     ∃ expression rest p',
       effects_of w req s
         = [GlobalsSet "user_code" (PyStr code);
            GlobalsSet "user_line" (PyInt (Z.max 1 line));
            GlobalsSet "user_column" (PyInt (Z.max 0 column));
            RunPython (PyExpr expression)] ++ rest
       ∧ pyodide (handle w req s) = Some p'
       ∧ globals p' !! "user_line" = Some (PyInt (Z.max 1 line))
       ∧ globals p' !! "user_column" = Some (PyInt (Z.max 0 column))
       ∧ (runPython_fault w (PyExpr expression) = None →
          is_Some (bootstrap p) →
          ∃ e r, rest = [e; PostMessage r]
                 ∧ jedi_cursor e = Some (Z.max 1 line, Z.max 0 column)))
  ∧ (∀ e, e ∈ effects_of w req s →
       (∀ l c, jedi_cursor e = Some (l, c) →
          l = Z.max 1 line ∧ c = Z.max 0 column ∧ 1 ≤ l ∧ 0 ≤ c)
       ∧ (∀ v, e = GlobalsSet "user_line" v → v = PyInt (Z.max 1 line))
       ∧ (∀ v, e = GlobalsSet "user_column" v → v = PyInt (Z.max 0 column))).
Proof.
  intros Hreq.
  split; [|intros e He; by apply (jedi_calls_clamped w req code line column s e)].
  intros p Hp Hj.
  destruct req as [i|i c|i c l k|i c l k|i c l k|t i]; simplify_eq/=.
  - exists "get_completions(user_code, user_line, user_column)".
    eexists _, (with_cursor code line column p). split_and!.
    + apply effects_of_eq. by rewrite (completion_when_ready _ _ _ _ _ _ p).
    + by rewrite (completion_when_ready _ _ _ _ _ _ p).
    + cbn. rewrite lookup_insert_ne by done. apply lookup_insert_eq.
    + cbn. apply lookup_insert_eq.
    + intros -> [k0 ->]. by eexists _, _.
  - exists "get_hover(user_code, user_line, user_column)".
    eexists _, (with_cursor code line column p). split_and!.
    + apply effects_of_eq. by rewrite (hover_when_ready _ _ _ _ _ _ p).
    + by rewrite (hover_when_ready _ _ _ _ _ _ p).
    + cbn. rewrite lookup_insert_ne by done. apply lookup_insert_eq.
    + cbn. apply lookup_insert_eq.
    + intros -> [k0 ->]. by eexists _, _.
  - exists "get_definitions(user_code, user_line, user_column)".
    eexists _, (with_cursor code line column p). split_and!.
    + apply effects_of_eq. by rewrite (definition_when_ready _ _ _ _ _ _ p).
    + by rewrite (definition_when_ready _ _ _ _ _ _ p).
    + cbn. rewrite lookup_insert_ne by done. apply lookup_insert_eq.
    + cbn. apply lookup_insert_eq.
    + intros -> [k0 ->]. by eexists _, _.
Qed.

Lemma cursor_clamped_witness :
  (∃ expression rest p',
     effects_of (foo_world 1) (ReqCompletion "completion-2-2" "fo" (-3) (-7))
         (handle calm (ReqInitialize "initialize-1-1") initial)
       = [GlobalsSet "user_code" (PyStr "fo");
          GlobalsSet "user_line" (PyInt (Z.max 1 (-3)));
          GlobalsSet "user_column" (PyInt (Z.max 0 (-7)));
          RunPython (PyExpr expression)] ++ rest
     ∧ pyodide (handle (foo_world 1) (ReqCompletion "completion-2-2" "fo" (-3) (-7))
                  (handle calm (ReqInitialize "initialize-1-1") initial)) = Some p'
     ∧ globals p' !! "user_line" = Some (PyInt (Z.max 1 (-3)))
     ∧ globals p' !! "user_column" = Some (PyInt (Z.max 0 (-7)))
     ∧ (runPython_fault (foo_world 1) (PyExpr expression) = None →
        is_Some (bootstrap {| globals := ∅; bootstrap := Some 50%nat |}) →
        ∃ e r, rest = [e; PostMessage r]
               ∧ jedi_cursor e = Some (Z.max 1 (-3), Z.max 0 (-7))))
  ∧ (∃ expression rest p',
       effects_of (foo_world 1) (ReqHover "hover-3-3" "fo" 0 (-1))
           (handle calm (ReqInitialize "initialize-1-1") initial)
         = [GlobalsSet "user_code" (PyStr "fo");
            GlobalsSet "user_line" (PyInt (Z.max 1 0));
            GlobalsSet "user_column" (PyInt (Z.max 0 (-1)));
            RunPython (PyExpr expression)] ++ rest
       ∧ pyodide (handle (foo_world 1) (ReqHover "hover-3-3" "fo" 0 (-1))
                    (handle calm (ReqInitialize "initialize-1-1") initial)) = Some p'
       ∧ globals p' !! "user_line" = Some (PyInt (Z.max 1 0))
       ∧ globals p' !! "user_column" = Some (PyInt (Z.max 0 (-1)))
       ∧ (runPython_fault (foo_world 1) (PyExpr expression) = None →
          is_Some (bootstrap {| globals := ∅; bootstrap := Some 50%nat |}) →
          ∃ e r, rest = [e; PostMessage r]
                 ∧ jedi_cursor e = Some (Z.max 1 0, Z.max 0 (-1))))
  ∧ (∃ expression rest p',
       effects_of (foo_world 1) (ReqDefinition "definition-4-4" "fo" (-2) 5)
           (handle calm (ReqInitialize "initialize-1-1") initial)
         = [GlobalsSet "user_code" (PyStr "fo");
            GlobalsSet "user_line" (PyInt (Z.max 1 (-2)));
            GlobalsSet "user_column" (PyInt (Z.max 0 5));
            RunPython (PyExpr expression)] ++ rest
       ∧ pyodide (handle (foo_world 1) (ReqDefinition "definition-4-4" "fo" (-2) 5)
                    (handle calm (ReqInitialize "initialize-1-1") initial)) = Some p'
       ∧ globals p' !! "user_line" = Some (PyInt (Z.max 1 (-2)))
       ∧ globals p' !! "user_column" = Some (PyInt (Z.max 0 5))
       ∧ (runPython_fault (foo_world 1) (PyExpr expression) = None →
          is_Some (bootstrap {| globals := ∅; bootstrap := Some 50%nat |}) →
          ∃ e r, rest = [e; PostMessage r]
                 ∧ jedi_cursor e = Some (Z.max 1 (-2), Z.max 0 5))).
Proof.
  split_and!.
  - apply (proj1 (cursor_clamped (foo_world 1)
                    (ReqCompletion "completion-2-2" "fo" (-3) (-7)) "fo" (-3) (-7)
                    (handle calm (ReqInitialize "initialize-1-1") initial) eq_refl)
             {| globals := ∅; bootstrap := Some 50%nat |}); reflexivity.
  - apply (proj1 (cursor_clamped (foo_world 1)
                    (ReqHover "hover-3-3" "fo" 0 (-1)) "fo" 0 (-1)
                    (handle calm (ReqInitialize "initialize-1-1") initial) eq_refl)
             {| globals := ∅; bootstrap := Some 50%nat |}); reflexivity.
  - apply (proj1 (cursor_clamped (foo_world 1)
                    (ReqDefinition "definition-4-4" "fo" (-2) 5) "fo" (-2) 5
                    (handle calm (ReqInitialize "initialize-1-1") initial) eq_refl)
             {| globals := ∅; bootstrap := Some 50%nat |}); reflexivity.
Defined.

(** * Properties of the editor component *)

Import Bridge.

(** ** Request ids *)

Lemma append_nil x : "" +:+ x = x.
Proof. reflexivity. Qed.

Lemma append_cons c a x : String c a +:+ x = String c (a +:+ x).
Proof. reflexivity. Qed.

Lemma append_assoc a b c : (a +:+ b) +:+ c = a +:+ (b +:+ c).
Proof. induction a as [|x a IH]; [done|]. rewrite !append_cons. by rewrite IH. Qed.

Lemma dash_free_append_dash a p : dash_free (a +:+ String "-" p) = false.
Proof.
  induction a as [|x a IH]; [done|]. rewrite append_cons. cbn [dash_free].
  rewrite IH. apply andb_false_r.
Qed.

(** The part after the last hyphen is determined by the whole string. *)
Lemma last_field_inj a b p q :
  dash_free p = true → dash_free q = true →
  a +:+ String "-" p = b +:+ String "-" q → p = q.
Proof.
  intros Hp Hq. revert b. induction a as [|x a IH]; intros [|y b] Heq;
    rewrite ?append_nil, ?append_cons in Heq.
  - by injection Heq.
  - injection Heq as _ ->. by rewrite dash_free_append_dash in Hp.
  - injection Heq as _ <-. by rewrite dash_free_append_dash in Hq.
  - injection Heq as _ Heq. by apply (IH b).
Qed.

Lemma dash_free_pretty_N_go x s :
  dash_free s = true → dash_free (pretty_N_go x s) = true.
Proof.
  revert s. induction (N.lt_wf_0 x) as [x _ IH]; intros s Hs.
  assert (x = 0 ∨ 0 < x)%N as [->|?] by lia.
  - by rewrite pretty_N_go_0.
  - rewrite pretty_N_go_step by done. apply IH.
    { by apply N.div_lt. }
    cbn [dash_free]. rewrite Hs. unfold pretty_N_char. by repeat case_match.
Qed.

Lemma dash_free_pretty_nat (n : nat) : dash_free (pretty n) = true.
Proof.
  unfold pretty, pretty_nat, pretty, pretty_N.
  case_decide; [done|]. by apply dash_free_pretty_N_go.
Qed.

(** Two request ids with different counters differ, whatever their type
    tags and time stamps: ids are never reused. *)
Lemma make_requestId_inj type now n type' now' n' :
  make_requestId type now n = make_requestId type' now' n' → n = n'.
Proof.
  unfold make_requestId. intros Heq.
  apply (inj pretty).
  apply (last_field_inj (type_name type +:+ "-" +:+ pretty now)
                        (type_name type' +:+ "-" +:+ pretty now'));
    [apply dash_free_pretty_nat..|].
  rewrite !append_assoc. exact Heq.
Qed.

Lemma make_requestId_truthy type now n : truthy (make_requestId type now n) = true.
Proof. by destruct type. Qed.

(** ** The table, the timers and the promises stay consistent *)

Lemma consistent_frame st st' :
  requestIdCounter st' = requestIdCounter st →
  pendingRequests st' = pendingRequests st →
  timers st' = timers st →
  settled st' = settled st →
  consistent st → consistent st'.
Proof.
  intros Hc Hp Ht Hs [H1 H2 H3 H4 H5].
  split; unfold resolved_promises in *; rewrite ?Hc, ?Hp, ?Ht, ?Hs; done.
Qed.

Lemma consistent_unmounted : consistent unmounted.
Proof.
  split; cbn; try done.
  - intros n [t Ht]. done.
  - intros n Hn. by apply elem_of_nil in Hn.
  - constructor.
Qed.

Lemma consistent_callWorker type payload now st :
  consistent st → consistent (fst (callWorker type payload now st)).
Proof.
  intros [H1 H2 H3 H4 H5]. unfold callWorker.
  destruct (workerRef st) as [worker|]; [|by split].
  split; unfold resolved_promises in *; cbn.
  - intros id n. rewrite lookup_insert. case_decide as Hid.
    + intros [= <-]. subst id. by rewrite lookup_insert_eq.
    + intros Hn. pose proof (H1 _ _ Hn) as Ht. destruct (H2 _ _ Ht) as [Hle _].
      rewrite lookup_insert_ne by lia. done.
  - intros n t. rewrite lookup_insert. case_decide as Hn.
    + intros [= <-]. subst n. cbn. split_and!; [lia|done|eauto].
    + intros Ht. destruct (H2 _ _ Ht) as (Hle & Hd & Hid). split_and!; [lia|done..].
  - intros n. rewrite lookup_insert. case_decide as Hn.
    + intros _ Hin. apply H4 in Hin. lia.
    + apply H3.
  - intros n Hin. apply H4 in Hin. lia.
  - done.
Qed.

Lemma consistent_resolver requestId n message st :
  consistent st →
  pendingRequests st !! requestId = Some n →
  consistent (resolver n message (pending_delete requestId st)).
Proof.
  intros [H1 H2 H3 H4 H5] Hn. pose proof (H1 _ _ Hn) as Ht.
  split; unfold resolved_promises in *; cbn.
  - intros id' n'. rewrite lookup_delete. case_decide as Hid; [done|].
    intros Hn'. pose proof (H1 _ _ Hn') as Ht'.
    rewrite lookup_delete_ne; [done|]. intros <-. congruence.
  - intros n' t. rewrite lookup_delete. case_decide; [done|]. apply H2.
  - intros n'. rewrite lookup_delete. case_decide as Hn'; [by intros []|].
    intros Hs Hin. apply elem_of_cons in Hin as [?|Hin]; [done|]. by apply (H3 n').
  - intros n' Hin. apply elem_of_cons in Hin as [->|Hin]; [|by apply H4].
    by destruct (H2 _ _ Ht).
  - constructor; [|done]. apply H3. by rewrite Ht.
Qed.

Lemma consistent_onmessage message st :
  consistent st → consistent (worker_onmessage message st).
Proof.
  intros Hst. unfold worker_onmessage.
  set (st1 := if truthy (response_id message) then _ else _).
  assert (consistent st1) as Hst1.
  { subst st1. destruct (truthy _); [|done].
    destruct (pendingRequests st !! _) as [n|] eqn:Hn; [|done].
    by apply consistent_resolver. }
  destruct message; try done. by apply (consistent_frame st1).
Qed.

Lemma consistent_timer n st : consistent st → consistent (timer_fires n st).
Proof.
  intros Hst. pose proof Hst as [H1 H2 H3 H4 H5]. unfold timer_fires.
  destruct (timers st !! n) as [t|] eqn:Ht; [|done]. cbn.
  case_decide as Hhas.
  - split; unfold resolved_promises in *; cbn.
    + intros id' n'. rewrite lookup_delete. case_decide as Hid; [done|].
      intros Hn'. pose proof (H1 _ _ Hn') as Ht'.
      rewrite lookup_delete_ne; [done|]. intros <-.
      rewrite Ht in Ht'. by injection Ht' as ->.
    + intros n' t'. rewrite lookup_delete. case_decide; [done|]. apply H2.
    + intros n'. rewrite lookup_delete. case_decide as Hn'; [by intros []|].
      intros Hs Hin. apply elem_of_cons in Hin as [?|Hin]; [done|]. by apply (H3 n').
    + intros n' Hin. apply elem_of_cons in Hin as [->|Hin]; [|by apply H4].
      by destruct (H2 _ _ Ht).
    + constructor; [|done]. apply H3. by rewrite Ht.
  - split; unfold resolved_promises in *; cbn.
    + intros id' n' Hn'. pose proof (H1 _ _ Hn') as Ht'.
      rewrite lookup_delete_ne; [done|]. intros <-.
      rewrite Ht in Ht'. injection Ht' as ->. apply Hhas. cbn. by rewrite Hn'.
    + intros n' t'. rewrite lookup_delete. case_decide; [done|]. apply H2.
    + intros n'. rewrite lookup_delete. case_decide as Hn'; [by intros []|]. apply H3.
    + done.
    + done.
Qed.

Lemma consistent_cleanup st : consistent st → consistent (worker_cleanup st).
Proof.
  intros [H1 H2 H3 H4 H5]. split; unfold resolved_promises in *; cbn; done.
Qed.

Lemma consistent_step e st : consistent st → consistent (step e st).
Proof.
  intros Hst. destruct e as [language now| | |type payload now
    |value position wordStart now|value position now|value now|message|n]; cbn.
  - unfold worker_effect. case_decide; [|done].
    apply consistent_callWorker. by apply (consistent_frame st).
  - by apply consistent_cleanup.
  - by apply (consistent_frame st).
  - by apply consistent_callWorker.
  - unfold provideCompletionItems. destruct (negb _); [done|].
    pose proof (consistent_callWorker completion
      {| pl_code := Some value; pl_line := Some (lineNumber position);
         pl_column := Some (column position - 1) |} now st Hst) as H.
    by destruct (callWorker _ _ _ _) as [st' []].
  - unfold provideHover. destruct (negb _); [done|].
    pose proof (consistent_callWorker hover
      {| pl_code := Some value; pl_line := Some (lineNumber position);
         pl_column := Some (column position - 1) |} now st Hst) as H.
    by destruct (callWorker _ _ _ _) as [st' []].
  - unfold handleEditorChange. destruct value as [code|]; [|done].
    destruct (_ && _); [|done].
    pose proof (consistent_callWorker analyze
      {| pl_code := Some code; pl_line := None; pl_column := None |} now st Hst) as H.
    by destruct (callWorker _ _ _ _) as [st' []].
  - by apply consistent_onmessage.
  - by apply consistent_timer.
Qed.

Lemma consistent_run events st : consistent st → consistent (run_events events st).
Proof.
  revert st. induction events as [|e events IH]; intros st Hst; [done|].
  cbn. by apply IH, consistent_step.
Qed.

(** ** Steps, by what they do to the table *)

Lemma core_eq st st' :
  core st' = core st →
  requestIdCounter st' = requestIdCounter st ∧
  pendingRequests st' = pendingRequests st ∧
  timers st' = timers st ∧ settled st' = settled st.
Proof. unfold core. by intros [= -> -> -> ->]. Qed.

Lemma callWorker_detached type payload now st :
  workerRef st = None → callWorker type payload now st = (st, Resolved None).
Proof. unfold callWorker. by intros ->. Qed.

Lemma callWorker_attached type payload now st worker :
  workerRef st = Some worker →
  callWorker type payload now st =
    ({| workerRef := workerRef st; spawned := spawned st;
        isWorkerReady := isWorkerReady st; workerReadyRef := workerReadyRef st;
        requestIdCounter := S (requestIdCounter st);
        pendingRequests :=
          <[next_requestId type now st := S (requestIdCounter st)]> (pendingRequests st);
        timers :=
          <[S (requestIdCounter st) :=
              {| timer_requestId := next_requestId type now st;
                 timer_delay := TIMEOUT_MS |}]> (timers st);
        settled := settled st;
        outbox := outbox st ++
                  [(worker, {| msg_type := type; msg_data := payload;
                               msg_requestId := next_requestId type now st |})] |},
     Awaiting (S (requestIdCounter st))).
Proof. unfold callWorker. by intros ->. Qed.

(** A call changes the table, the timers and the counter only. *)
Lemma callWorker_core type payload now st :
  core (fst (callWorker type payload now st)) = core st
  ∨ core (fst (callWorker type payload now st)) =
      (S (requestIdCounter st),
       <[next_requestId type now st := S (requestIdCounter st)]> (pendingRequests st),
       <[S (requestIdCounter st) :=
           {| timer_requestId := next_requestId type now st;
              timer_delay := TIMEOUT_MS |}]> (timers st),
       settled st).
Proof.
  destruct (workerRef st) as [worker|] eqn:Hw.
  - right. by rewrite (callWorker_attached _ _ _ _ worker).
  - left. by rewrite callWorker_detached.
Qed.

(** Every step other than a cleanup, a message and a timer is a call, or
    leaves the table, the timers and the promises as they are. *)
Lemma step_is_call e st :
  match e with
  | CleanupRuns | MessageArrives _ | TimerFires _ => True
  | _ =>
      core (step e st) = core st
      ∨ ∃ type now,
          core (step e st) =
            (S (requestIdCounter st),
             <[next_requestId type now st := S (requestIdCounter st)]>
               (pendingRequests st),
             <[S (requestIdCounter st) :=
                 {| timer_requestId := next_requestId type now st;
                    timer_delay := TIMEOUT_MS |}]> (timers st),
             settled st)
  end.
Proof.
  destruct e as [language now| | |type payload now
    |value position wordStart now|value position now|value now|message|n];
    cbn; try done.
  - unfold worker_effect. case_decide; [|by left].
    match goal with |- context [callWorker ?t ?p ?n ?s] =>
      destruct (callWorker_core t p n s) as [->| ->] end; [by left|right].
    by exists initialize, now.
  - by left.
  - destruct (callWorker_core type payload now st) as [->| ->]; eauto.
  - unfold provideCompletionItems. destruct (negb _); [by left|].
    match goal with |- context [callWorker ?t ?p ?n ?s] =>
      pose proof (callWorker_core t p n s) as H;
      destruct (callWorker t p n s) as [st' []] end;
      cbn in *; destruct H as [->| ->]; eauto.
  - unfold provideHover. destruct (negb _); [by left|].
    match goal with |- context [callWorker ?t ?p ?n ?s] =>
      pose proof (callWorker_core t p n s) as H;
      destruct (callWorker t p n s) as [st' []] end;
      cbn in *; destruct H as [->| ->]; eauto.
  - unfold handleEditorChange. destruct value as [code|]; [|by left].
    destruct (_ && _); [|by left].
    match goal with |- context [callWorker ?t ?p ?n ?s] =>
      pose proof (callWorker_core t p n s) as H;
      destruct (callWorker t p n s) as [st' []] end;
      cbn in *; destruct H as [->| ->]; eauto.
Qed.

Lemma onmessage_core message st :
  core (worker_onmessage message st) = core st
  ∨ ∃ n,
      pendingRequests st !! response_id message = Some n
      ∧ truthy (response_id message) = true
      ∧ core (worker_onmessage message st) =
          (requestIdCounter st,
           delete (response_id message) (pendingRequests st),
           delete n (timers st),
           (n, Some message) :: settled st).
Proof.
  unfold worker_onmessage.
  destruct (truthy (response_id message)) eqn:Htr;
    [|left; by destruct message].
  destruct (pendingRequests st !! response_id message) as [n|] eqn:Hn;
    [|left; by destruct message].
  right. exists n. split_and!; [done..|]. by destruct message.
Qed.

Lemma timer_core n st :
  core (timer_fires n st) = core st
  ∨ ∃ t,
      timers st !! n = Some t
      ∧ ((is_Some (pendingRequests st !! timer_requestId t)
          ∧ core (timer_fires n st) =
              (requestIdCounter st,
               delete (timer_requestId t) (pendingRequests st),
               delete n (timers st),
               (n, None) :: settled st))
         ∨ (pendingRequests st !! timer_requestId t = None
            ∧ core (timer_fires n st) =
                (requestIdCounter st, pendingRequests st,
                 delete n (timers st), settled st))).
Proof.
  unfold timer_fires. destruct (timers st !! n) as [t|] eqn:Ht; [|by left].
  right. exists t. split; [done|]. cbn. case_decide as Hhas.
  - by left.
  - right. split; [|done]. by apply eq_None_not_Some.
Qed.

(** Reads an equation between cores as equations between the parts. *)
Ltac core_inj H := unfold core in H; try (injection H; clear H; intros).

Lemma counter_grows e st :
  (requestIdCounter st ≤ requestIdCounter (step e st))%nat.
Proof.
  pose proof (step_is_call e st) as Hcall.
  destruct e as [? ?| | |? ? ?|? ? ? ?|? ? ?|? ?|m|n]; cbn [step] in *;
    try (destruct Hcall as [Hc|(type' & now' & Hc)]; core_inj Hc;
         first [lia | cbn in *; lia]).
  - cbn. lia.
  - destruct (onmessage_core m st) as [Hc|(k & _ & _ & Hc)];
      core_inj Hc; lia.
  - destruct (timer_core n st) as [Hc|(t & _ & [[_ Hc]|[_ Hc]])];
      core_inj Hc; lia.
Qed.

Lemma core_is st c p t s :
  core st = (c, p, t, s) →
  requestIdCounter st = c ∧ pendingRequests st = p ∧ timers st = t ∧ settled st = s.
Proof. unfold core. by intros [= -> -> -> ->]. Qed.

(** ** A request through time *)

(** An id that is out of the table stays out: later calls use new ids. *)
Lemma absent_step type now n e st :
  (n ≤ requestIdCounter st)%nat →
  pendingRequests st !! make_requestId type now n = None →
  pendingRequests (step e st) !! make_requestId type now n = None.
Proof.
  intros Hn Hid. pose proof (step_is_call e st) as Hcall.
  destruct e as [? ?| | |? ? ?|? ? ? ?|? ? ?|? ?|m|k]; cbn [step] in *;
    try (destruct Hcall as [Hc|(type' & now' & Hc)];
         [apply core_eq in Hc as (_ & -> & _); done
         |apply core_is in Hc as (_ & -> & _);
          rewrite lookup_insert_ne; [done|];
          intros Heq%make_requestId_inj; lia]).
  - done.
  - destruct (onmessage_core m st) as [Hc|(k & _ & _ & Hc)].
    + apply core_eq in Hc as (_ & -> & _); done.
    + apply core_is in Hc as (_ & -> & _). by apply lookup_delete_None; right.
  - destruct (timer_core k st) as [Hc|(t & _ & [[_ Hc]|[_ Hc]])].
    + apply core_eq in Hc as (_ & -> & _); done.
    + apply core_is in Hc as (_ & -> & _). by apply lookup_delete_None; right.
    + apply core_is in Hc as (_ & -> & _). done.
Qed.

Lemma absent_stays type now n events st :
  (n ≤ requestIdCounter st)%nat →
  pendingRequests st !! make_requestId type now n = None →
  pendingRequests (run_events events st) !! make_requestId type now n = None.
Proof.
  revert st. induction events as [|e events IH]; intros st Hn Hid; [done|].
  cbn. apply IH; [|by apply absent_step].
  pose proof (counter_grows e st). lia.
Qed.

(** A timer that is not armed stays so: later calls arm new timers. *)
Lemma disarmed_step n e st :
  (n ≤ requestIdCounter st)%nat →
  timers st !! n = None → timers (step e st) !! n = None.
Proof.
  intros Hn Ht. pose proof (step_is_call e st) as Hcall.
  destruct e as [? ?| | |? ? ?|? ? ? ?|? ? ?|? ?|m|k]; cbn [step] in *;
    try (destruct Hcall as [Hc|(type' & now' & Hc)];
         [apply core_eq in Hc as (_ & _ & -> & _); done
         |apply core_is in Hc as (_ & _ & -> & _);
          rewrite lookup_insert_ne; [done|lia]]).
  - done.
  - destruct (onmessage_core m st) as [Hc|(k & _ & _ & Hc)].
    + apply core_eq in Hc as (_ & _ & -> & _); done.
    + apply core_is in Hc as (_ & _ & -> & _). by apply lookup_delete_None; right.
  - destruct (timer_core k st) as [Hc|(t & _ & [[_ Hc]|[_ Hc]])].
    + apply core_eq in Hc as (_ & _ & -> & _); done.
    + apply core_is in Hc as (_ & _ & -> & _). by apply lookup_delete_None; right.
    + apply core_is in Hc as (_ & _ & -> & _). by apply lookup_delete_None; right.
Qed.

Lemma disarmed_stays n events st :
  (n ≤ requestIdCounter st)%nat →
  timers st !! n = None → timers (run_events events st) !! n = None.
Proof.
  revert st. induction events as [|e events IH]; intros st Hn Ht; [done|].
  cbn. apply IH; [|by apply disarmed_step].
  pose proof (counter_grows e st). lia.
Qed.

(** A pending request stays in the table as long as no cleanup runs, no
    message for it arrives and its timer does not fire. *)
Lemma pending_step requestId n e st :
  consistent st →
  pendingRequests st !! requestId = Some n →
  leaves_alone requestId n e = true →
  pendingRequests (step e st) !! requestId = Some n.
Proof.
  intros Hst Hid Halone. pose proof (step_is_call e st) as Hcall.
  pose proof (pending_armed st Hst _ _ Hid) as Ht.
  destruct (timer_named st Hst _ _ Ht) as (Hn & _ & type & now & Hname).
  cbn in Hname.
  destruct e as [? ?| | |? ? ?|? ? ? ?|? ? ?|? ?|m|k]; cbn [step] in *;
    try (destruct Hcall as [Hc|(type' & now' & Hc)];
         [apply core_eq in Hc as (_ & -> & _); done
         |apply core_is in Hc as (_ & -> & _);
          rewrite lookup_insert_ne; [done|];
          rewrite Hname; intros Heq%make_requestId_inj; lia]).
  - done.
  - cbn in Halone. apply negb_true_iff, String.eqb_neq in Halone.
    destruct (onmessage_core m st) as [Hc|(k & _ & _ & Hc)].
    + apply core_eq in Hc as (_ & -> & _); done.
    + apply core_is in Hc as (_ & -> & _). by rewrite lookup_delete_ne.
  - cbn in Halone. apply negb_true_iff, Nat.eqb_neq in Halone.
    destruct (timer_core k st) as [Hc|(t & Hk & [[_ Hc]|[_ Hc]])].
    + apply core_eq in Hc as (_ & -> & _); done.
    + apply core_is in Hc as (_ & -> & _).
      rewrite lookup_delete_ne; [done|].
      destruct (timer_named st Hst _ _ Hk) as (_ & _ & type' & now' & ->).
      rewrite Hname. intros Heq%make_requestId_inj. done.
    + apply core_is in Hc as (_ & -> & _). done.
Qed.

Lemma pending_stays requestId n events st :
  consistent st →
  pendingRequests st !! requestId = Some n →
  forallb (leaves_alone requestId n) events = true →
  pendingRequests (run_events events st) !! requestId = Some n.
Proof.
  revert st. induction events as [|e events IH]; intros st Hst Hid Hev; [done|].
  cbn in *. apply andb_true_iff in Hev as [He Hev].
  apply IH; [by apply consistent_step|by apply pending_step|done].
Qed.

(** A promise whose request is out of the table, and whose timer (if it
    is still armed) is the one of that request, is not resolved by any
    step. *)
Lemma unresolved_step requestId n e st :
  consistent st →
  (n ≤ requestIdCounter st)%nat →
  pendingRequests st !! requestId = None →
  (∀ t, timers st !! n = Some t → timer_requestId t = requestId) →
  n ∉ resolved_promises st →
  (n ∉ resolved_promises (step e st))
  ∧ (∀ t, timers (step e st) !! n = Some t → timer_requestId t = requestId).
Proof.
  intros Hst Hle Hid Ht Hn. pose proof (step_is_call e st) as Hcall.
  unfold resolved_promises in *.
  destruct e as [? ?| | |? ? ?|? ? ? ?|? ? ?|? ?|m|k]; cbn [step] in *;
    try (destruct Hcall as [Hc|(type' & now' & Hc)];
         [apply core_eq in Hc as (_ & _ & -> & ->); done
         |apply core_is in Hc as (_ & _ & -> & ->); split; [done|];
          intros t; rewrite lookup_insert_ne by lia; apply Ht]).
  - done.
  - destruct (onmessage_core m st) as [Hc|(k & Hk & _ & Hc)].
    + apply core_eq in Hc as (_ & _ & -> & ->); done.
    + apply core_is in Hc as (_ & _ & -> & ->). split.
      * cbn. intros [->|Hin]%elem_of_cons; [|done].
        pose proof (pending_armed st Hst _ _ Hk) as Hk'.
        apply Ht in Hk'. cbn in Hk'. congruence.
      * intros t [_ Hnt]%lookup_delete_Some. by apply Ht.
  - destruct (timer_core k st) as [Hc|(t & Hk & [[Hhas Hc]|[_ Hc]])].
    + apply core_eq in Hc as (_ & _ & -> & ->); done.
    + apply core_is in Hc as (_ & _ & -> & ->). split.
      * cbn. intros [->|Hin]%elem_of_cons; [|done].
        rewrite (Ht _ Hk), Hid in Hhas. by destruct Hhas.
      * intros t' [_ Hnt]%lookup_delete_Some. by apply Ht.
    + apply core_is in Hc as (_ & _ & -> & ->). split; [done|].
      intros t' [_ Hnt]%lookup_delete_Some. by apply Ht.
Qed.

(** Such a promise is never resolved. *)
Lemma never_resolved type now n events st :
  consistent st →
  (n ≤ requestIdCounter st)%nat →
  pendingRequests st !! make_requestId type now n = None →
  (∀ t, timers st !! n = Some t → timer_requestId t = make_requestId type now n) →
  n ∉ resolved_promises st →
  n ∉ resolved_promises (run_events events st).
Proof.
  revert st. induction events as [|e events IH]; intros st Hst Hle Hid Ht Hn; [done|].
  cbn. destruct (unresolved_step _ n e st Hst Hle Hid Ht Hn) as [Hn' Ht'].
  apply IH; [by apply consistent_step| |by apply absent_step|done..].
  pose proof (counter_grows e st). lia.
Qed.

(** ** Responses and timeouts *)

Lemma onmessage_absent message st :
  pendingRequests st !! response_id message = None →
  settled (worker_onmessage message st) = settled st.
Proof.
  intros Hid. destruct (onmessage_core message st) as [Hc|(n & Hn & _)].
  - by apply core_eq in Hc as (_ & _ & _ & ->).
  - congruence.
Qed.

Lemma onmessage_pending message n st :
  truthy (response_id message) = true →
  pendingRequests st !! response_id message = Some n →
  settled (worker_onmessage message st) = (n, Some message) :: settled st
  ∧ pendingRequests (worker_onmessage message st) !! response_id message = None
  ∧ timers (worker_onmessage message st) !! n = None.
Proof.
  intros Htr Hn. unfold worker_onmessage. rewrite Htr, Hn.
  destruct message; cbn; by rewrite !lookup_delete_eq.
Qed.

(** After a message, its id is out of the table, whether it had been in
    it or not. *)
Lemma onmessage_removes message st :
  truthy (response_id message) = true →
  pendingRequests (worker_onmessage message st) !! response_id message = None.
Proof.
  intros Htr. destruct (pendingRequests st !! response_id message) as [n|] eqn:Hn.
  - by apply (onmessage_pending message n).
  - destruct (onmessage_core message st) as [Hc|(n & Hn' & _)]; [|congruence].
    by apply core_eq in Hc as (_ & -> & _).
Qed.

(** A second message under the same id resolves nothing. *)
Lemma second_response_ignored message message' st :
  response_id message' = response_id message →
  settled (worker_onmessage message' (worker_onmessage message st))
    = settled (worker_onmessage message st).
Proof.
  intros Hid. destruct (truthy (response_id message)) eqn:Htr.
  - apply onmessage_absent. rewrite Hid. by apply onmessage_removes.
  - unfold worker_onmessage at 1. rewrite Hid, Htr. by destruct message'.
Qed.

Lemma timer_fires_pending n t st :
  timers st !! n = Some t →
  is_Some (pendingRequests st !! timer_requestId t) →
  settled (timer_fires n st) = (n, None) :: settled st
  ∧ pendingRequests (timer_fires n st) !! timer_requestId t = None
  ∧ timers (timer_fires n st) !! n = None.
Proof.
  intros Ht Hhas. unfold timer_fires. rewrite Ht. cbn.
  rewrite decide_True by done. cbn. by rewrite !lookup_delete_eq.
Qed.

Lemma timer_fires_disarmed n st :
  timers st !! n = None → timer_fires n st = st.
Proof. unfold timer_fires. by intros ->. Qed.

Lemma counter_grows_run events st :
  (requestIdCounter st ≤ requestIdCounter (run_events events st))%nat.
Proof.
  revert st. induction events as [|e events IH]; intros st; [done|].
  cbn. pose proof (counter_grows e st). pose proof (IH (step e st)). lia.
Qed.

(** A call on an attached worker, seen from the states the component
    reaches: the request is in the table under its id, and stays there,
    with its timer armed, while it is left alone. *)
Lemma call_in_flight events worker type payload now later :
  workerRef (run_events events unmounted) = Some worker →
  forallb (leaves_alone (next_requestId type now (run_events events unmounted))
             (S (requestIdCounter (run_events events unmounted)))) later = true →
  consistent (run_events later
                (fst (callWorker type payload now (run_events events unmounted))))
  ∧ pendingRequests
      (run_events later
         (fst (callWorker type payload now (run_events events unmounted))))
      !! next_requestId type now (run_events events unmounted)
    = Some (S (requestIdCounter (run_events events unmounted)))
  ∧ timers
      (run_events later
         (fst (callWorker type payload now (run_events events unmounted))))
      !! S (requestIdCounter (run_events events unmounted))
    = Some {| timer_requestId := next_requestId type now (run_events events unmounted);
              timer_delay := TIMEOUT_MS |}.
Proof.
  intros Hw Hlater.
  pose proof (consistent_run events unmounted consistent_unmounted) as Hst0.
  set (st0 := run_events events unmounted) in *.
  pose proof (consistent_callWorker type payload now st0 Hst0) as Hst1.
  assert (pendingRequests (fst (callWorker type payload now st0))
            !! next_requestId type now st0 = Some (S (requestIdCounter st0))) as Hid.
  { rewrite (callWorker_attached _ _ _ _ worker) by done. cbn.
    by rewrite lookup_insert_eq. }
  pose proof (consistent_run later _ Hst1) as Hst2.
  pose proof (pending_stays _ _ later _ Hst1 Hid Hlater) as Hid2.
  split_and!; [done..|]. by apply (pending_armed _ Hst2).
Qed.

(** C1: a request sent through [callWorker] goes out under a fresh id and
    is filed in the table under that id.  The worker answers a request of a
    known kind with exactly one response, which carries the id of the
    request.  When that response arrives while the request is still in the
    table, the entry is deleted and promise [n] is resolved with the
    response; a second response under the same id resolves nothing, in any
    state; and in no run of the component is a promise resolved twice. *)
Theorem response_correlated events worker type payload now st0 n requestId w ws req :
  st0 = run_events events unmounted →
  workerRef st0 = Some worker →
  n = S (requestIdCounter st0) →
  requestId = make_requestId type now n →
  request_id req = requestId →
  known_kind req = true →
  ∃ r,
    snd (callWorker type payload now st0) = Awaiting n
    ∧ last (outbox (fst (callWorker type payload now st0)))
      = Some (worker, {| msg_type := type; msg_data := payload;
                         msg_requestId := requestId |})
    ∧ posted (effects_of w req ws) = [r]
    ∧ response_id r = requestId
    ∧ (∀ later,
         forallb (leaves_alone requestId n) later = true →
         settled (worker_onmessage r
                    (run_events later (fst (callWorker type payload now st0))))
           = (n, Some r)
               :: settled (run_events later (fst (callWorker type payload now st0)))
         ∧ pendingRequests
             (worker_onmessage r
                (run_events later (fst (callWorker type payload now st0))))
             !! requestId = None)
    ∧ (∀ st r',
         response_id r' = response_id r →
         settled (worker_onmessage r' (worker_onmessage r st))
           = settled (worker_onmessage r st))
    ∧ (∀ events', NoDup (resolved_promises (run_events events' unmounted))).
Proof.
  intros -> Hw -> -> Hreq Hk.
  destruct (handle_answers w req ws Hk) as (es & r & Ht & Hes & Hr).
  rewrite Hreq in Hr. exists r.
  split_and!.
  - by rewrite (callWorker_attached _ _ _ _ worker).
  - rewrite (callWorker_attached _ _ _ _ worker) by done. cbn. by rewrite last_snoc.
  - by rewrite (effects_of_eq _ _ _ _ Ht), posted_app, Hes.
  - done.
  - intros later Hlater.
    destruct (call_in_flight events worker type payload now later Hw Hlater)
      as (_ & Hid & _).
    unfold next_requestId in Hid.
    set (st := run_events later _) in *. rewrite <- Hr in Hid |- *.
    apply onmessage_pending in Hid as (? & ? & _); [done|].
    rewrite Hr. apply make_requestId_truthy.
  - intros st r' Hid. by apply second_response_ignored.
  - intros events'.
    apply resolved_once, consistent_run, consistent_unmounted.
Qed.

Lemma response_correlated_witness :
  ∃ r,
    snd (callWorker hover
           {| pl_code := Some "x = 1"; pl_line := Some 3; pl_column := Some 4 |}
           2000 (run_events getting_ready unmounted)) = Awaiting 2
    ∧ last (outbox (fst (callWorker hover
           {| pl_code := Some "x = 1"; pl_line := Some 3; pl_column := Some 4 |}
           2000 (run_events getting_ready unmounted))))
      = Some (1%nat,
              {| msg_type := hover;
                 msg_data := {| pl_code := Some "x = 1"; pl_line := Some 3;
                                pl_column := Some 4 |};
                 msg_requestId := "hover-2000-2" |})
    ∧ posted (effects_of (foo_world 1) (ReqHover "hover-2000-2" "x = 1" 3 4)
                (handle (foo_world 1) (ReqInitialize "initialize-1000-1") initial))
      = [r]
    ∧ response_id r = "hover-2000-2"
    ∧ (∀ later,
         forallb (leaves_alone "hover-2000-2" 2) later = true →
         settled (worker_onmessage r
                    (run_events later (fst (callWorker hover
                       {| pl_code := Some "x = 1"; pl_line := Some 3;
                          pl_column := Some 4 |}
                       2000 (run_events getting_ready unmounted)))))
           = (2%nat, Some r)
               :: settled (run_events later (fst (callWorker hover
                    {| pl_code := Some "x = 1"; pl_line := Some 3;
                       pl_column := Some 4 |}
                    2000 (run_events getting_ready unmounted))))
         ∧ pendingRequests
             (worker_onmessage r
                (run_events later (fst (callWorker hover
                   {| pl_code := Some "x = 1"; pl_line := Some 3;
                      pl_column := Some 4 |}
                   2000 (run_events getting_ready unmounted)))))
             !! "hover-2000-2" = None)
    ∧ (∀ st r',
         response_id r' = response_id r →
         settled (worker_onmessage r' (worker_onmessage r st))
           = settled (worker_onmessage r st))
    ∧ (∀ events', NoDup (resolved_promises (run_events events' unmounted))).
Proof.
  apply (response_correlated getting_ready 1 hover
           {| pl_code := Some "x = 1"; pl_line := Some 3; pl_column := Some 4 |}
           2000 (run_events getting_ready unmounted) 2 "hover-2000-2"
           (foo_world 1)
           (handle (foo_world 1) (ReqInitialize "initialize-1000-1") initial)
           (ReqHover "hover-2000-2" "x = 1" 3 4));
    by vm_compute.
Defined.

(** C2 as stated fails.  The user hovers (call 2), the editor switches
    language before an answer comes, and the cleanup clears the table.  When the 5000 ms timer of call 2 fires, no response has
    arrived, but its callback finds no entry and calls no [resolve]:
    promise 2 is not resolved to [null]. *)
Lemma timeout_after_cleanup_resolves_nothing :
  snd (provideHover "x = 1" cursor 2000 (run_events getting_ready unmounted))
    = Awaiting 2
  ∧ pendingRequests (run_events hovering unmounted) !! "hover-2000-2" = Some 2%nat
  ∧ timers (run_events (hovering ++ [CleanupRuns]) unmounted) !! 2%nat
    = Some {| timer_requestId := "hover-2000-2"; timer_delay := 5000 |}
  ∧ resolved_promises (run_events hovering unmounted) = [1%nat]
  ∧ resolved_promises
      (run_events (hovering ++ [CleanupRuns; TimerFires 2]) unmounted) = [1%nat].
Proof. by vm_compute. Qed.

(** C2, amended: take a call made while a worker is attached, and suppose
    that since then no cleanup has run, no message for its id has arrived
    and its timer has not fired.  Then the request is in the table and its
    timer is armed with 5000 ms.  If the timer fires now, the promise is
    resolved with [null] and the entry is removed, and a response for this
    id that arrives at any later time resolves nothing.  If instead a
    response arrives now, it resolves the promise, the entry is removed
    and the timer is cleared, so that it never fires: the entry is removed
    by the response or by the timeout, never by both.  Without a worker,
    [callWorker] returns [null] at once and changes nothing. *)
Theorem timeout_or_response events worker type payload now later st0 n requestId st :
  st0 = run_events events unmounted →
  workerRef st0 = Some worker →
  n = S (requestIdCounter st0) →
  requestId = make_requestId type now n →
  forallb (leaves_alone requestId n) later = true →
  st = run_events later (fst (callWorker type payload now st0)) →
  (pendingRequests st !! requestId = Some n
   ∧ timers st !! n = Some {| timer_requestId := requestId; timer_delay := 5000 |})
  ∧ (settled (timer_fires n st) = (n, None) :: settled st
     ∧ pendingRequests (timer_fires n st) !! requestId = None)
  ∧ (∀ after message,
       response_id message = requestId →
       settled (worker_onmessage message (run_events after (timer_fires n st)))
         = settled (run_events after (timer_fires n st)))
  ∧ (∀ message,
       response_id message = requestId →
       settled (worker_onmessage message st) = (n, Some message) :: settled st
       ∧ pendingRequests (worker_onmessage message st) !! requestId = None
       ∧ ∀ after,
           timer_fires n (run_events after (worker_onmessage message st))
             = run_events after (worker_onmessage message st))
  ∧ (∀ st' type' payload' now',
       workerRef st' = None →
       callWorker type' payload' now' st' = (st', Resolved None)).
Proof.
  intros -> Hw -> -> Hlater ->.
  destruct (call_in_flight events worker type payload now later Hw Hlater)
    as (Hst & Hid & Ht).
  unfold next_requestId in *.
  set (st := run_events later _) in *.
  set (n := S (requestIdCounter (run_events events unmounted))) in *.
  set (requestId := make_requestId type now n) in *.
  destruct (timer_named st Hst _ _ Ht) as (Hn & _).
  destruct (timer_fires_pending n _ st Ht) as (Hfired & Hgone & Hoff);
    [cbn; by rewrite Hid|]. cbn in Hgone.
  assert (requestIdCounter st = requestIdCounter (timer_fires n st)) as Hcount.
  { destruct (timer_core n st) as [Hc|(t & _ & [[_ Hc]|[_ Hc]])];
      [apply core_eq in Hc as (-> & _)|apply core_is in Hc as (-> & _)..]; done. }
  split_and!; try done.
  - intros after message Hm. apply onmessage_absent. rewrite Hm.
    apply absent_stays; [lia|done].
  - intros message Hm. rewrite <- Hm in Hid.
    destruct (onmessage_pending message n st) as (Hset & Hdel & Hclear);
      [rewrite Hm; apply make_requestId_truthy|done|].
    rewrite Hm in Hdel. split_and!; [done..|].
    intros after. apply timer_fires_disarmed, disarmed_stays; [|done].
    destruct (onmessage_core message st) as [Hc|(k & _ & _ & Hc)];
      [apply core_eq in Hc as (-> & _)|apply core_is in Hc as (-> & _)]; done.
  - intros st' type' payload' now'. apply callWorker_detached.
Qed.

Lemma timeout_or_response_witness :
  (pendingRequests
     (run_events [EditorChanged (Some "x = 12") 3000] (run_events hovering unmounted))
     !! "hover-2000-2" = Some 2%nat
   ∧ timers
       (run_events [EditorChanged (Some "x = 12") 3000] (run_events hovering unmounted))
       !! 2%nat
     = Some {| timer_requestId := "hover-2000-2"; timer_delay := 5000 |})
  ∧ (settled (timer_fires 2
        (run_events [EditorChanged (Some "x = 12") 3000]
           (run_events hovering unmounted)))
     = (2%nat, None)
         :: settled (run_events [EditorChanged (Some "x = 12") 3000]
                       (run_events hovering unmounted))
     ∧ pendingRequests
         (timer_fires 2
            (run_events [EditorChanged (Some "x = 12") 3000]
               (run_events hovering unmounted)))
         !! "hover-2000-2" = None)
  ∧ (∀ after message,
       response_id message = "hover-2000-2" →
       settled (worker_onmessage message
                  (run_events after
                     (timer_fires 2
                        (run_events [EditorChanged (Some "x = 12") 3000]
                           (run_events hovering unmounted)))))
         = settled (run_events after
                      (timer_fires 2
                         (run_events [EditorChanged (Some "x = 12") 3000]
                            (run_events hovering unmounted)))))
  ∧ (∀ message,
       response_id message = "hover-2000-2" →
       settled (worker_onmessage message
                  (run_events [EditorChanged (Some "x = 12") 3000]
                     (run_events hovering unmounted)))
         = (2%nat, Some message)
             :: settled (run_events [EditorChanged (Some "x = 12") 3000]
                           (run_events hovering unmounted))
       ∧ pendingRequests
           (worker_onmessage message
              (run_events [EditorChanged (Some "x = 12") 3000]
                 (run_events hovering unmounted)))
           !! "hover-2000-2" = None
       ∧ ∀ after,
           timer_fires 2
             (run_events after
                (worker_onmessage message
                   (run_events [EditorChanged (Some "x = 12") 3000]
                      (run_events hovering unmounted))))
             = run_events after
                 (worker_onmessage message
                    (run_events [EditorChanged (Some "x = 12") 3000]
                       (run_events hovering unmounted))))
  ∧ (∀ st' type' payload' now',
       workerRef st' = None →
       callWorker type' payload' now' st' = (st', Resolved None)).
Proof.
  apply (timeout_or_response getting_ready 1 hover
           {| pl_code := Some "x = 1"; pl_line := Some 3; pl_column := Some 4 |}
           2000 [EditorChanged (Some "x = 12") 3000]
           (run_events getting_ready unmounted) 2 "hover-2000-2");
    by vm_compute.
Defined.

(** ** Teardown *)

(** C3, as the code behaves: take any request that is in the table, in
    flight, when the cleanup of the worker effect runs.  Its promise has not
    been resolved.  The cleanup empties the table, but it calls no resolver,
    and nothing that happens afterwards resolves the promise: not its timer,
    whose callback finds no entry, and not a late response.  So of N
    requests in flight at a teardown, none is ever resolved. *)
Theorem cleanup_abandons_promise events requestId n :
  pendingRequests (run_events events unmounted) !! requestId = Some n →
  (n ∉ resolved_promises (run_events events unmounted))
  ∧ pendingRequests (worker_cleanup (run_events events unmounted)) = ∅
  ∧ resolved_promises (worker_cleanup (run_events events unmounted))
    = resolved_promises (run_events events unmounted)
  ∧ (∀ after,
       n ∉ resolved_promises
             (run_events after (worker_cleanup (run_events events unmounted)))).
Proof.
  intros Hid.
  pose proof (consistent_run events unmounted consistent_unmounted) as Hst.
  set (st := run_events events unmounted) in *.
  pose proof (pending_armed st Hst _ _ Hid) as Ht.
  destruct (timer_named st Hst _ _ Ht) as (Hn & _ & type & now & Hname).
  cbn in Hname.
  assert (n ∉ resolved_promises st) as Hnew.
  { apply (timer_unresolved st Hst). by rewrite Ht. }
  split_and!; try done.
  intros after. apply (never_resolved type now).
  - by apply consistent_cleanup.
  - done.
  - done.
  - cbn. intros t Ht'. rewrite Ht in Ht'. injection Ht' as <-. by cbn.
  - done.
Qed.

Lemma cleanup_abandons_promise_witness :
  (2%nat ∉ resolved_promises (run_events hovering unmounted))
  ∧ pendingRequests (worker_cleanup (run_events hovering unmounted)) = ∅
  ∧ resolved_promises (worker_cleanup (run_events hovering unmounted))
    = resolved_promises (run_events hovering unmounted)
  ∧ (∀ after,
       2%nat ∉ resolved_promises
                 (run_events after (worker_cleanup (run_events hovering unmounted)))).
Proof.
  apply (cleanup_abandons_promise hovering "hover-2000-2" 2).
  by vm_compute.
Defined.

(** ** The readiness gates *)

(** C5: as long as no [initialize] request has been answered with
    success, the worker answers an analysis request with the empty result
    of its kind (no diagnostics, no completions, [null] hover, no
    definitions) and does nothing else: no global is set, no Python is run,
    no Jedi or parso call is made.  In the editor, while the readiness flag
    and ref are unset, the completion provider returns no suggestions, the
    hover provider returns [null], and a change of the text sets no
    markers; none of them changes the state, so nothing is posted to the
    worker. *)
Theorem analysis_before_ready msgs w req r st value position wordStart now :
  init_succeeded (trace (run msgs initial)) = false →
  no_result req = Some r →
  workerReadyRef st = false →
  isWorkerReady st = false →
  effects_of w req (run msgs initial) = [PostMessage r]
  ∧ provideCompletionItems value position wordStart now st = (st, Resolved [])
  ∧ provideHover value position now st = (st, Resolved None)
  ∧ handleEditorChange (Some value) now st = (st, Resolved None).
Proof.
  intros Hinit Hr Href Hready. split_and!.
  - apply effects_of_eq. rewrite (analysis_when_not_ready w req r); [done..|].
    right. destruct (jediInitialized (run msgs initial)) eqn:Hj; [|done].
    apply flag_reported_run in Hj; [congruence|done].
  - unfold provideCompletionItems. by rewrite Href.
  - unfold provideHover. by rewrite Href.
  - unfold handleEditorChange. by rewrite Hready.
Qed.

Lemma analysis_before_ready_witness :
  effects_of (foo_world 3) (ReqCompletion "completion-2-2" "fo" 1 2)
    (run [(offline, ReqInitialize "initialize-1-1")] initial)
    = [PostMessage (RespCompletion "completion-2-2" [])]
  ∧ provideCompletionItems "fo" cursor 1 2000 (run_events [EffectRuns "python" 1000] unmounted)
    = (run_events [EffectRuns "python" 1000] unmounted, Resolved [])
  ∧ provideHover "fo" cursor 2000 (run_events [EffectRuns "python" 1000] unmounted)
    = (run_events [EffectRuns "python" 1000] unmounted, Resolved None)
  ∧ handleEditorChange (Some "fo") 2000 (run_events [EffectRuns "python" 1000] unmounted)
    = (run_events [EffectRuns "python" 1000] unmounted, Resolved None).
Proof.
  apply (analysis_before_ready [(offline, ReqInitialize "initialize-1-1")]
           (foo_world 3) (ReqCompletion "completion-2-2" "fo" 1 2)
           (RespCompletion "completion-2-2" [])
           (run_events [EffectRuns "python" 1000] unmounted) "fo" cursor 1 2000);
    reflexivity.
Defined.

(** ** Completion items in the editor *)

(** C10: every suggestion the completion provider builds inserts, and is
    filtered by, the name of its item; the [insert_text] the worker sent is
    not read, so replacing it changes no suggestion.  For [foo], completed
    after [fo], the worker sends [insert_text] [o] and the editor inserts
    [foo]. *)
Theorem suggestion_inserts_name :
  (∀ range item,
     insertText (suggestion range item) = ci_name item
     ∧ filterText (suggestion range item) = ci_name item)
  ∧ (∀ requestId data wordStart position,
       insertText <$> completion_suggestions (Some (RespCompletion requestId data))
                        wordStart position = ci_name <$> data
       ∧ filterText <$> completion_suggestions (Some (RespCompletion requestId data))
                          wordStart position = ci_name <$> data)
  ∧ (∀ range item text,
       suggestion range (with_insert_text text item) = suggestion range item)
  ∧ (∀ requestId data wordStart position text,
       completion_suggestions
         (Some (RespCompletion requestId (with_insert_text text <$> data)))
         wordStart position
       = completion_suggestions (Some (RespCompletion requestId data))
           wordStart position)
  ∧ (ci_insert_text <$> completion_results (foo_world 1) 50 "fo" 1 2 = ["o"]
     ∧ insertText <$> completion_suggestions
         (Some (RespCompletion "completion-2000-2"
                  (completion_results (foo_world 1) 50 "fo" 1 2)))
         1 {| lineNumber := 1; column := 3 |} = ["foo"]).
Proof.
  split_and!; try done.
  - intros requestId data wordStart position. unfold completion_suggestions.
    split; (induction data as [|item data IH]; [done|]; cbn; by f_equal).
  - intros requestId data wordStart position text. unfold completion_suggestions.
    induction data as [|item data IH]; [done|]. cbn. by f_equal.
Qed.

(** * Further properties *)

(** Request ids are never reused: the id the next call will use is not in
    the table, in any state the component reaches, and two ids built from
    different counter values differ whatever their tags and time stamps. *)
Theorem request_ids_never_reused :
  (∀ events type now,
     pendingRequests (run_events events unmounted)
       !! next_requestId type now (run_events events unmounted) = None)
  ∧ (∀ type now n type' now' n',
       n ≠ n' → make_requestId type now n ≠ make_requestId type' now' n').
Proof.
  split.
  - intros events type now.
    pose proof (consistent_run events unmounted consistent_unmounted) as Hst.
    set (st := run_events events unmounted) in *.
    destruct (pendingRequests st !! next_requestId type now st) as [k|] eqn:Hk;
      [|done].
    pose proof (pending_armed st Hst _ _ Hk) as Ht.
    destruct (timer_named st Hst _ _ Ht) as (Hle & _ & type' & now' & Hname).
    cbn in Hname. apply make_requestId_inj in Hname. lia.
  - intros type now n type' now' n' Hne Heq. by apply make_requestId_inj in Heq.
Qed.

(** A failure inside the interpreter never reaches the protocol: when
    [runPythonAsync] rejects, an analysis request is still answered, with
    the empty result of its kind. *)
Theorem runtime_fault_gives_empty_result w req r s :
  no_result req = Some r →
  (∀ src, is_Some (runPython_fault w src)) →
  posted (effects_of w req s) = [r].
Proof.
  intros Hr Hfault.
  destruct (readiness s) as [(p & Hp & Hj)|Hn];
    [|by rewrite (effects_of_eq w req s [PostMessage r]);
         [|rewrite (analysis_when_not_ready w req r)]].
  destruct req as [i|i c|i c l k|i c l k|i c l k|t i]; simplify_eq/=.
  - erewrite effects_of_eq; [|by rewrite (analyze_when_ready _ _ _ _ p)].
    by destruct (Hfault (PyExpr "get_diagnostics(user_code)")) as [e ->].
  - erewrite effects_of_eq; [|by rewrite (completion_when_ready _ _ _ _ _ _ p)].
    by destruct (Hfault
      (PyExpr "get_completions(user_code, user_line, user_column)")) as [e ->].
  - erewrite effects_of_eq; [|by rewrite (hover_when_ready _ _ _ _ _ _ p)].
    by destruct (Hfault
      (PyExpr "get_hover(user_code, user_line, user_column)")) as [e ->].
  - erewrite effects_of_eq; [|by rewrite (definition_when_ready _ _ _ _ _ _ p)].
    by destruct (Hfault
      (PyExpr "get_definitions(user_code, user_line, user_column)")) as [e ->].
Qed.

Lemma runtime_fault_gives_empty_result_witness :
  posted (effects_of faulty (ReqHover "hover-2-2" "x = 1" 1 0)
            (handle calm (ReqInitialize "initialize-1-1") initial))
    = [RespHover "hover-2-2" None].
Proof.
  apply (runtime_fault_gives_empty_result faulty (ReqHover "hover-2-2" "x = 1" 1 0)).
  - reflexivity.
  - intros src. exists "PythonError". reflexivity.
Defined.

(** The presentation category of a completion item is read off its type
    by a fixed table, with [Text] for every other type. *)
Theorem item_kind_table :
  item_kind "function" = KindFunction ∧ item_kind "method" = KindFunction
  ∧ item_kind "class" = KindClass ∧ item_kind "module" = KindModule
  ∧ item_kind "instance" = KindField
  ∧ item_kind "param" = KindProperty ∧ item_kind "property" = KindProperty
  ∧ item_kind "keyword" = KindKeyword ∧ item_kind "statement" = KindKeyword
  ∧ (∀ type,
       type ∉ ["function"; "method"; "class"; "module"; "instance"; "param";
               "property"; "keyword"; "statement"] →
       item_kind type = KindText).
Proof.
  split_and!; try done.
  intros type Hnot. unfold item_kind.
  repeat (case_decide as Heq;
          [exfalso; apply Hnot; rewrite Heq; set_solver|clear Heq]).
  done.
Qed.

(** Every diagnostic the worker reports has severity [error], and its
    marker is one character wide, starting at the reported position. *)
Theorem diagnostics_are_error_markers w code :
  Forall (λ d,
      diag_severity d = SevError
      ∧ mk_severity (marker d) = MarkerError
      ∧ mk_startLineNumber (marker d) = diag_line d
      ∧ mk_endLineNumber (marker d) = diag_line d
      ∧ mk_startColumn (marker d) = diag_column d
      ∧ mk_endColumn (marker d) = diag_column d + 1)
    (diagnostic_results w code).
Proof.
  unfold diagnostic_results.
  destruct (parso_iter_errors w code) as [errors|]; [|constructor].
  induction errors as [|error errors IH]; [constructor|].
  cbn. by constructor.
Qed.

(** * More on the worker *)

Import Protocol.

(** ** What a request leaves as it is *)

(** A request other than [initialize] runs no step of the bootstrap and
    no import, keeps the flag and the cached loader, and touches the
    interpreter in the three cursor globals only. *)
Lemma analysis_frame w req s :
  (∀ i, req ≠ ReqInitialize i) →
  Forall (λ e, bootstrap_step e = false ∧ is_import e = false) (effects_of w req s)
  ∧ jediInitialized (handle w req s) = jediInitialized s
  ∧ loadPyodideFn (handle w req s) = loadPyodideFn s
  ∧ match pyodide s with
    | None => pyodide (handle w req s) = None
    | Some p =>
        ∃ p', pyodide (handle w req s) = Some p'
              ∧ bootstrap p' = bootstrap p
              ∧ ∀ name, name ∉ cursor_globals → globals p' !! name = globals p !! name
    end.
Proof.
  intros Hne.
  assert (∀ r, no_result req = Some r →
               pyodide s = None ∨ jediInitialized s = false →
    Forall (λ e, bootstrap_step e = false ∧ is_import e = false) (effects_of w req s)
    ∧ jediInitialized (handle w req s) = jediInitialized s
    ∧ loadPyodideFn (handle w req s) = loadPyodideFn s
    ∧ match pyodide s with
      | None => pyodide (handle w req s) = None
      | Some p =>
          ∃ p', pyodide (handle w req s) = Some p'
                ∧ bootstrap p' = bootstrap p
                ∧ ∀ name, name ∉ cursor_globals → globals p' !! name = globals p !! name
      end) as Hidle.
  { intros r Hr Hn.
    rewrite (effects_of_eq w req s [PostMessage r]);
      rewrite (analysis_when_not_ready w req r) by done; [|done]. cbn.
    split_and!; [by repeat constructor|done..|].
    destruct (pyodide s) as [p|]; [|done]. by exists p. }
  destruct req as [i|i c|i c l k|i c l k|i c l k|t i]; [by destruct (Hne i)|..].
  - destruct (readiness s) as [(p & Hp & Hj)|Hn]; [|by apply (Hidle (RespAnalysis i []))].
    erewrite effects_of_eq; [|by rewrite (analyze_when_ready _ _ _ _ p)].
    rewrite (analyze_when_ready _ _ _ _ p), Hp by done. cbn.
    split_and!; [|done..|].
    + destruct (runPython_fault w _), (bootstrap p); by repeat constructor.
    + eexists; split_and!; [done..|]. intros name Hname. cbn.
      rewrite lookup_insert_ne; [done|]. intros <-. apply Hname. by repeat constructor.
  - destruct (readiness s) as [(p & Hp & Hj)|Hn]; [|by apply (Hidle (RespCompletion i []))].
    erewrite effects_of_eq; [|by rewrite (completion_when_ready _ _ _ _ _ _ p)].
    rewrite (completion_when_ready _ _ _ _ _ _ p), Hp by done. cbn.
    split_and!; [|done..|].
    + destruct (runPython_fault w _), (bootstrap p); by repeat constructor.
    + eexists; split_and!; [done..|]. intros name Hname. cbn.
      rewrite !lookup_insert_ne; [done|intros <-; apply Hname; by repeat constructor..].
  - destruct (readiness s) as [(p & Hp & Hj)|Hn]; [|by apply (Hidle (RespHover i None))].
    erewrite effects_of_eq; [|by rewrite (hover_when_ready _ _ _ _ _ _ p)].
    rewrite (hover_when_ready _ _ _ _ _ _ p), Hp by done. cbn.
    split_and!; [|done..|].
    + destruct (runPython_fault w _), (bootstrap p); by repeat constructor.
    + eexists; split_and!; [done..|]. intros name Hname. cbn.
      rewrite !lookup_insert_ne; [done|intros <-; apply Hname; by repeat constructor..].
  - destruct (readiness s) as [(p & Hp & Hj)|Hn]; [|by apply (Hidle (RespDefinition i []))].
    erewrite effects_of_eq; [|by rewrite (definition_when_ready _ _ _ _ _ _ p)].
    rewrite (definition_when_ready _ _ _ _ _ _ p), Hp by done. cbn.
    split_and!; [|done..|].
    + destruct (runPython_fault w _), (bootstrap p); by repeat constructor.
    + eexists; split_and!; [done..|]. intros name Hname. cbn.
      rewrite !lookup_insert_ne; [done|intros <-; apply Hname; by repeat constructor..].
  - rewrite (effects_of_eq _ _ _ []); rewrite other_ignored; [|by rewrite app_nil_r].
    split_and!; [constructor|done..|].
    destruct (pyodide s) as [p|]; [|done]. by exists p.
Qed.

(** ** The bootstrap, step by step *)

Import Bootstrap.

(** An [initialize] request on a worker whose flag is unset, in full. *)
Lemma initialize_runs_plan w requestId s :
  jediInitialized s = false →
  effects_of w (ReqInitialize requestId) s
    = fst (until_fault (plan w (cached s)))
      ++ [PostMessage (RespInitialized requestId
                         (succeeded (snd (until_fault (plan w (cached s)))))
                         (snd (until_fault (plan w (cached s)))))]
  ∧ jediInitialized (handle w (ReqInitialize requestId) s)
    = succeeded (snd (until_fault (plan w (cached s))))
  ∧ (succeeded (snd (until_fault (plan w (cached s)))) = true →
     pyodide (handle w (ReqInitialize requestId) s)
       = Some {| globals := ∅; bootstrap := Some MAX_COMPLETIONS |})
  ∧ (cached s = true →
     loadPyodideFn (handle w (ReqInitialize requestId) s) = loadPyodideFn s)
  ∧ (cached s = false →
     loadPyodideFn (handle w (ReqInitialize requestId) s)
       = match import_fault w with None => Some loadPyodide | Some _ => None end).
Proof.
  intros Hj. split; [apply effects_of_eq|];
    destruct s as [py ji lf tr]; cbn in *; subst ji; unfold cached, plan;
    run_worker;
    destruct lf as [l|], (import_fault w) as [e0|], (loadPyodide_fault w) as [e1|],
      (loadPackage_fault w "micropip") as [e2|],
      (runPython_fault w INSTALL_SCRIPT) as [e3|],
      (runPython_fault w (createJediBootstrap MAX_COMPLETIONS)) as [e4|];
    cbn; rewrite <- ?app_assoc; try reflexivity; split_and!; done.
Qed.

(** ** Runs of the worker *)

Import WorkerNotions.

Lemma effects_of_run_nil s : effects_of_run [] s = [].
Proof. unfold effects_of_run. cbn. apply drop_all. Qed.

Lemma run_appends msgs s :
  trace (run msgs s) = trace s ++ effects_of_run msgs s.
Proof.
  revert s. induction msgs as [|[w req] msgs IH]; intros s.
  - by rewrite effects_of_run_nil, app_nil_r.
  - unfold effects_of_run. cbn. rewrite IH, handle_appends, <- app_assoc.
    by rewrite drop_trace.
Qed.

Lemma effects_of_run_cons w req msgs s :
  effects_of_run ((w, req) :: msgs) s
    = effects_of w req s ++ effects_of_run msgs (handle w req s).
Proof.
  unfold effects_of_run at 1. cbn.
  by rewrite run_appends, handle_appends, <- app_assoc, drop_trace.
Qed.

(** What holds of the effects of every single message, and is kept by
    concatenation, holds of the effects of a run. *)
Lemma run_effects_ind (P : list Effect → Prop) (Q : WorkerState → Prop) :
  P [] →
  (∀ a b, P a → P b → P (a ++ b)) →
  (∀ w req s, Q s → P (effects_of w req s) ∧ Q (handle w req s)) →
  ∀ msgs s, Q s → P (effects_of_run msgs s) ∧ Q (run msgs s).
Proof.
  intros Hnil Happ Hstep msgs. induction msgs as [|[w req] msgs IH]; intros s Hs.
  - by rewrite effects_of_run_nil.
  - rewrite effects_of_run_cons. cbn.
    destruct (Hstep w req s Hs) as [Hp Hq].
    destruct (IH _ Hq) as [Hp' Hq']. auto.
Qed.

Lemma not_initialize req :
  is_initialize req = false → ∀ i, req ≠ ReqInitialize i.
Proof. by intros Hr i ->. Qed.

Lemma is_initialize_true req :
  is_initialize req = true → ∃ i, req = ReqInitialize i.
Proof. destruct req; try done. eauto. Qed.

Lemma plan_succeeded_import w :
  succeeded (snd (until_fault (plan w false))) = true → import_fault w = None.
Proof. unfold plan. cbn. by destruct (import_fault w). Qed.

Lemma cached_plan_steps w c :
  Forall (λ e, bootstrap_step e = true ∧ (c = true → is_import e = false))
    (fst (until_fault (plan w c))).
Proof.
  unfold plan.
  destruct c, (import_fault w) as [e0|], (loadPyodide_fault w) as [e1|],
    (loadPackage_fault w "micropip") as [e2|],
    (runPython_fault w INSTALL_SCRIPT) as [e3|],
    (runPython_fault w (createJediBootstrap MAX_COMPLETIONS)) as [e4|];
    cbn; repeat constructor; done.
Qed.

(** A worker that holds the loader keeps it and imports nothing. *)
Lemma loader_handle w req s l :
  loadPyodideFn s = Some l →
  Forall (λ e, is_import e = false) (effects_of w req s)
  ∧ loadPyodideFn (handle w req s) = Some l.
Proof.
  intros Hl. destruct (is_initialize req) eqn:Hreq.
  - apply is_initialize_true in Hreq as [i ->].
    destruct (jediInitialized s) eqn:Hjs.
    + rewrite (effects_of_eq _ _ _ [PostMessage (RespInitialized i true None)]);
        rewrite initialize_when_ready by done; [|done].
      split; [by repeat constructor|done].
    + destruct (initialize_runs_plan w i s Hjs) as (Hes & _ & _ & Hc & _).
      assert (cached s = true) as Hcached by (unfold cached; by rewrite Hl).
      rewrite Hes, Hc, Hcached by done. split; [|done].
      apply Forall_app. split; [|by repeat constructor].
      eapply Forall_impl; [apply cached_plan_steps|]. intros e [_ He]. by apply He.
  - destruct (analysis_frame w req s (not_initialize _ Hreq)) as (Hes & _ & Hlf & _).
    split; [|congruence]. eapply Forall_impl; [exact Hes|]. by intros e [_ ?].
Qed.

(** ** Further properties of the worker *)

(** On a worker whose flag is unset, [initialize] makes the external calls
    of the bootstrap in their fixed order (the import only when the loader
    is not cached), stops at the first call that fails, and answers once:
    with success and the flag set when none failed, and otherwise with the
    message of the call that failed and the flag left unset. *)
Theorem initialize_stops_at_first_failure w requestId s :
  jediInitialized s = false →
  effects_of w (ReqInitialize requestId) s
    = fst (until_fault (plan w (cached s)))
      ++ [PostMessage (RespInitialized requestId
                         (succeeded (snd (until_fault (plan w (cached s)))))
                         (snd (until_fault (plan w (cached s)))))]
  ∧ jediInitialized (handle w (ReqInitialize requestId) s)
    = succeeded (snd (until_fault (plan w (cached s)))).
Proof.
  intros Hj. destruct (initialize_runs_plan w requestId s Hj) as (? & ? & _). done.
Qed.

Lemma initialize_stops_at_first_failure_witness :
  effects_of offline (ReqInitialize "initialize-1-1") initial
    = fst (until_fault (plan offline (cached initial)))
      ++ [PostMessage (RespInitialized "initialize-1-1"
                         (succeeded (snd (until_fault (plan offline (cached initial)))))
                         (snd (until_fault (plan offline (cached initial)))))]
  ∧ jediInitialized (handle offline (ReqInitialize "initialize-1-1") initial)
    = succeeded (snd (until_fault (plan offline (cached initial)))).
Proof.
  apply (initialize_stops_at_first_failure offline "initialize-1-1" initial).
  reflexivity.
Defined.

(** The plan at work: micropip cannot be fetched, so the install script
    and the bootstrap script are not run. *)
Example offline_plan :
  until_fault (plan offline false)
    = ([DynamicImport PYODIDE_MODULE_URL; CallLoader PYODIDE_INDEX_URL;
        LoadPackage "micropip"], Some "NetworkError").
Proof. reflexivity. Qed.

(** An [initialize] request that finds the flag unset and is answered
    with success leaves the worker with a new interpreter in which the
    bootstrap script has run with the cap of 50, whatever interpreter an
    earlier attempt left behind; the loader is cached, the flag is set, and
    [getRuntime] returns that interpreter. *)
Theorem successful_initialize_equips_worker w requestId s :
  jediInitialized s = false →
  posted (effects_of w (ReqInitialize requestId) s)
    = [RespInitialized requestId true None] →
  pyodide (handle w (ReqInitialize requestId) s)
    = Some {| globals := ∅; bootstrap := Some 50%nat |}
  ∧ loadPyodideFn (handle w (ReqInitialize requestId) s) = Some loadPyodide
  ∧ jediInitialized (handle w (ReqInitialize requestId) s) = true
  ∧ getRuntime (handle w (ReqInitialize requestId) s)
    = (Returned (Some {| globals := ∅; bootstrap := Some 50%nat |}),
       handle w (ReqInitialize requestId) s).
Proof.
  intros Hj Hposted.
  destruct (initialize_runs_plan w requestId s Hj) as (Hes & Hflag & Hpy & Hc & Hnc).
  assert (succeeded (snd (until_fault (plan w (cached s)))) = true) as Hok.
  { rewrite Hes, posted_app, posted_bootstrap in Hposted.
    - by injection Hposted as ->.
    - eapply Forall_impl; [apply cached_plan_steps|]. by intros e [? _]. }
  rewrite Hok in Hflag. specialize (Hpy Hok).
  assert (loadPyodideFn (handle w (ReqInitialize requestId) s) = Some loadPyodide)
    as Hl.
  { unfold cached in *. destruct (loadPyodideFn s) as [[]|] eqn:Hls.
    - by rewrite Hc.
    - rewrite Hnc by done. by rewrite (plan_succeeded_import w). }
  split_and!; [done..|].
  unfold getRuntime, get_state, mbind, mret, W_bind, W_ret. by rewrite Hpy, Hflag.
Qed.

Lemma successful_initialize_equips_worker_witness :
  pyodide (handle calm (ReqInitialize "initialize-2-2")
             (handle offline (ReqInitialize "initialize-1-1") initial))
    = Some {| globals := ∅; bootstrap := Some 50%nat |}
  ∧ loadPyodideFn (handle calm (ReqInitialize "initialize-2-2")
                     (handle offline (ReqInitialize "initialize-1-1") initial))
    = Some loadPyodide
  ∧ jediInitialized (handle calm (ReqInitialize "initialize-2-2")
                       (handle offline (ReqInitialize "initialize-1-1") initial))
    = true
  ∧ getRuntime (handle calm (ReqInitialize "initialize-2-2")
                  (handle offline (ReqInitialize "initialize-1-1") initial))
    = (Returned (Some {| globals := ∅; bootstrap := Some 50%nat |}),
       handle calm (ReqInitialize "initialize-2-2")
         (handle offline (ReqInitialize "initialize-1-1") initial)).
Proof.
  apply (successful_initialize_equips_worker calm "initialize-2-2"
           (handle offline (ReqInitialize "initialize-1-1") initial));
    reflexivity.
Defined.

(** Once [loadPyodideFn] holds the loader, it keeps holding it and
    [pyodide.mjs] is not imported again, also when a later [initialize]
    runs the rest of the bootstrap anew. *)
Theorem module_imported_once msgs s :
  cached s = true →
  cached (run msgs s) = true
  ∧ Forall (λ e, is_import e = false) (effects_of_run msgs s).
Proof.
  intros Hc.
  destruct (run_effects_ind (Forall (λ e, is_import e = false))
              (λ s, cached s = true)) with (msgs := msgs) (s := s)
    as [Hes Hq]; try done.
  - intros a b Ha Hb. by apply Forall_app.
  - intros w req s' Hs'. unfold cached in *.
    destruct (loadPyodideFn s') as [l|] eqn:Hl; [|done].
    destruct (loader_handle w req s' l Hl) as [Hes ->]. done.
Qed.

Lemma module_imported_once_witness :
  cached (run [(calm, ReqInitialize "initialize-2-2")]
            (handle offline (ReqInitialize "initialize-1-1") initial)) = true
  ∧ Forall (λ e, is_import e = false)
      (effects_of_run [(calm, ReqInitialize "initialize-2-2")]
         (handle offline (ReqInitialize "initialize-1-1") initial)).
Proof.
  apply (module_imported_once [(calm, ReqInitialize "initialize-2-2")]
           (handle offline (ReqInitialize "initialize-1-1") initial)).
  reflexivity.
Defined.

(** A request other than [initialize] leaves the flag and the cached
    loader as they are, runs no bootstrap step, and changes nothing in the
    interpreter but the globals [user_code], [user_line] and
    [user_column]. *)
Theorem analysis_leaves_worker_state w req s p name :
  is_initialize req = false →
  pyodide s = Some p →
  name ∉ cursor_globals →
  jediInitialized (handle w req s) = jediInitialized s
  ∧ loadPyodideFn (handle w req s) = loadPyodideFn s
  ∧ Forall (λ e, bootstrap_step e = false) (effects_of w req s)
  ∧ ∃ p', pyodide (handle w req s) = Some p'
          ∧ bootstrap p' = bootstrap p
          ∧ globals p' !! name = globals p !! name.
Proof.
  intros Hreq Hp Hname.
  destruct (analysis_frame w req s (not_initialize _ Hreq)) as (Hes & Hj & Hl & Hpy).
  rewrite Hp in Hpy. destruct Hpy as (p' & Hp' & Hb & Hg).
  split_and!; [done..| |].
  - eapply Forall_impl; [exact Hes|]. by intros e [? _].
  - exists p'. split_and!; [done..|]. by apply Hg.
Qed.

Lemma analysis_leaves_worker_state_witness :
  jediInitialized
    (handle (foo_world 1) (ReqHover "hover-3-3" "x = 1" 1 0)
       (run [(calm, ReqInitialize "initialize-1-1");
             (calm, ReqAnalyze "analyze-2-2" "x = 1")] initial))
    = jediInitialized
        (run [(calm, ReqInitialize "initialize-1-1");
              (calm, ReqAnalyze "analyze-2-2" "x = 1")] initial)
  ∧ loadPyodideFn
      (handle (foo_world 1) (ReqHover "hover-3-3" "x = 1" 1 0)
         (run [(calm, ReqInitialize "initialize-1-1");
               (calm, ReqAnalyze "analyze-2-2" "x = 1")] initial))
    = loadPyodideFn
        (run [(calm, ReqInitialize "initialize-1-1");
              (calm, ReqAnalyze "analyze-2-2" "x = 1")] initial)
  ∧ Forall (λ e, bootstrap_step e = false)
      (effects_of (foo_world 1) (ReqHover "hover-3-3" "x = 1" 1 0)
         (run [(calm, ReqInitialize "initialize-1-1");
               (calm, ReqAnalyze "analyze-2-2" "x = 1")] initial))
  ∧ ∃ p', pyodide
            (handle (foo_world 1) (ReqHover "hover-3-3" "x = 1" 1 0)
               (run [(calm, ReqInitialize "initialize-1-1");
                     (calm, ReqAnalyze "analyze-2-2" "x = 1")] initial))
          = Some p'
          ∧ bootstrap p'
            = bootstrap {| globals := {["user_code" := PyStr "x = 1"]};
                           bootstrap := Some 50%nat |}
          ∧ globals p' !! "project"
            = globals {| globals := {["user_code" := PyStr "x = 1"]};
                         bootstrap := Some 50%nat |} !! "project".
Proof.
  apply (analysis_leaves_worker_state (foo_world 1)
           (ReqHover "hover-3-3" "x = 1" 1 0)
           (run [(calm, ReqInitialize "initialize-1-1");
                 (calm, ReqAnalyze "analyze-2-2" "x = 1")] initial)
           {| globals := {["user_code" := PyStr "x = 1"]}; bootstrap := Some 50%nat |}
           "project").
  - reflexivity.
  - by vm_compute.
  - unfold cursor_globals. rewrite !elem_of_cons, elem_of_nil.
    intros [H|[H|[H|[]]]]; discriminate H.
Defined.

(** ** What the bootstrap functions return *)




(** One candidate that raises among the first 50 empties the answer; the
    same candidate in place 51 is never looked at. *)
Example thorny_completions :
  completion_results (thorny_world 49) MAX_COMPLETIONS "fo" 1 2 = []
  ∧ length (completion_results (thorny_world 50) MAX_COMPLETIONS "fo" 1 2) = 50%nat.
Proof. by vm_compute. Qed.

(** What a ready worker answers: in every state in which the flag is set
    and the interpreter holds the Jedi functions (the bootstrap script has
    run in it, with cap [k]), and when the interpreter does not fail, each
    analysis request sets its globals, runs its one call expression, makes
    exactly one call into parso or Jedi (with the clamped cursor), and posts
    what the bootstrap function computed from that call, completions cut at
    [k]. *)
Theorem ready_worker_answers_from_library w requestId code line column s p k :
  pyodide s = Some p →
  bootstrap p = Some k →
  jediInitialized s = true →
  (∀ src, runPython_fault w src = None) →
  effects_of w (ReqAnalyze requestId code) s
    = [GlobalsSet "user_code" (PyStr code);
       RunPython (PyExpr "get_diagnostics(user_code)");
       ParsoParse code;
       PostMessage (RespAnalysis requestId (diagnostic_results w code))]
  ∧ effects_of w (ReqCompletion requestId code line column) s
    = cursor_effects code line column ++
      [RunPython (PyExpr "get_completions(user_code, user_line, user_column)");
       JediComplete code (Z.max 1 line) (Z.max 0 column);
       PostMessage (RespCompletion requestId
         (completion_results w k code (Z.max 1 line) (Z.max 0 column)))]
  ∧ effects_of w (ReqHover requestId code line column) s
    = cursor_effects code line column ++
      [RunPython (PyExpr "get_hover(user_code, user_line, user_column)");
       JediHelp code (Z.max 1 line) (Z.max 0 column);
       PostMessage (RespHover requestId
         (rendered (hover_result w code (Z.max 1 line) (Z.max 0 column))))]
  ∧ effects_of w (ReqDefinition requestId code line column) s
    = cursor_effects code line column ++
      [RunPython (PyExpr "get_definitions(user_code, user_line, user_column)");
       JediGoto code (Z.max 1 line) (Z.max 0 column);
       PostMessage (RespDefinition requestId
         (definition_results w code (Z.max 1 line) (Z.max 0 column)))].
Proof.
  intros Hp Hb Hj Hw.
  split_and!; apply effects_of_eq.
  - by rewrite (analyze_when_ready _ _ _ _ p), Hw, Hb.
  - by rewrite (completion_when_ready _ _ _ _ _ _ p), Hw, Hb.
  - by rewrite (hover_when_ready _ _ _ _ _ _ p), Hw, Hb.
  - by rewrite (definition_when_ready _ _ _ _ _ _ p), Hw, Hb.
Qed.

Lemma ready_worker_answers_from_library_witness :
  effects_of (foo_world 3) (ReqAnalyze "hover-2-2" "fo")
      (run [(calm, ReqInitialize "initialize-1-1")] initial)
    = [GlobalsSet "user_code" (PyStr "fo");
       RunPython (PyExpr "get_diagnostics(user_code)");
       ParsoParse "fo";
       PostMessage (RespAnalysis "hover-2-2" (diagnostic_results (foo_world 3) "fo"))]
  ∧ effects_of (foo_world 3) (ReqCompletion "hover-2-2" "fo" 0 (-1))
      (run [(calm, ReqInitialize "initialize-1-1")] initial)
    = cursor_effects "fo" 0 (-1) ++
      [RunPython (PyExpr "get_completions(user_code, user_line, user_column)");
       JediComplete "fo" (Z.max 1 0) (Z.max 0 (-1));
       PostMessage (RespCompletion "hover-2-2"
         (completion_results (foo_world 3) 50 "fo" (Z.max 1 0) (Z.max 0 (-1))))]
  ∧ effects_of (foo_world 3) (ReqHover "hover-2-2" "fo" 0 (-1))
      (run [(calm, ReqInitialize "initialize-1-1")] initial)
    = cursor_effects "fo" 0 (-1) ++
      [RunPython (PyExpr "get_hover(user_code, user_line, user_column)");
       JediHelp "fo" (Z.max 1 0) (Z.max 0 (-1));
       PostMessage (RespHover "hover-2-2"
         (rendered (hover_result (foo_world 3) "fo" (Z.max 1 0) (Z.max 0 (-1)))))]
  ∧ effects_of (foo_world 3) (ReqDefinition "hover-2-2" "fo" 0 (-1))
      (run [(calm, ReqInitialize "initialize-1-1")] initial)
    = cursor_effects "fo" 0 (-1) ++
      [RunPython (PyExpr "get_definitions(user_code, user_line, user_column)");
       JediGoto "fo" (Z.max 1 0) (Z.max 0 (-1));
       PostMessage (RespDefinition "hover-2-2"
         (definition_results (foo_world 3) "fo" (Z.max 1 0) (Z.max 0 (-1))))].
Proof.
  apply (ready_worker_answers_from_library (foo_world 3) "hover-2-2" "fo" 0 (-1)
           (run [(calm, ReqInitialize "initialize-1-1")] initial)
           {| globals := ∅; bootstrap := Some 50%nat |} 50%nat).
  - reflexivity.
  - reflexivity.
  - reflexivity.
  - intros src. reflexivity.
Defined.

(** * More on the editor component *)

Import BridgeNotions.

(** ** Which events call the worker *)

(** A step posts the message of its call and counts it, or posts and
    counts nothing. *)
Lemma step_call e st :
  match call_of e st with
  | Some (worker, type, payload, now) =>
      outbox (step e st)
        = outbox st ++ [(worker, {| msg_type := type; msg_data := payload;
                                    msg_requestId := next_requestId type now st |})]
      ∧ requestIdCounter (step e st) = S (requestIdCounter st)
      ∧ workerRef (step e st) = Some worker
  | None =>
      outbox (step e st) = outbox st
      ∧ requestIdCounter (step e st) = requestIdCounter st
  end.
Proof.
  destruct e as [language now| | |type payload now
    |value position wordStart now|value position now|value now|m|n]; cbn.
  - unfold worker_effect. case_decide; [|done]. by cbn.
  - done.
  - done.
  - unfold callWorker. by destruct (workerRef st).
  - unfold provideCompletionItems, callWorker.
    destruct (workerRef st), (workerReadyRef st); by cbn.
  - unfold provideHover, callWorker.
    destruct (workerRef st), (workerReadyRef st); by cbn.
  - unfold handleEditorChange, callWorker. destruct value as [code|]; [|done].
    destruct (workerRef st), (isWorkerReady st), (truthy code); by cbn.
  - unfold worker_onmessage.
    destruct (truthy (response_id m)), (pendingRequests st !! response_id m);
      by destruct m.
  - unfold timer_fires. destruct (timers st !! n); [|done]. cbn.
    by case_decide.
Qed.

(** The worker is attached by the Python effect and detached by the
    cleanup, and by nothing else; workers are numbered as they are
    created. *)
Lemma step_worker e st :
  spawned (step e st) = (if spawns e then S (spawned st) else spawned st)
  ∧ workerRef (step e st)
    = (if spawns e then Some (S (spawned st))
       else match e with CleanupRuns => None | _ => workerRef st end).
Proof.
  destruct e as [language now| | |type payload now
    |value position wordStart now|value position now|value now|m|n]; cbn.
  - unfold worker_effect. case_bool_decide; [by rewrite decide_True|].
    by rewrite decide_False.
  - done.
  - done.
  - unfold callWorker. by destruct (workerRef st) eqn:Hw.
  - unfold provideCompletionItems, callWorker.
    destruct (workerRef st) eqn:Hw, (workerReadyRef st); by cbn.
  - unfold provideHover, callWorker.
    destruct (workerRef st) eqn:Hw, (workerReadyRef st); by cbn.
  - unfold handleEditorChange, callWorker. destruct value as [code|]; [|done].
    destruct (workerRef st) eqn:Hw, (isWorkerReady st), (truthy code); by cbn.
  - unfold worker_onmessage.
    destruct (truthy (response_id m)), (pendingRequests st !! response_id m);
      by destruct m.
  - unfold timer_fires. destruct (timers st !! n); [|done]. cbn.
    by case_decide.
Qed.

(** The call of an event goes to a new worker, which it greets with
    [initialize], or to the worker attached. *)
Lemma call_of_cases e st :
  (spawns e = true
   ∧ ∃ now, call_of e st = Some (S (spawned st), initialize, no_payload, now))
  ∨ (spawns e = false
     ∧ (call_of e st = None
        ∨ ∃ worker type payload now,
            workerRef st = Some worker
            ∧ call_of e st = Some (worker, type, payload, now))).
Proof.
  destruct e as [language now| | |type payload now
    |value position wordStart now|value position now|value now|m|n]; cbn;
    try (right; split; [done|]; by left).
  - case_bool_decide.
    + left. split; [done|]. exists now. by rewrite decide_True.
    + right. split; [done|]. left. by rewrite decide_False.
  - right. split; [done|]. destruct (workerRef st) as [worker|]; [|by left].
    right. by exists worker, type, payload, now.
  - right. split; [done|]. destruct (workerRef st) as [worker|]; [|by left].
    destruct (workerReadyRef st); [|by left]. right. by eexists _, _, _, _.
  - right. split; [done|]. destruct (workerRef st) as [worker|]; [|by left].
    destruct (workerReadyRef st); [|by left]. right. by eexists _, _, _, _.
  - right. split; [done|]. destruct value as [code|]; [|by left].
    destruct (workerRef st) as [worker|]; [|by left].
    destruct (isWorkerReady st && truthy code); [|by left].
    right. by eexists _, _, _, _.
Qed.

Lemma run_events_app events later st :
  run_events (events ++ later) st = run_events later (run_events events st).
Proof. revert st. induction events as [|e events IH]; intros st; [done|]. apply IH. Qed.

Lemma run_events_ind (P : Bridge → Prop) :
  (∀ e st, P st → P (step e st)) →
  ∀ events st, P st → P (run_events events st).
Proof.
  intros Hstep events. induction events as [|e events IH]; intros st Hst; [done|].
  cbn. by apply IH, Hstep.
Qed.

(** ** The messages posted *)

Lemma first_to_app worker posted more m :
  first_to worker posted = Some m → first_to worker (posted ++ more) = Some m.
Proof.
  unfold first_to. rewrite filter_app.
  by destruct (filter (λ x, x.1 = worker) posted).
Qed.

Lemma first_to_fresh worker posted m :
  Forall (λ x, x.1 ≠ worker) posted →
  first_to worker (posted ++ [(worker, m)]) = Some m.
Proof.
  intros Hold. unfold first_to. rewrite filter_app.
  replace (filter (λ x, x.1 = worker) posted) with (@nil (nat * PostedMessage)).
  - rewrite app_nil_l, filter_cons_True by done. done.
  - induction Hold as [|x posted Hx Hold IH]; [done|].
    by rewrite filter_cons_False.
Qed.

Lemma posted_ok_unmounted : posted_ok unmounted.
Proof. split; cbn; try done. intros worker. lia. Qed.

Lemma posted_ok_step e st : posted_ok st → posted_ok (step e st).
Proof.
  intros [Hlen Hnamed Hlatest Hgreeted].
  pose proof (step_call e st) as Hcall.
  destruct (step_worker e st) as [Hsp Hwr].
  destruct (call_of_cases e st) as [[Hs (now & Hc)]|[Hs [Hc|(w & type & payload & now & Hw & Hc)]]];
    rewrite Hc in Hcall; rewrite Hs in Hsp, Hwr.
  - destruct Hcall as (Hout & Hcnt & _). split.
    + rewrite Hout, length_app, Hcnt. cbn. lia.
    + intros k worker m. rewrite Hout, Hsp.
      intros [[_ Hk]|[-> [= <- <-]]]%lookup_snoc_Some.
      * destruct (Hnamed _ _ _ Hk) as [? ?]. split; [lia|done].
      * split; [lia|]. exists now. cbn. by rewrite Hlen.
    + intros worker. rewrite Hwr, Hsp. intros [= <-]. lia.
    + intros worker. rewrite Hsp, Hout. intros Hb.
      destruct (decide (worker = S (spawned st))) as [->|Hne].
      * exists {| msg_type := initialize; msg_data := no_payload;
                  msg_requestId := next_requestId initialize now st |}.
        split; [|done]. apply first_to_fresh.
        apply Forall_lookup. intros k [w m] Hk. cbn.
        destruct (Hnamed _ _ _ Hk) as [? _]. lia.
      * destruct (Hgreeted worker) as (m & Hm & ?); [lia|].
        exists m. split; [|done]. by apply first_to_app.
  - destruct Hcall as (Hout & Hcnt). split.
    + by rewrite Hout, Hcnt.
    + intros k worker m. rewrite Hout, Hsp. apply Hnamed.
    + intros worker. rewrite Hwr, Hsp. destruct e; try done; apply Hlatest.
    + intros worker. rewrite Hsp, Hout. apply Hgreeted.
  - destruct Hcall as (Hout & Hcnt & _).
    destruct (Hlatest _ Hw) as [-> Hpos]. split.
    + rewrite Hout, length_app, Hcnt. cbn. lia.
    + intros k worker m. rewrite Hout, Hsp.
      intros [[_ Hk]|[-> [= <- <-]]]%lookup_snoc_Some; [by apply Hnamed|].
      split; [lia|]. exists now. cbn. by rewrite Hlen.
    + intros worker. rewrite Hwr, Hsp. destruct e; try done; apply Hlatest.
    + intros worker. rewrite Hsp, Hout. intros Hb.
      destruct (Hgreeted worker Hb) as (m & Hm & ?).
      exists m. split; [|done]. by apply first_to_app.
Qed.

Lemma posted_ok_run events : posted_ok (run_events events unmounted).
Proof. apply run_events_ind; [apply posted_ok_step|apply posted_ok_unmounted]. Qed.


(** Only a message for a pending request and a timer resolve a promise:
    the one with the message, the other with [null]. *)
Lemma step_settled e st :
  settled (step e st) = settled st
  ∨ (∃ n r, e = MessageArrives r
            ∧ pendingRequests st !! response_id r = Some n
            ∧ settled (step e st) = (n, Some r) :: settled st)
  ∨ (∃ n, e = TimerFires n ∧ settled (step e st) = (n, None) :: settled st).
Proof.
  pose proof (step_is_call e st) as Hcall.
  destruct e as [? ?| | |? ? ?|? ? ? ?|? ? ?|? ?|m|k]; cbn [step] in *;
    try (left; destruct Hcall as [Hc|(type' & now' & Hc)];
         [by apply core_eq in Hc as (_ & _ & _ & ->)
         |by apply core_is in Hc as (_ & _ & _ & ->)]).
  - by left.
  - destruct (onmessage_core m st) as [Hc|(n & Hn & _ & Hc)].
    + left. by apply core_eq in Hc as (_ & _ & _ & ->).
    + right. left. exists n, m. by apply core_is in Hc as (_ & _ & _ & ->).
  - destruct (timer_core k st) as [Hc|(t & Hk & [[_ Hc]|[_ Hc]])].
    + left. by apply core_eq in Hc as (_ & _ & _ & ->).
    + right. right. exists k. by apply core_is in Hc as (_ & _ & _ & ->).
    + left. by apply core_is in Hc as (_ & _ & _ & ->).
Qed.

(** A step that makes no call adds nothing to the table and arms no
    timer. *)
Lemma step_shrinks e st :
  requestIdCounter (step e st) = requestIdCounter st →
  pendingRequests (step e st) ⊆ pendingRequests st
  ∧ timers (step e st) ⊆ timers st.
Proof.
  intros Hcnt. pose proof (step_is_call e st) as Hcall.
  destruct e as [? ?| | |? ? ?|? ? ? ?|? ? ?|? ?|m|k]; cbn [step] in *;
    try (destruct Hcall as [Hc|(type' & now' & Hc)];
         [by apply core_eq in Hc as (_ & -> & -> & _)
         |apply core_is in Hc as (Hc & _); lia]).
  - cbn. split; [apply map_empty_subseteq|done].
  - destruct (onmessage_core m st) as [Hc|(n & Hn & _ & Hc)].
    + by apply core_eq in Hc as (_ & -> & -> & _).
    + apply core_is in Hc as (_ & -> & -> & _). split; apply delete_subseteq.
  - destruct (timer_core k st) as [Hc|(t & Hk & [[_ Hc]|[_ Hc]])].
    + by apply core_eq in Hc as (_ & -> & -> & _).
    + apply core_is in Hc as (_ & -> & -> & _). split; apply delete_subseteq.
    + apply core_is in Hc as (_ & -> & -> & _). split; [done|apply delete_subseteq].
Qed.

Lemma NoDup_fst_unique {A B} (l : list (A * B)) x y1 y2 :
  NoDup (fst <$> l) → (x, y1) ∈ l → (x, y2) ∈ l → y1 = y2.
Proof.
  induction l as [|[a b] l IH]; cbn; intros Hnd H1 H2;
    [by apply elem_of_nil in H1|].
  apply NoDup_cons in Hnd as [Ha Hnd].
  apply elem_of_cons in H1 as [H1|H1];
    apply elem_of_cons in H2 as [H2|H2]; simplify_eq.
  - done.
  - destruct Ha. apply list_elem_of_fmap. by exists (a, y2).
  - destruct Ha. apply list_elem_of_fmap. by exists (a, y1).
  - by apply IH.
Qed.

Lemma settled_named_step e st :
  consistent st → settled_named st → settled_named (step e st).
Proof.
  intros Hst Hnamed n r.
  destruct (step_settled e st) as [->|[(k & m & -> & Hk & ->)|(k & -> & ->)]].
  - apply Hnamed.
  - intros [[= -> ->]|Hin]%elem_of_cons; [|by apply Hnamed].
    pose proof (pending_armed st Hst _ _ Hk) as Ht.
    destruct (timer_named st Hst _ _ Ht) as (_ & _ & type & now & Hid).
    by exists type, now.
  - intros [[=]|Hin]%elem_of_cons. by apply Hnamed.
Qed.

Lemma settled_named_run events : settled_named (run_events events unmounted).
Proof.
  assert (consistent (run_events events unmounted)
          ∧ settled_named (run_events events unmounted)) as [_ H]; [|done].
  apply (run_events_ind (λ st, consistent st ∧ settled_named st)).
  - intros e st [Hst Hnamed]. split; [by apply consistent_step|].
    by apply settled_named_step.
  - split; [apply consistent_unmounted|]. intros n r Hin. by apply elem_of_nil in Hin.
Qed.

Lemma detached_step e st :
  workerRef st = None → spawns e = false →
  outbox (step e st) = outbox st
  ∧ requestIdCounter (step e st) = requestIdCounter st
  ∧ workerRef (step e st) = None.
Proof.
  intros Hw Hs. pose proof (step_call e st) as Hcall.
  destruct (step_worker e st) as [_ Hwr]. rewrite Hs in Hwr.
  destruct (call_of_cases e st) as [[? _]|[_ [Hc|(w & ? & ? & ? & ? & _)]]];
    [congruence| |congruence].
  rewrite Hc in Hcall. destruct Hcall as [-> ->]. split_and!; [done..|].
  rewrite Hwr. by destruct e.
Qed.

Lemma initialized_sets_ready requestId success error st :
  isWorkerReady (worker_onmessage (RespInitialized requestId success error) st)
    = success.
Proof.
  unfold worker_onmessage. cbn.
  by destruct (truthy requestId), (pendingRequests st !! requestId).
Qed.

Lemma call_of_well_formed e st worker type payload now requestId :
  of_component e = true →
  call_of e st = Some (worker, type, payload, now) →
  well_formed {| msg_type := type; msg_data := payload; msg_requestId := requestId |}.
Proof.
  intros He Hc. unfold well_formed, to_request.
  destruct e as [language ?| | |? ? ?|value position wordStart ?
    |value position ?|value ?|m|k]; cbn in *; try done.
  - case_decide; [|done]. injection Hc as <- <- <- <-. cbn. split_and!; done.
  - destruct (workerRef st); [|done]. destruct (workerReadyRef st); [|done].
    injection Hc as <- <- <- <-. cbn. split_and!; done.
  - destruct (workerRef st); [|done]. destruct (workerReadyRef st); [|done].
    injection Hc as <- <- <- <-. cbn. split_and!; done.
  - destruct value as [code|]; [|done]. destruct (workerRef st); [|done].
    destruct (isWorkerReady st); [|done]. cbn in Hc.
    destruct (truthy code) eqn:Htr; [|done].
    injection Hc as <- <- <- <-. cbn. split_and!; [done..|].
    intros _. by exists code.
Qed.

(** * Further properties of the editor component *)

(** Every call posts exactly one message, and the messages carry the
    counter values 1, 2, 3, ... in the order they were posted: in every state
    the component reaches, as many messages were posted as the counter
    says, the message at place [k] has an id that ends in [k + 1] and
    starts with the message's own tag and went to a worker that had been
    created, and no two messages posted share an id. *)
Theorem messages_follow_counter events :
  length (outbox (run_events events unmounted))
    = requestIdCounter (run_events events unmounted)
  ∧ (∀ k worker m,
       outbox (run_events events unmounted) !! k = Some (worker, m) →
       (1 ≤ worker ≤ spawned (run_events events unmounted))%nat
       ∧ ∃ now, msg_requestId m = make_requestId (msg_type m) now (S k))
  ∧ NoDup (posted_ids (run_events events unmounted)).
Proof.
  destruct (posted_ok_run events) as [Hlen Hnamed _ _].
  split_and!; [done..|].
  apply NoDup_alt. intros i j requestId. unfold posted_ids.
  rewrite !list_lookup_fmap.
  destruct (outbox _ !! i) as [[w m]|] eqn:Hi; [|done].
  destruct (outbox _ !! j) as [[w' m']|] eqn:Hj; [|done].
  cbn. intros [= <-] [= Heq].
  destruct (Hnamed _ _ _ Hi) as (_ & now & Hm).
  destruct (Hnamed _ _ _ Hj) as (_ & now' & Hm').
  rewrite Hm, Hm' in Heq. apply make_requestId_inj in Heq. lia.
Qed.

Lemma messages_follow_counter_witness :
  outbox (run_events hovering unmounted) !! 1%nat
    = Some (1%nat, {| msg_type := hover;
                      msg_data := {| pl_code := Some "x = 1"; pl_line := Some 3;
                                     pl_column := Some 4 |};
                      msg_requestId := "hover-2000-2" |})
  ∧ (1 ≤ 1 ≤ spawned (run_events hovering unmounted))%nat
  ∧ ∃ now, "hover-2000-2" = make_requestId hover now 2.
Proof.
  assert (outbox (run_events hovering unmounted) !! 1%nat
          = Some (1%nat, {| msg_type := hover;
                            msg_data := {| pl_code := Some "x = 1"; pl_line := Some 3;
                                           pl_column := Some 4 |};
                            msg_requestId := "hover-2000-2" |})) as H
    by (vm_compute; reflexivity).
  split; [exact H|].
  exact (proj1 (proj2 (messages_follow_counter hovering)) _ _ _ H).
Defined.

(** The first message a worker gets is the [initialize] request with an
    empty payload, whatever else the component does: for every worker
    created in a run, the first message posted to it is that request.  And
    only the worker created last is ever attached. *)
Theorem worker_greeted_with_initialize events worker :
  (1 ≤ worker ≤ spawned (run_events events unmounted))%nat →
  (∃ m, first_to worker (outbox (run_events events unmounted)) = Some m
        ∧ msg_type m = initialize ∧ msg_data m = no_payload)
  ∧ (∀ attached, workerRef (run_events events unmounted) = Some attached →
                 attached = spawned (run_events events unmounted)).
Proof.
  destruct (posted_ok_run events) as [_ _ Hlatest Hgreeted].
  intros Hw. split; [by apply Hgreeted|].
  intros attached Ha. by apply Hlatest.
Qed.

Lemma worker_greeted_with_initialize_witness :
  (1 ≤ 2 ≤ spawned
             (run_events (hovering ++ [CleanupRuns; EffectRuns "python" 3000]) unmounted))%nat
  ∧ ∃ m, first_to 2 (outbox (run_events
                               (hovering ++ [CleanupRuns; EffectRuns "python" 3000])
                               unmounted)) = Some m
         ∧ msg_type m = initialize ∧ msg_data m = no_payload.
Proof.
  assert (1 ≤ 2 ≤ spawned
            (run_events (hovering ++ [CleanupRuns; EffectRuns "python" 3000]) unmounted))%nat
    as H by (vm_compute; lia).
  split; [exact H|].
  exact (proj1 (worker_greeted_with_initialize _ 2%nat H)).
Defined.

(** Without a worker nothing is sent: from a state with no worker
    attached, as long as the worker effect does not run for Python, no
    event posts a message, counts a request, files an entry or arms a
    timer, and no worker gets attached. *)
Theorem nothing_posted_without_worker events st :
  workerRef st = None →
  forallb (λ e, negb (spawns e)) events = true →
  outbox (run_events events st) = outbox st
  ∧ requestIdCounter (run_events events st) = requestIdCounter st
  ∧ workerRef (run_events events st) = None
  ∧ pendingRequests (run_events events st) ⊆ pendingRequests st
  ∧ timers (run_events events st) ⊆ timers st.
Proof.
  revert st. induction events as [|e events IH]; intros st Hw Hev; [done|].
  cbn in *. apply andb_true_iff in Hev as [He Hev].
  apply negb_true_iff in He.
  destruct (detached_step e st Hw He) as (Hout & Hcnt & Hw').
  destruct (step_shrinks e st Hcnt) as [Hp Ht].
  destruct (IH (step e st) Hw' Hev) as (-> & -> & -> & Hp' & Ht').
  split_and!; [done..| |]; by etrans.
Qed.

Lemma nothing_posted_without_worker_witness :
  outbox (run_events [HoverTriggered "x = 1" cursor 3000;
                      EditorChanged (Some "x = 2") 3100;
                      Calls definition no_payload 3200;
                      TimerFires 2] torn_down)
    = outbox torn_down.
Proof.
  refine (proj1 (nothing_posted_without_worker _ torn_down _ _));
    vm_compute; reflexivity.
Defined.

(** Every entry of the table has its own timer and its own promise: in
    every state the component reaches, a request in the table under
    [requestId] with promise [n] has timer [n] armed for 5000 ms with that
    id, its promise is not resolved, its id is built from [n], and no
    other id in the table leads to promise [n]. *)
Theorem pending_request_is_armed events requestId n :
  pendingRequests (run_events events unmounted) !! requestId = Some n →
  timers (run_events events unmounted) !! n
    = Some {| timer_requestId := requestId; timer_delay := 5000 |}
  ∧ (n ∉ resolved_promises (run_events events unmounted))
  ∧ (n ≤ requestIdCounter (run_events events unmounted))%nat
  ∧ (∃ type now, requestId = make_requestId type now n)
  ∧ (∀ requestId',
       pendingRequests (run_events events unmounted) !! requestId' = Some n →
       requestId' = requestId).
Proof.
  intros Hid.
  pose proof (consistent_run events unmounted consistent_unmounted) as Hst.
  pose proof (pending_armed _ Hst _ _ Hid) as Ht.
  destruct (timer_named _ Hst _ _ Ht) as (Hn & _ & type & now & Hname).
  split_and!; [done| |done|by exists type, now|].
  - by apply (timer_unresolved _ Hst).
  - intros requestId' Hid'. pose proof (pending_armed _ Hst _ _ Hid') as Ht'.
    rewrite Ht in Ht'. by injection Ht' as ->.
Qed.

Lemma pending_request_is_armed_witness :
  pendingRequests (run_events hovering unmounted) !! "hover-2000-2" = Some 2%nat
  ∧ timers (run_events hovering unmounted) !! 2%nat
    = Some {| timer_requestId := "hover-2000-2"; timer_delay := 5000 |}.
Proof.
  assert (pendingRequests (run_events hovering unmounted) !! "hover-2000-2"
          = Some 2%nat) as H by (vm_compute; reflexivity).
  split; [exact H|].
  exact (proj1 (pending_request_is_armed hovering _ _ H)).
Defined.

(** No cross-talk between requests: whenever a promise was resolved with
    a response, that response carries the id that the promise's own call
    built from its counter value; and a promise is resolved at most
    once. *)
Theorem promise_gets_own_response events n response :
  (n, Some response) ∈ settled (run_events events unmounted) →
  (∃ type now, response_id response = make_requestId type now n)
  ∧ (∀ value, (n, value) ∈ settled (run_events events unmounted) →
              value = Some response).
Proof.
  intros Hin. split; [by apply (settled_named_run events)|].
  intros value Hin'.
  pose proof (consistent_run events unmounted consistent_unmounted) as Hst.
  pose proof (resolved_once _ Hst) as Hnd. unfold resolved_promises in Hnd.
  exact (NoDup_fst_unique _ _ _ _ Hnd Hin' Hin).
Qed.

Lemma promise_gets_own_response_witness :
  ∃ type now, "initialize-1000-1" = make_requestId type now 1.
Proof.
  refine (proj1 (promise_gets_own_response getting_ready 1%nat
                   (RespInitialized "initialize-1000-1" true None) _)).
  vm_compute. constructor.
Defined.

(** An [initialized] message counts even when it comes too late: when
    the timer of a pending request fires, its promise is resolved to
    [null]; an [initialized] message that arrives for that request
    afterwards resolves nothing, and still sets [isWorkerReady] to the
    success it reports. *)
Theorem late_initialized_counts events later requestId n success error :
  pendingRequests (run_events events unmounted) !! requestId = Some n →
  forallb (leaves_alone requestId n) later = true →
  head (settled (run_events (events ++ later ++ [TimerFires n]) unmounted))
    = Some (n, None)
  ∧ settled (run_events
               (events ++ later ++
                [TimerFires n;
                 MessageArrives (RespInitialized requestId success error)]) unmounted)
    = settled (run_events (events ++ later ++ [TimerFires n]) unmounted)
  ∧ isWorkerReady
      (run_events
         (events ++ later ++
          [TimerFires n;
           MessageArrives (RespInitialized requestId success error)]) unmounted)
    = success.
Proof.
  intros Hid Hlater. rewrite !run_events_app.
  pose proof (consistent_run events unmounted consistent_unmounted) as Hst.
  pose proof (consistent_run later _ Hst) as Hst'.
  pose proof (pending_stays _ _ later _ Hst Hid Hlater) as Hid'.
  pose proof (pending_armed _ Hst' _ _ Hid') as Ht.
  destruct (timer_fires_pending n _ _ Ht) as (Hs & Hgone & _); [by eexists|].
  cbn [run_events step timer_requestId] in *. split_and!.
  - by rewrite Hs.
  - by apply onmessage_absent.
  - apply initialized_sets_ready.
Qed.

Lemma late_initialized_counts_witness :
  isWorkerReady
    (run_events
       ([EffectRuns "python" 1000] ++ [] ++
        [TimerFires 1;
         MessageArrives (RespInitialized "initialize-1000-1" true None)]) unmounted)
    = true.
Proof.
  refine (proj2 (proj2 (late_initialized_counts [EffectRuns "python" 1000] []
                          "initialize-1000-1" 1%nat true None _ _)));
    vm_compute; reflexivity.
Defined.

(** The component never asks for definitions and never posts a request
    the worker could not read: in a run in which [callWorker] is called
    only by the worker effect, the two providers and the change handler,
    every message posted is an [initialize], [analyze], [completion] or
    [hover] request with the fields of [data] that the worker's case for
    it reads, and an [analyze] request never carries empty code. *)
Theorem component_messages_well_formed events :
  forallb of_component events = true →
  Forall (λ x, well_formed (snd x)) (outbox (run_events events unmounted)).
Proof.
  intros Hev.
  enough (∀ st, Forall (λ x, well_formed (snd x)) (outbox st) →
                Forall (λ x, well_formed (snd x)) (outbox (run_events events st)))
    as H by (apply H; constructor).
  induction events as [|e events IH]; intros st Hst; [done|].
  cbn in *. apply andb_true_iff in Hev as [He Hev]. apply IH; [done|].
  pose proof (step_call e st) as Hcall.
  destruct (call_of e st) as [[[[worker type] payload] now]|] eqn:Hc.
  - destruct Hcall as (-> & _). apply Forall_app. split; [done|].
    apply Forall_singleton. cbn. by apply (call_of_well_formed e st worker _ _ now).
  - by destruct Hcall as (-> & _).
Qed.

Lemma component_messages_well_formed_witness :
  Forall (λ x, well_formed (snd x)) (outbox (run_events hovering unmounted)).
Proof.
  apply (component_messages_well_formed hovering). vm_compute. reflexivity.
Defined.


(** * Requests from the editor to Jedi and back *)

(** A call on an attached worker hands back its promise, posts its
    message last, and the response with the call's id resolves the
    promise. *)
Lemma call_answered type payload now st worker r :
  workerRef st = Some worker →
  response_id r = next_requestId type now st →
  callWorker type payload now st
    = (fst (callWorker type payload now st), Awaiting (S (requestIdCounter st)))
  ∧ last (outbox (fst (callWorker type payload now st)))
    = Some (worker, {| msg_type := type; msg_data := payload;
                       msg_requestId := next_requestId type now st |})
  ∧ settled (worker_onmessage r (fst (callWorker type payload now st)))
    = (S (requestIdCounter st), Some r) :: settled st.
Proof.
  intros Hw Hr. rewrite (callWorker_attached _ _ _ _ worker Hw). cbn.
  split_and!; [done|apply last_snoc|].
  match goal with |- settled (worker_onmessage r ?st1) = _ =>
    destruct (onmessage_pending r (S (requestIdCounter st)) st1) as (-> & _)
  end; [rewrite Hr; apply make_requestId_truthy| |done].
  cbn. rewrite Hr. apply lookup_insert_eq.
Qed.

(** A hover from the editor to Jedi and back.  The component is attached
    and ready; the worker has its flag set and an interpreter in which the
    bootstrap script has run, and the interpreter runs [get_hover]; the
    position is one of Monaco (lines and columns from 1).
    Then [provideHover] waits for the promise of its call; the message it
    posted is a hover request the worker reads; the worker sets the
    globals to the line of the editor and the column less one, unclamped,
    asks Jedi there and posts one response; that response resolves the
    promise of the call; and with it the provider shows the markdown that
    [getHover] rendered from Jedi's first name, or nothing when Jedi finds
    no name. *)
Theorem hover_round_trip w s p st worker value position now :
  workerRef st = Some worker →
  workerReadyRef st = true →
  pyodide s = Some p →
  bootstrap p = Some 50%nat →
  jediInitialized s = true →
  runPython_fault w (PyExpr "get_hover(user_code, user_line, user_column)") = None →
  1 ≤ lineNumber position →
  1 ≤ column position →
  ∃ st1 m req r,
    provideHover value position now st = (st1, Awaiting (S (requestIdCounter st)))
    ∧ last (outbox st1) = Some (worker, m)
    ∧ to_request m = Some req
    ∧ effects_of w req s
      = [GlobalsSet "user_code" (PyStr value);
         GlobalsSet "user_line" (PyInt (lineNumber position));
         GlobalsSet "user_column" (PyInt (column position - 1));
         RunPython (PyExpr "get_hover(user_code, user_line, user_column)");
         JediHelp value (lineNumber position) (column position - 1);
         PostMessage r]
    ∧ settled (worker_onmessage r st1) = (S (requestIdCounter st), Some r) :: settled st
    ∧ hover_contents (Some r)
      = contents_value <$>
          rendered (hover_result w value (lineNumber position) (column position - 1)).
Proof.
  intros Hw Hready Hp Hb Hj Hfault Hline Hcol.
  set (payload := {| pl_code := Some value; pl_line := Some (lineNumber position);
                     pl_column := Some (column position - 1) |}).
  set (r := RespHover (next_requestId hover now st)
              (rendered (hover_result w value (lineNumber position)
                           (column position - 1)))).
  destruct (call_answered hover payload now st worker r Hw eq_refl)
    as (Hcall & Hlast & Hsettled).
  exists (fst (callWorker hover payload now st)),
    {| msg_type := hover; msg_data := payload;
       msg_requestId := next_requestId hover now st |},
    (ReqHover (next_requestId hover now st) value (lineNumber position)
       (column position - 1)), r.
  split_and!; [|done|done| |done|].
  - unfold provideHover. rewrite Hready. cbn. fold payload. by rewrite Hcall.
  - apply effects_of_eq.
    rewrite (hover_when_ready _ _ _ _ _ _ p), Hfault, Hb by done.
    unfold cursor_effects. by rewrite !Z.max_r by lia.
  - subst r. cbn. by destruct (hover_result w value _ _).
Qed.

Lemma hover_round_trip_witness :
  ∃ st1 m req r,
    provideHover "foo" cursor 2000 ready_component = (st1, Awaiting 2%nat)
    ∧ last (outbox st1) = Some (1%nat, m)
    ∧ to_request m = Some req
    ∧ effects_of (foo_world 3) req ready_worker
      = [GlobalsSet "user_code" (PyStr "foo");
         GlobalsSet "user_line" (PyInt 3);
         GlobalsSet "user_column" (PyInt 4);
         RunPython (PyExpr "get_hover(user_code, user_line, user_column)");
         JediHelp "foo" 3 4;
         PostMessage r]
    ∧ settled (worker_onmessage r st1)
      = (2%nat, Some r) :: settled ready_component
    ∧ hover_contents (Some r)
      = contents_value <$> rendered (hover_result (foo_world 3) "foo" 3 4).
Proof.
  apply (hover_round_trip (foo_world 3) ready_worker
           {| globals := ∅; bootstrap := Some 50%nat |}
           ready_component 1%nat "foo" cursor 2000);
    vm_compute; first [reflexivity | discriminate].
Defined.

(** A completion from the editor to Jedi and back, under the same
    conditions: the provider waits for its call; the worker asks Jedi at
    the line of the editor and the column less one and posts one response,
    which resolves the promise of the call; and the provider turns it into
    one suggestion per item Jedi's candidates gave, in their order, at most
    50, each over the range from the start of the word to the cursor. *)
Theorem completion_round_trip w s p st worker value position wordStart now :
  workerRef st = Some worker →
  workerReadyRef st = true →
  pyodide s = Some p →
  bootstrap p = Some 50%nat →
  jediInitialized s = true →
  runPython_fault w (PyExpr "get_completions(user_code, user_line, user_column)")
    = None →
  1 ≤ lineNumber position →
  1 ≤ column position →
  ∃ st1 m req r,
    provideCompletionItems value position wordStart now st
      = (st1, Awaiting (S (requestIdCounter st)))
    ∧ last (outbox st1) = Some (worker, m)
    ∧ to_request m = Some req
    ∧ effects_of w req s
      = [GlobalsSet "user_code" (PyStr value);
         GlobalsSet "user_line" (PyInt (lineNumber position));
         GlobalsSet "user_column" (PyInt (column position - 1));
         RunPython (PyExpr "get_completions(user_code, user_line, user_column)");
         JediComplete value (lineNumber position) (column position - 1);
         PostMessage r]
    ∧ settled (worker_onmessage r st1) = (S (requestIdCounter st), Some r) :: settled st
    ∧ completion_suggestions (Some r) wordStart position
      = suggestion {| startLineNumber := lineNumber position;
                      startColumn := wordStart;
                      endLineNumber := lineNumber position;
                      endColumn := column position |}
          <$> completion_results w 50 value (lineNumber position) (column position - 1)
    ∧ (length (completion_suggestions (Some r) wordStart position) ≤ 50)%nat.
Proof.
  intros Hw Hready Hp Hb Hj Hfault Hline Hcol.
  set (payload := {| pl_code := Some value; pl_line := Some (lineNumber position);
                     pl_column := Some (column position - 1) |}).
  set (r := RespCompletion (next_requestId completion now st)
              (completion_results w 50 value (lineNumber position)
                 (column position - 1))).
  destruct (call_answered completion payload now st worker r Hw eq_refl)
    as (Hcall & Hlast & Hsettled).
  exists (fst (callWorker completion payload now st)),
    {| msg_type := completion; msg_data := payload;
       msg_requestId := next_requestId completion now st |},
    (ReqCompletion (next_requestId completion now st) value (lineNumber position)
       (column position - 1)), r.
  split_and!; [|done|done| |done|done|].
  - unfold provideCompletionItems. rewrite Hready. cbn. fold payload.
    by rewrite Hcall.
  - apply effects_of_eq.
    rewrite (completion_when_ready _ _ _ _ _ _ p), Hfault, Hb by done.
    unfold cursor_effects. by rewrite !Z.max_r by lia.
  - subst r. cbn. rewrite length_fmap. apply completion_results_length.
Qed.

Lemma completion_round_trip_witness :
  ∃ st1 m req r,
    provideCompletionItems "fo" cursor 3 2000 ready_component
      = (st1, Awaiting 2%nat)
    ∧ last (outbox st1) = Some (1%nat, m)
    ∧ to_request m = Some req
    ∧ effects_of (foo_world 60) req ready_worker
      = [GlobalsSet "user_code" (PyStr "fo");
         GlobalsSet "user_line" (PyInt 3);
         GlobalsSet "user_column" (PyInt 4);
         RunPython (PyExpr "get_completions(user_code, user_line, user_column)");
         JediComplete "fo" 3 4;
         PostMessage r]
    ∧ settled (worker_onmessage r st1)
      = (2%nat, Some r) :: settled ready_component
    ∧ completion_suggestions (Some r) 3 cursor
      = suggestion {| startLineNumber := 3; startColumn := 3;
                      endLineNumber := 3; endColumn := 5 |}
          <$> completion_results (foo_world 60) 50 "fo" 3 4
    ∧ (length (completion_suggestions (Some r) 3 cursor) ≤ 50)%nat.
Proof.
  apply (completion_round_trip (foo_world 60) ready_worker
           {| globals := ∅; bootstrap := Some 50%nat |}
           ready_component 1%nat "fo" cursor 3 2000);
    vm_compute; first [reflexivity | discriminate].
Defined.

(** An analysis from the editor to parso and back.  The component is
    attached and ready, the worker has its flag set and an interpreter in
    which the bootstrap script has run, the interpreter runs
    [get_diagnostics], and the document is not empty.  Then the change
    handler waits for its call; the worker parses exactly the text of the
    editor and posts one response, which resolves the promise of the call;
    and with it the handler sets one marker for each error parso
    reported. *)
Theorem analysis_round_trip w s p st worker code now :
  workerRef st = Some worker →
  isWorkerReady st = true →
  truthy code = true →
  pyodide s = Some p →
  bootstrap p = Some 50%nat →
  jediInitialized s = true →
  runPython_fault w (PyExpr "get_diagnostics(user_code)") = None →
  ∃ st1 m req r,
    handleEditorChange (Some code) now st = (st1, Awaiting (S (requestIdCounter st)))
    ∧ last (outbox st1) = Some (worker, m)
    ∧ to_request m = Some req
    ∧ effects_of w req s
      = [GlobalsSet "user_code" (PyStr code);
         RunPython (PyExpr "get_diagnostics(user_code)");
         ParsoParse code;
         PostMessage r]
    ∧ settled (worker_onmessage r st1) = (S (requestIdCounter st), Some r) :: settled st
    ∧ analysis_markers (Some r) = Some (marker <$> diagnostic_results w code).
Proof.
  intros Hw Hready Hcode Hp Hb Hj Hfault.
  set (payload := {| pl_code := Some code; pl_line := None; pl_column := None |}).
  set (r := RespAnalysis (next_requestId analyze now st) (diagnostic_results w code)).
  destruct (call_answered analyze payload now st worker r Hw eq_refl)
    as (Hcall & Hlast & Hsettled).
  exists (fst (callWorker analyze payload now st)),
    {| msg_type := analyze; msg_data := payload;
       msg_requestId := next_requestId analyze now st |},
    (ReqAnalyze (next_requestId analyze now st) code), r.
  split_and!; [|done|done| |done|done].
  - unfold handleEditorChange. rewrite Hready, Hcode. cbn. fold payload.
    by rewrite Hcall.
  - apply effects_of_eq.
    by rewrite (analyze_when_ready _ _ _ _ p), Hfault, Hb by done.
Qed.

Lemma analysis_round_trip_witness :
  ∃ st1 m req r,
    handleEditorChange (Some "x = 1") 2000 (step ReadyEffectRuns ready_component)
      = (st1, Awaiting 2%nat)
    ∧ last (outbox st1) = Some (1%nat, m)
    ∧ to_request m = Some req
    ∧ effects_of calm req ready_worker
      = [GlobalsSet "user_code" (PyStr "x = 1");
         RunPython (PyExpr "get_diagnostics(user_code)");
         ParsoParse "x = 1";
         PostMessage r]
    ∧ settled (worker_onmessage r st1)
      = (2%nat, Some r) :: settled (step ReadyEffectRuns ready_component)
    ∧ analysis_markers (Some r) = Some (marker <$> diagnostic_results calm "x = 1").
Proof.
  apply (analysis_round_trip calm ready_worker
           {| globals := ∅; bootstrap := Some 50%nat |}
           (step ReadyEffectRuns ready_component) 1%nat "x = 1" 2000);
    vm_compute; first [reflexivity | discriminate].
Defined.


(** * The editor component as a whole *)

Import Editor.

(** ** What the continuations leave alone *)

Lemma updateDiagnostics_frame diagnostics c :
  bridge (updateDiagnostics diagnostics c) = bridge c
  ∧ providers (updateDiagnostics diagnostics c) = providers c
  ∧ providerDisposables (updateDiagnostics diagnostics c) = providerDisposables c
  ∧ awaiting (updateDiagnostics diagnostics c) = awaiting c
  ∧ delivered (updateDiagnostics diagnostics c) = delivered c.
Proof.
  unfold updateDiagnostics.
  destruct (monacoRef c); [|done]. destruct (editorRef c) as [editor|]; [|done].
  by destruct (models c !! editor).
Qed.

Lemma then_diagnose_frame response c :
  bridge (then_diagnose response c) = bridge c
  ∧ providers (then_diagnose response c) = providers c
  ∧ providerDisposables (then_diagnose response c) = providerDisposables c
  ∧ awaiting (then_diagnose response c) = awaiting c
  ∧ delivered (then_diagnose response c) = delivered c.
Proof.
  destruct response as [[]|]; cbn; try done. apply updateDiagnostics_frame.
Qed.

Lemma continue_frame n value c :
  bridge (continue n value c) = bridge c
  ∧ providers (continue n value c) = providers c
  ∧ providerDisposables (continue n value c) = providerDisposables c.
Proof.
  unfold continue. destruct (awaiting c !! n) as [[wordStart position| |]|]; try done.
  destruct (then_diagnose_frame value (set_awaiting (delete n (awaiting c)) c))
    as (-> & -> & -> & _). done.
Qed.

Lemma continue_awaiting n value c k :
  k ≠ n → awaiting (continue n value c) !! k = awaiting c !! k.
Proof.
  intros Hk. unfold continue.
  destruct (awaiting c !! n) as [[wordStart position| |]|]; try done; cbn;
    try by rewrite lookup_delete_ne.
  destruct (then_diagnose_frame value (set_awaiting (delete n (awaiting c)) c))
    as (_ & _ & _ & -> & _). cbn. by rewrite lookup_delete_ne.
Qed.

Lemma foldr_continue_frame c l :
  bridge (foldr (λ x c, continue (fst x) (snd x) c) c l) = bridge c
  ∧ providers (foldr (λ x c, continue (fst x) (snd x) c) c l) = providers c
  ∧ providerDisposables (foldr (λ x c, continue (fst x) (snd x) c) c l)
    = providerDisposables c.
Proof.
  induction l as [|x l IH]; [done|]. cbn.
  destruct (continue_frame x.1 x.2 (foldr (λ x c, continue x.1 x.2 c) c l))
    as (-> & -> & ->). exact IH.
Qed.

Lemma run_continuations_frame before c :
  bridge (run_continuations before c) = bridge c
  ∧ providers (run_continuations before c) = providers c
  ∧ providerDisposables (run_continuations before c) = providerDisposables c.
Proof. apply foldr_continue_frame. Qed.

(** The promises a step of the bridge resolved: none, or the one at the
    head. *)
Lemma newly_settled_none before after :
  settled after = settled before → newly_settled before after = [].
Proof. unfold newly_settled. intros ->. by rewrite Nat.sub_diag. Qed.

Lemma newly_settled_one before after x :
  settled after = x :: settled before → newly_settled before after = [x].
Proof.
  unfold newly_settled. intros ->. cbn [length].
  replace (S (length (settled before)) - length (settled before))%nat with 1%nat by lia.
  done.
Qed.

(** ** The component and its bridge *)

(** The bridge of the component takes the steps of the bridge. *)
Lemma step_bridge e c :
  bridge (step e c)
    = match to_bridge e c with
      | Some b => Bridge.step b (bridge c)
      | None => bridge c
      end.
Proof.
  destruct e as [editor language|editor model|language now| | |value now
    |value position wordStart now|value position now|message|n]; cbn.
  - unfold handleEditorDidMount. by case_decide.
  - done.
  - unfold worker_effect, Bridge.worker_effect. by case_decide.
  - done.
  - done.
  - unfold handleEditorChange, Bridge.handleEditorChange.
    destruct value as [text|]; [|done]. cbn.
    destruct (isWorkerReady (bridge c) && truthy text); [|done].
    destruct (callWorker _ _ _ _) as [st [response|n]]; [|done].
    by destruct (then_diagnose_frame response (set_bridge st (onChange (Some text) c)))
      as (-> & _).
  - unfold asks_completion. destruct (has_provider _ c); [|done]. cbn.
    unfold provideCompletionItems.
    destruct (negb (workerReadyRef (bridge c))); [done|].
    by destruct (callWorker _ _ _ _) as [st [response|n]].
  - unfold asks_hover. destruct (has_provider _ c); [|done]. cbn.
    unfold provideHover.
    destruct (negb (workerReadyRef (bridge c))); [done|].
    by destruct (callWorker _ _ _ _) as [st [response|n]].
  - unfold onmessage. by destruct (run_continuations_frame (bridge c)
      (set_bridge (worker_onmessage message (bridge c)) c)) as (-> & _).
  - unfold timeout. by destruct (run_continuations_frame (bridge c)
      (set_bridge (timer_fires n (bridge c)) c)) as (-> & _).
Qed.

(** Steps of the component are steps of the bridge that the component
    itself gives rise to. *)
Lemma to_bridge_of_component e c b :
  to_bridge e c = Some b → of_component b = true.
Proof.
  destruct e; cbn; try (by intros [= <-]); try done.
  - by destruct (has_provider _ c); intros [= <-].
  - by destruct (has_provider _ c); intros [= <-].
Qed.

Lemma bridge_reachable initialCode events :
  ∃ bs, bridge (run events (fresh initialCode)) = run_events bs unmounted
        ∧ forallb of_component bs = true.
Proof.
  enough (∀ c bs0,
            bridge c = run_events bs0 unmounted → forallb of_component bs0 = true →
            ∃ bs, bridge (run events c) = run_events bs unmounted
                  ∧ forallb of_component bs = true) as H
    by (apply (H _ []); done).
  induction events as [|e events IH]; intros c bs0 Hc Hbs0; [by exists bs0|].
  cbn. destruct (to_bridge e c) as [b|] eqn:Hb.
  - apply (IH _ (bs0 ++ [b])).
    + by rewrite step_bridge, Hb, run_events_app, <- Hc.
    + rewrite forallb_app, Hbs0. cbn. by rewrite (to_bridge_of_component e c b).
  - apply (IH _ bs0); [|done]. by rewrite step_bridge, Hb.
Qed.

Lemma bridge_consistent initialCode events :
  consistent (bridge (run events (fresh initialCode))).
Proof.
  destruct (bridge_reachable initialCode events) as (bs & -> & _).
  apply consistent_run, consistent_unmounted.
Qed.


(** ** Providers *)

Lemma dispose_none (disposables : list nat) :
  foldl (λ registered disposable, delete disposable registered)
    (∅ : gmap nat ProviderKind) disposables = ∅.
Proof. induction disposables as [|h l IH]; [done|]. cbn. by rewrite delete_empty. Qed.

Lemma dispose_pair (h : nat) :
  delete (S h) (delete h (<[S h := HoverProvider]>
                            ({[h := CompletionItemProvider]} : gmap nat ProviderKind)))
    = ∅.
Proof.
  apply map_eq. intros i. rewrite lookup_empty.
  destruct (decide (i = S h)) as [->|Hi]; [by rewrite lookup_delete_eq|].
  rewrite lookup_delete_ne by done.
  destruct (decide (i = h)) as [->|Hi']; [by rewrite lookup_delete_eq|].
  rewrite lookup_delete_ne, lookup_insert_ne, lookup_singleton_ne by done. done.
Qed.

Lemma tidy_dispose c :
  tidy c →
  providerDisposables (disposeProviders c) = []
  ∧ providers (disposeProviders c) = ∅.
Proof.
  intros [[Hd Hp]|(h & Hd & Hp)]; unfold disposeProviders; cbn; rewrite Hd, Hp; cbn.
  - done.
  - by rewrite dispose_pair.
Qed.

Lemma tidy_register c : tidy c → tidy (registerProviders c).
Proof.
  intros Hc. destruct (tidy_dispose c Hc) as [_ Hp].
  right. exists (S (registrations c)). unfold registerProviders.
  cbn [providerDisposables providers set_providers].
  split; [done|]. rewrite Hp. by rewrite insert_empty.
Qed.

Lemma tidy_frame c c' :
  providerDisposables c' = providerDisposables c →
  providers c' = providers c →
  tidy c → tidy c'.
Proof. unfold tidy. by intros -> ->. Qed.

(** What a step does to the providers: it leaves them, disposes of them,
    or (the mount under Python) registers them anew. *)
Lemma step_providers e c :
  (providerDisposables (step e c) = providerDisposables c
   ∧ providers (step e c) = providers c)
  ∨ (providerDisposables (step e c) = providerDisposables (disposeProviders c)
     ∧ providers (step e c) = providers (disposeProviders c)
     ∧ mounts_python e = false)
  ∨ (∃ editor, step e c = registerProviders (set_refs editor c)
               ∧ mounts_python e = true).
Proof.
  destruct e as [editor language|editor model|language now| | |value now
    |value position wordStart now|value position now|message|n]; cbn.
  - unfold handleEditorDidMount. case_decide.
    + right. right. exists editor. by rewrite bool_decide_eq_true_2.
    + by left.
  - by left.
  - unfold worker_effect. case_decide; [by left|]. right. by left.
  - right. by left.
  - by left.
  - left. unfold handleEditorChange. destruct value as [text|]; [|done]. cbn.
    destruct (isWorkerReady (bridge c) && truthy text); [|done].
    destruct (callWorker _ _ _ _) as [st [response|n]]; [|done].
    by destruct (then_diagnose_frame response (set_bridge st (onChange (Some text) c)))
      as (_ & -> & -> & _).
  - left. unfold asks_completion. destruct (has_provider _ c); [|done].
    by destruct (provideCompletionItems _ _ _ _ _) as [st [suggestions|n]].
  - left. unfold asks_hover. destruct (has_provider _ c); [|done].
    by destruct (provideHover _ _ _ _) as [st [contents|n]].
  - left. unfold onmessage. by destruct (run_continuations_frame (bridge c)
      (set_bridge (worker_onmessage message (bridge c)) c)) as (_ & -> & ->).
  - left. unfold timeout. by destruct (run_continuations_frame (bridge c)
      (set_bridge (timer_fires n (bridge c)) c)) as (_ & -> & ->).
Qed.

Lemma tidy_step e c : tidy c → tidy (step e c).
Proof.
  intros Hc. destruct (step_providers e c) as [[Hd Hp]|[(Hd & Hp & _)|(editor & -> & _)]].
  - by apply (tidy_frame c).
  - left. destruct (tidy_dispose c Hc) as [Hd' Hp']. split; congruence.
  - apply tidy_register. by apply (tidy_frame c).
Qed.

Lemma run_ind (P : Component → Prop) :
  (∀ e c, P c → P (step e c)) → ∀ events c, P c → P (run events c).
Proof.
  intros Hstep events. induction events as [|e events IH]; intros c Hc; [done|].
  cbn. by apply IH, Hstep.
Qed.

Lemma has_provider_none k c : providers c = ∅ → has_provider k c = false.
Proof.
  intros Hp. unfold has_provider. rewrite Hp, map_to_list_empty.
  apply bool_decide_eq_false_2. cbn. by intros ?%elem_of_nil.
Qed.

Lemma has_provider_pair k h c :
  providers c = <[S h := HoverProvider]> {[h := CompletionItemProvider]} →
  has_provider k c = true.
Proof.
  intros Hp. unfold has_provider. apply bool_decide_eq_true_2.
  apply list_elem_of_fmap. rewrite Hp. destruct k.
  - exists (h, CompletionItemProvider). split; [done|].
    apply elem_of_map_to_list. rewrite lookup_insert_ne by lia.
    apply lookup_singleton_eq.
  - exists (S h, HoverProvider). split; [done|].
    apply elem_of_map_to_list. apply lookup_insert_eq.
Qed.

(** * Properties of the component as a whole *)

(** Providers never pile up: however often the editor mounts and the
    worker effect and its cleanup run, Monaco holds either no provider of
    the component or exactly one completion provider and one hover
    provider, and these are the two whose disposables the component
    keeps; so the component can always dispose of everything it
    registered, and a provider is registered if and only if the other
    is. *)
Theorem providers_never_pile_up initialCode events :
  tidy (run events (fresh initialCode))
  ∧ has_provider CompletionItemProvider (run events (fresh initialCode))
    = has_provider HoverProvider (run events (fresh initialCode))
  ∧ providers (disposeProviders (run events (fresh initialCode))) = ∅.
Proof.
  assert (tidy (run events (fresh initialCode))) as Hc.
  { apply run_ind; [apply tidy_step|]. by left. }
  split_and!; [done| |by apply tidy_dispose].
  destruct Hc as [[_ Hp]|(h & _ & Hp)].
  - by rewrite !has_provider_none.
  - by rewrite !(has_provider_pair _ h).
Qed.


(** What a step posts. *)
Lemma step_posts e c :
  ∃ new,
    outbox (bridge (step e c)) = outbox (bridge c) ++ new
    ∧ (providers c = ∅ →
       Forall (λ x, provider_free (msg_type (snd x)) = true) new).
Proof.
  rewrite step_bridge. destruct (to_bridge e c) as [b|] eqn:Hb;
    [|exists []; by rewrite app_nil_r].
  pose proof (step_call b (bridge c)) as Hcall.
  destruct (call_of b (bridge c)) as [[[[worker type] payload] now]|] eqn:Hc.
  - destruct Hcall as (-> & _). eexists. split; [done|].
    intros Hp. apply Forall_singleton. cbn.
    destruct e as [editor language|editor model|language ?| | |value ?
      |value position wordStart ?|value position ?|message|n]; cbn in Hb;
      try rewrite has_provider_none in Hb by done; try done;
      injection Hb as <-; cbn in Hc.
    + case_decide; [|done]. by injection Hc as <- <- <- <-.
    + done.
    + done.
    + destruct value as [text|]; [|done].
      destruct (workerRef (bridge c)); [|done].
      destruct (isWorkerReady (bridge c) && truthy text); [|done].
      by injection Hc as <- <- <- <-.
    + done.
    + done.
  - destruct Hcall as (-> & _). exists []. by rewrite app_nil_r.
Qed.

(** Providers come with the mount, and with nothing else.  From a state
    in which Monaco holds no provider of the component (as after the
    cleanup of the worker effect, or after the effect ran for another
    language), as long as the editor does not mount under Python, no
    provider is registered, whatever else happens: not when the worker
    effect runs for Python again, and not when the new worker reports that
    it is ready.  And then the only requests sent are [initialize] and
    [analyze]. *)
Theorem providers_come_with_the_mount events c :
  providers c = ∅ →
  forallb (λ e, negb (mounts_python e)) events = true →
  providers (run events c) = ∅
  ∧ Forall (λ x, provider_free (msg_type (snd x)) = true)
      (drop (length (outbox (bridge c))) (outbox (bridge (run events c)))).
Proof.
  intros Hp Hev.
  enough (providers (run events c) = ∅
          ∧ ∃ new, outbox (bridge (run events c)) = outbox (bridge c) ++ new
                   ∧ Forall (λ x, provider_free (msg_type (snd x)) = true) new)
    as (? & new & -> & ?) by (by rewrite drop_app_length).
  revert c Hp. induction events as [|e events IH]; intros c Hp.
  { split; [done|]. exists []. by rewrite app_nil_r. }
  cbn in *. apply andb_true_iff in Hev as [He Hev]. apply negb_true_iff in He.
  assert (providers (step e c) = ∅) as Hp'.
  { destruct (step_providers e c) as [[_ ->]|[(_ & -> & _)|(editor & _ & He')]];
      [done| |congruence].
    unfold disposeProviders. cbn. rewrite Hp. apply dispose_none. }
  destruct (IH Hev (step e c) Hp') as (Hq & new' & -> & Hnew').
  destruct (step_posts e c) as (new & -> & Hnew).
  split; [done|]. exists (new ++ new'). rewrite app_assoc. split; [done|].
  apply Forall_app. split; [by apply Hnew|done].
Qed.

Lemma providers_come_with_the_mount_witness :
  providers (run [Effect "python" 3000;
                  Message (RespInitialized "initialize-3000-2" true None);
                  ReadyEffect;
                  AsksHover "x = 1" cursor 4000]
               (run (up ++ [Cleanup; Effect "plaintext" 2000]) (fresh "x = 1")))
    = ∅.
Proof.
  refine (proj1 (providers_come_with_the_mount _ _ _ _)); vm_compute; reflexivity.
Defined.

(** ** Markers *)

Lemma updateDiagnostics_markers diagnostics c :
  markers (updateDiagnostics diagnostics c) = markers c
  ∨ ∃ editor model,
      monacoRef c = true ∧ editorRef c = Some editor
      ∧ models c !! editor = Some model
      ∧ markers (updateDiagnostics diagnostics c)
        = <[model := marker <$> diagnostics]> (markers c).
Proof.
  unfold updateDiagnostics.
  destruct (monacoRef c); [|by left]. destruct (editorRef c) as [editor|]; [|by left].
  destruct (models c !! editor) as [model|] eqn:Hm; [|by left].
  right. by exists editor, model.
Qed.

Lemma continue_markers n value c :
  markers (continue n value c) = markers c
  ∨ ∃ requestId diagnostics editor model,
      value = Some (RespAnalysis requestId diagnostics)
      ∧ awaiting c !! n = Some ThenDiagnose
      ∧ monacoRef c = true ∧ editorRef c = Some editor
      ∧ models c !! editor = Some model
      ∧ markers (continue n value c) = <[model := marker <$> diagnostics]> (markers c).
Proof.
  unfold continue.
  destruct (awaiting c !! n) as [[wordStart position| |]|]; try by left.
  destruct value as [[| requestId diagnostics | | |]|]; try by left.
  cbn [then_diagnose].
  destruct (updateDiagnostics_markers diagnostics
              (set_awaiting (delete n (awaiting c)) c))
    as [->|(editor & model & ? & ? & ? & ->)]; [by left|].
  right. by exists requestId, diagnostics, editor, model.
Qed.

Lemma run_continuations_none before c :
  settled (bridge c) = settled before → run_continuations before c = c.
Proof. intros H. unfold run_continuations. by rewrite newly_settled_none. Qed.

Lemma run_continuations_one before c x :
  settled (bridge c) = x :: settled before →
  run_continuations before c = continue (fst x) (snd x) c.
Proof. intros H. unfold run_continuations. by rewrite (newly_settled_one _ _ x). Qed.

(** What a message and a timer do to the component: the step of the
    bridge, and then the continuation of the promise it resolved, if it
    resolved one. *)
Lemma onmessage_cases message c :
  onmessage message c = set_bridge (worker_onmessage message (bridge c)) c
  ∨ ∃ n, pendingRequests (bridge c) !! response_id message = Some n
         ∧ onmessage message c
           = continue n (Some message)
               (set_bridge (worker_onmessage message (bridge c)) c).
Proof.
  unfold onmessage.
  destruct (onmessage_core message (bridge c)) as [Hc|(n & Hn & _ & Hc)].
  - left. apply run_continuations_none. cbn. by apply core_eq in Hc as (_ & _ & _ & ->).
  - right. exists n. split; [done|].
    apply (run_continuations_one _ _ (n, Some message)). cbn.
    by apply core_is in Hc as (_ & _ & _ & ->).
Qed.

Lemma timeout_cases n c :
  timeout n c = set_bridge (timer_fires n (bridge c)) c
  ∨ (∃ t, timers (bridge c) !! n = Some t
          ∧ is_Some (pendingRequests (bridge c) !! timer_requestId t))
    ∧ timeout n c = continue n None (set_bridge (timer_fires n (bridge c)) c).
Proof.
  unfold timeout.
  destruct (timer_core n (bridge c)) as [Hc|(t & Hk & [[Hhas Hc]|[_ Hc]])].
  - left. apply run_continuations_none. cbn. by apply core_eq in Hc as (_ & _ & _ & ->).
  - right. split; [by exists t|].
    apply (run_continuations_one _ _ (n, None)). cbn.
    by apply core_is in Hc as (_ & _ & _ & ->).
  - left. apply run_continuations_none. cbn. by apply core_is in Hc as (_ & _ & _ & ->).
Qed.

(** Markers change in one way only: an analysis response arrives for a
    pending request whose promise the change handler awaits, while the
    component holds the editor and the editor shows a model; then the
    markers of that model become one marker per diagnostic of the
    response.  Every other step leaves all markers as they are: a change
    that empties the document, a timeout, the cleanup, a response of
    another type, a response that comes when the editor has no model. *)
Theorem markers_change_only_by_analysis e c :
  markers (step e c) = markers c
  ∨ ∃ requestId diagnostics n editor model,
      e = Message (RespAnalysis requestId diagnostics)
      ∧ pendingRequests (bridge c) !! requestId = Some n
      ∧ awaiting c !! n = Some ThenDiagnose
      ∧ monacoRef c = true
      ∧ editorRef c = Some editor
      ∧ models c !! editor = Some model
      ∧ markers (step e c) = <[model := marker <$> diagnostics]> (markers c).
Proof.
  destruct e as [editor language|editor model|language now| | |value now
    |value position wordStart now|value position now|message|n]; cbn [step].
  - left. unfold handleEditorDidMount. by case_decide.
  - by left.
  - left. unfold worker_effect. by case_decide.
  - by left.
  - by left.
  - left. unfold handleEditorChange. destruct value as [text|]; [|done].
    cbn [bridge onChange].
    destruct (isWorkerReady (bridge c) && truthy text); [|done].
    unfold callWorker. by destruct (workerRef (bridge c)).
  - left. unfold asks_completion. destruct (has_provider _ c); [|done].
    by destruct (provideCompletionItems _ _ _ _ _) as [st [suggestions|n]].
  - left. unfold asks_hover. destruct (has_provider _ c); [|done].
    by destruct (provideHover _ _ _ _) as [st [contents|n]].
  - destruct (onmessage_cases message c) as [->|(n & Hn & ->)]; [by left|].
    destruct (continue_markers n (Some message)
                (set_bridge (worker_onmessage message (bridge c)) c))
      as [->|(requestId & diagnostics & editor & model & Hv & Hk & ? & ? & ? & ->)];
      [by left|].
    right. injection Hv as ->. by exists requestId, diagnostics, n, editor, model.
  - left. destruct (timeout_cases n c) as [->|[_ ->]]; [done|].
    by destruct (continue_markers n None
                   (set_bridge (timer_fires n (bridge c)) c))
      as [->|(? & ? & ? & ? & ? & _)].
Qed.


(** ** Promises awaited *)

Lemma run_app events later c : run (events ++ later) c = run later (run events c).
Proof. revert c. induction events as [|e events IH]; intros c; [done|]. apply IH. Qed.

Lemma spares_leaves_alone requestId n e c b :
  spares requestId n e = true → to_bridge e c = Some b →
  leaves_alone requestId n b = true.
Proof.
  destruct e; cbn; try (by intros ? [= <-]); try done.
  - by destruct (has_provider _ c); intros ? [= <-].
  - by destruct (has_provider _ c); intros ? [= <-].
Qed.

(** A request in the table and the continuation that awaits its promise
    stay as long as no cleanup runs, no message for the request arrives
    and its timer does not fire. *)
Lemma awaited_step requestId n k e c :
  consistent (bridge c) →
  pendingRequests (bridge c) !! requestId = Some n →
  awaiting c !! n = Some k →
  spares requestId n e = true →
  consistent (bridge (step e c))
  ∧ pendingRequests (bridge (step e c)) !! requestId = Some n
  ∧ awaiting (step e c) !! n = Some k.
Proof.
  intros Hst Hid Hk He.
  assert (consistent (bridge (step e c))
          ∧ pendingRequests (bridge (step e c)) !! requestId = Some n) as [? ?].
  { rewrite step_bridge. destruct (to_bridge e c) as [b|] eqn:Hb; [|done].
    split; [by apply consistent_step|].
    apply pending_step; [done..|]. by apply (spares_leaves_alone _ _ e c). }
  split_and!; [done..|].
  pose proof (pending_armed _ Hst _ _ Hid) as Ht.
  destruct (timer_named _ Hst _ _ Ht) as (Hn & _).
  destruct e as [editor language|editor model|language now| | |value now
    |value position wordStart now|value position now|message|k']; cbn [step].
  - unfold handleEditorDidMount. by case_decide.
  - done.
  - unfold worker_effect. by case_decide.
  - done.
  - done.
  - unfold handleEditorChange. destruct value as [text|]; [|done].
    cbn [bridge onChange].
    destruct (isWorkerReady (bridge c) && truthy text); [|done].
    unfold callWorker. destruct (workerRef (bridge c)); cbn; [|done].
    by rewrite lookup_insert_ne by lia.
  - unfold asks_completion. destruct (has_provider _ c); [|done].
    unfold provideCompletionItems.
    destruct (negb (workerReadyRef (bridge c))); [done|].
    unfold callWorker. destruct (workerRef (bridge c)); cbn; [|done].
    by rewrite lookup_insert_ne by lia.
  - unfold asks_hover. destruct (has_provider _ c); [|done].
    unfold provideHover.
    destruct (negb (workerReadyRef (bridge c))); [done|].
    unfold callWorker. destruct (workerRef (bridge c)); cbn; [|done].
    by rewrite lookup_insert_ne by lia.
  - destruct (onmessage_cases message c) as [->|(n' & Hn' & ->)]; [done|].
    rewrite continue_awaiting; [done|]. intros ->.
    pose proof (pending_armed _ Hst _ _ Hn') as Ht'.
    rewrite Ht in Ht'. injection Ht' as Heq. cbn in He.
    rewrite <- Heq, String.eqb_refl in He. done.
  - destruct (timeout_cases k' c) as [->|[_ ->]]; [done|].
    rewrite continue_awaiting; [done|]. intros ->. cbn in He.
    by rewrite Nat.eqb_refl in He.
Qed.

Lemma awaited_run requestId n k events c :
  consistent (bridge c) →
  pendingRequests (bridge c) !! requestId = Some n →
  awaiting c !! n = Some k →
  forallb (spares requestId n) events = true →
  consistent (bridge (run events c))
  ∧ pendingRequests (bridge (run events c)) !! requestId = Some n
  ∧ awaiting (run events c) !! n = Some k.
Proof.
  revert c. induction events as [|e events IH]; intros c Hst Hid Hk Hev; [done|].
  cbn in *. apply andb_true_iff in Hev as [He Hev].
  destruct (awaited_step requestId n k e c) as (? & ? & ?); [done..|].
  by apply IH.
Qed.

(** When the timer of an awaited request fires, or a response for it
    arrives, the continuation runs: with [null], or with the response. *)
Lemma awaited_resolved requestId n c :
  consistent (bridge c) →
  pendingRequests (bridge c) !! requestId = Some n →
  timeout n c = continue n None (set_bridge (timer_fires n (bridge c)) c)
  ∧ ∀ r, response_id r = requestId →
         onmessage r c
           = continue n (Some r) (set_bridge (worker_onmessage r (bridge c)) c).
Proof.
  intros Hst Hid. pose proof (pending_armed _ Hst _ _ Hid) as Ht.
  destruct (timer_named _ Hst _ _ Ht) as (_ & _ & type & now & Hname).
  cbn in Hname. split.
  - unfold timeout. apply (run_continuations_one _ _ (n, None)). cbn.
    by destruct (timer_fires_pending n _ _ Ht) as (-> & _); [by eexists|].
  - intros r Hr. unfold onmessage.
    apply (run_continuations_one _ _ (n, Some r)). cbn.
    destruct (onmessage_pending r n (bridge c)) as (-> & _); [| |done].
    + rewrite Hr, Hname. apply make_requestId_truthy.
    + by rewrite Hr.
Qed.

Lemma continue_delivers k n value wordStart position c :
  awaiting c !! n = Some (continuation_of k wordStart position) →
  delivered (continue n value c)
    = answer_with k value wordStart position :: delivered c.
Proof. unfold continue. intros ->. by destruct k. Qed.

(** What asking a provider that is registered, ready and attached does. *)
Lemma asks_awaits k value position wordStart now c worker :
  has_provider k c = true →
  workerReadyRef (bridge c) = true →
  workerRef (bridge c) = Some worker →
  bridge (step (asks k value position wordStart now) c)
    = fst (callWorker (request_tag k)
             {| pl_code := Some value; pl_line := Some (lineNumber position);
                pl_column := Some (column position - 1) |} now (bridge c))
  ∧ pendingRequests (bridge (step (asks k value position wordStart now) c))
      !! next_requestId (request_tag k) now (bridge c)
    = Some (S (requestIdCounter (bridge c)))
  ∧ awaiting (step (asks k value position wordStart now) c)
      !! S (requestIdCounter (bridge c))
    = Some (continuation_of k wordStart position).
Proof.
  intros Hp Hready Hw.
  destruct k; cbn [asks step request_tag continuation_of];
    [unfold asks_completion, provideCompletionItems
    |unfold asks_hover, provideHover];
    rewrite Hp, Hready; cbn [negb];
    rewrite (callWorker_attached _ _ _ _ worker Hw); cbn;
    by rewrite !lookup_insert_eq.
Qed.

(** A provider that sent a request always answers Monaco, unless the
    worker effect is cleaned up first.  The component has its providers
    registered, the worker attached and the readiness ref set, and Monaco
    asks a provider; then, as long as no cleanup runs: if the timer of the
    request fires before a response came, the provider answers with no
    suggestions (completion) or with nothing to show (hover); if a
    response with the id of the request comes first, the provider answers
    with what it makes of that response. *)
Theorem provider_request_is_answered
    initialCode events c k worker value position wordStart now n requestId later :
  c = run events (fresh initialCode) →
  has_provider k c = true →
  workerReadyRef (bridge c) = true →
  workerRef (bridge c) = Some worker →
  n = S (requestIdCounter (bridge c)) →
  requestId = make_requestId (request_tag k) now n →
  forallb (spares requestId n) later = true →
  delivered (run (asks k value position wordStart now :: later ++ [Timeout n]) c)
    = match k with
      | CompletionItemProvider => Suggestions []
      | HoverProvider => HoverContents None
      end :: delivered (run (asks k value position wordStart now :: later) c)
  ∧ ∀ r, response_id r = requestId →
         delivered (run (asks k value position wordStart now :: later ++ [Message r]) c)
           = answer_with k (Some r) wordStart position
               :: delivered (run (asks k value position wordStart now :: later) c).
Proof.
  intros -> Hp Hready Hw -> -> Hlater.
  set (c := run events (fresh initialCode)) in *.
  destruct (asks_awaits k value position wordStart now c worker Hp Hready Hw)
    as (Hb & Hid & Hk).
  assert (consistent (bridge (step (asks k value position wordStart now) c))) as Hst.
  { rewrite step_bridge. destruct (to_bridge _ c); [|apply bridge_consistent].
    apply consistent_step, bridge_consistent. }
  destruct (awaited_run _ _ _ later _ Hst Hid Hk Hlater) as (Hst' & Hid' & Hk').
  destruct (awaited_resolved _ _ _ Hst' Hid') as [Htimeout Hmessage].
  cbn [run]. rewrite !run_app. cbn [run step]. split.
  - rewrite Htimeout, (continue_delivers k _ _ wordStart position) by done.
    by destruct k.
  - intros r Hr. rewrite run_app. cbn [run step].
    by rewrite (Hmessage r Hr), (continue_delivers k _ _ wordStart position).
Qed.

Lemma provider_request_is_answered_witness :
  delivered (run (asks HoverProvider "x = 1" cursor 1 2000 :: [] ++ [Timeout 2])
               (run up (fresh "x = 1")))
    = HoverContents None
        :: delivered (run (asks HoverProvider "x = 1" cursor 1 2000 :: [])
                        (run up (fresh "x = 1"))).
Proof.
  refine (proj1 (provider_request_is_answered "x = 1" up _ HoverProvider 1%nat
                   "x = 1" cursor 1 2000 2%nat "hover-2000-2" []
                   eq_refl _ _ _ _ _ _));
    vm_compute; reflexivity.
Defined.


(** ** From a change of the text to the markers *)

(** What a change of the text does when the worker is attached and
    ready and the text is not empty. *)
Lemma changes_awaits text now c worker :
  isWorkerReady (bridge c) = true →
  truthy text = true →
  workerRef (bridge c) = Some worker →
  pendingRequests (bridge (step (Changes (Some text) now) c))
      !! next_requestId analyze now (bridge c)
    = Some (S (requestIdCounter (bridge c)))
  ∧ awaiting (step (Changes (Some text) now) c) !! S (requestIdCounter (bridge c))
    = Some ThenDiagnose.
Proof.
  intros Hready Htext Hw. cbn [step]. unfold handleEditorChange.
  cbn [bridge onChange]. rewrite Hready, Htext. cbn [andb].
  rewrite (callWorker_attached _ _ _ _ worker Hw). cbn.
  by rewrite !lookup_insert_eq.
Qed.

(** An analysis reaches the editor.  The worker is attached and ready
    and the text is changed to something not empty; then, as long as no
    cleanup runs and the timer of the request does not fire, an analysis
    response with the id of the request sets the markers of the model the
    editor shows when the response arrives, one marker per diagnostic,
    provided the component holds the editor and the editor shows a model
    by then. *)
Theorem analysis_response_sets_markers
    initialCode events c worker text now n requestId later c' editor model
    diagnostics :
  c = run events (fresh initialCode) →
  isWorkerReady (bridge c) = true →
  truthy text = true →
  workerRef (bridge c) = Some worker →
  n = S (requestIdCounter (bridge c)) →
  requestId = make_requestId analyze now n →
  forallb (spares requestId n) later = true →
  c' = run (Changes (Some text) now :: later) c →
  monacoRef c' = true →
  editorRef c' = Some editor →
  models c' !! editor = Some model →
  markers (step (Message (RespAnalysis requestId diagnostics)) c')
    = <[model := marker <$> diagnostics]> (markers c').
Proof.
  intros -> Hready Htext Hw -> -> Hlater -> Hmonaco Heditor Hmodel.
  set (c := run events (fresh initialCode)) in *.
  destruct (changes_awaits text now c worker Hready Htext Hw) as (Hid & Hk).
  assert (consistent (bridge (step (Changes (Some text) now) c))) as Hst.
  { rewrite step_bridge. cbn [to_bridge]. apply consistent_step, bridge_consistent. }
  destruct (awaited_run _ _ _ later _ Hst Hid Hk Hlater) as (Hst' & Hid' & Hk').
  destruct (awaited_resolved _ _ _ Hst' Hid') as [_ Hmessage].
  cbn [run] in *.
  change (step (Message ?r) ?x) with (onmessage r x).
  rewrite (Hmessage (RespAnalysis
                       (make_requestId analyze now (S (requestIdCounter (bridge c))))
                       diagnostics) eq_refl).
  unfold continue. cbn [awaiting set_bridge]. rewrite Hk'.
  cbn [then_diagnose]. unfold updateDiagnostics.
  cbn [monacoRef editorRef models set_awaiting set_bridge].
  by rewrite Hmonaco, Heditor, Hmodel.
Qed.

Lemma analysis_response_sets_markers_witness :
  markers (step (Message (RespAnalysis "analyze-2000-2"
                            [{| diag_line := 1; diag_column := 4;
                                diag_message := "SyntaxError: invalid syntax";
                                diag_severity := SevError |}]))
             (run (Changes (Some "x = (") 2000 :: []) (run up (fresh "x = 1"))))
    = <[7%nat := marker <$> [{| diag_line := 1; diag_column := 4;
                                diag_message := "SyntaxError: invalid syntax";
                                diag_severity := SevError |}]]>
        (markers (run (Changes (Some "x = (") 2000 :: []) (run up (fresh "x = 1")))).
Proof.
  refine (analysis_response_sets_markers "x = 1" up _ 1%nat "x = (" 2000 2%nat
            "analyze-2000-2" [] _ 1%nat 7%nat _
            eq_refl _ _ _ _ _ _ eq_refl _ _ _);
    vm_compute; reflexivity.
Defined.

(** ** The text of the page *)

Lemma continue_code n value c : code (continue n value c) = code c.
Proof.
  unfold continue. destruct (awaiting c !! n) as [[wordStart position| |]|]; try done.
  destruct value as [[]|]; try done. cbn [then_diagnose]. unfold updateDiagnostics.
  cbn [monacoRef editorRef models set_awaiting].
  destruct (monacoRef c); [|done]. destruct (editorRef c) as [editor|]; [|done].
  by destruct (models c !! editor).
Qed.

Lemma run_continuations_code before c : code (run_continuations before c) = code c.
Proof.
  unfold run_continuations.
  induction (newly_settled before (bridge c)) as [|x l IH]; [done|].
  cbn. by rewrite continue_code.
Qed.

Lemma step_code e c :
  code (step e c)
    = match e with Changes value _ => default "" value | _ => code c end.
Proof.
  destruct e as [editor language|editor model|language now| | |value now
    |value position wordStart now|value position now|message|n]; cbn [step].
  - unfold handleEditorDidMount. by case_decide.
  - done.
  - unfold worker_effect. by case_decide.
  - done.
  - done.
  - unfold handleEditorChange. destruct value as [text|]; [|done].
    cbn [bridge onChange default].
    assert ((if truthy text then text else "") = text) as Htext by (by destruct text).
    destruct (isWorkerReady (bridge c) && truthy text); [|done].
    unfold callWorker. by destruct (workerRef (bridge c)).
  - unfold asks_completion. destruct (has_provider _ c); [|done].
    by destruct (provideCompletionItems _ _ _ _ _) as [st [suggestions|n]].
  - unfold asks_hover. destruct (has_provider _ c); [|done].
    by destruct (provideHover _ _ _ _) as [st [contents|n]].
  - unfold onmessage. by rewrite run_continuations_code.
  - unfold timeout. by rewrite run_continuations_code.
Qed.

(** The page always holds the text the editor reported last, with
    [undefined] turned into the empty text: [onChange] is called on every
    change before anything else, whether or not the worker is attached or
    ready, and nothing else writes the text. *)
Theorem page_code_follows_editor initialCode events :
  code (run events (fresh initialCode)) = reported initialCode events.
Proof.
  unfold reported. change initialCode with (code (fresh initialCode)) at 2.
  generalize (fresh initialCode). induction events as [|e events IH]; intros c; [done|].
  cbn [run foldl]. rewrite IH, step_code. by destruct e.
Qed.


(** * The tags of the protocol *)

Import Worker Bridge Protocol.

Lemma handle_answers_tagged w req s :
  known_kind req = true →
  ∃ es r, trace (Worker.handle w req s) = trace s ++ es ++ [PostMessage r]
          ∧ posted es = [] ∧ response_id r = request_id req
          ∧ answer_type req = Some (response_type r).
Proof.
  intros Hk. destruct req as [i|i c|i c l k|i c l k|i c l k|t i]; [| | | | |done].
  - destruct (jediInitialized s) eqn:Hj.
    + rewrite initialize_when_ready by done. by exists [], (RespInitialized i true None).
    + destruct (initialize_when_not_ready w i s Hj)
        as (e & es & ok & err & -> & Hes & _).
      exists (e :: es), (RespInitialized i ok err).
      split_and!; [done|by apply posted_bootstrap|done..].
  - destruct (readiness s) as [(p & Hp & Hj)|Hn].
    + rewrite (analyze_when_ready _ _ _ _ p) by done. cbn.
      destruct (runPython_fault w _), (bootstrap p);
        by eexists _, _; split; [do 2 f_equal; split_last|].
    + rewrite (analysis_when_not_ready _ _ (RespAnalysis i [])) by done.
      by exists [], (RespAnalysis i []).
  - destruct (readiness s) as [(p & Hp & Hj)|Hn].
    + rewrite (completion_when_ready _ _ _ _ _ _ p) by done. cbn.
      destruct (runPython_fault w _), (bootstrap p);
        by eexists _, _; split; [do 2 f_equal; split_last|].
    + rewrite (analysis_when_not_ready _ _ (RespCompletion i [])) by done.
      by exists [], (RespCompletion i []).
  - destruct (readiness s) as [(p & Hp & Hj)|Hn].
    + rewrite (hover_when_ready _ _ _ _ _ _ p) by done. cbn.
      destruct (runPython_fault w _), (bootstrap p);
        by eexists _, _; split; [do 2 f_equal; split_last|].
    + rewrite (analysis_when_not_ready _ _ (RespHover i None)) by done.
      by exists [], (RespHover i None).
  - destruct (readiness s) as [(p & Hp & Hj)|Hn].
    + rewrite (definition_when_ready _ _ _ _ _ _ p) by done. cbn.
      destruct (runPython_fault w _), (bootstrap p);
        by eexists _, _; split; [do 2 f_equal; split_last|].
    + rewrite (analysis_when_not_ready _ _ (RespDefinition i [])) by done.
      by exists [], (RespDefinition i []).
Qed.

(** The two sides agree on the tags.  The worker answers a request of
    each kind with the response type of that kind, in every state and
    whatever the interpreter does: [initialized] for [initialize],
    [analysis] for [analyze], and the tag of the request for the three
    others.  The component reads a response only under the tag it expects:
    a response with another tag gives no suggestions, no hover and no
    markers, even though it resolves the promise. *)
Theorem responses_are_tagged :
  (∀ w req s,
     known_kind req = true →
     ∃ r, posted (effects_of w req s) = [r]
          ∧ response_id r = request_id req
          ∧ answer_type req = Some (response_type r))
  ∧ (∀ r wordStart position,
       (response_type r ≠ "completion" →
        completion_suggestions (Some r) wordStart position = [])
       ∧ (response_type r ≠ "hover" → hover_contents (Some r) = None)
       ∧ (response_type r ≠ "analysis" → analysis_markers (Some r) = None)).
Proof.
  split.
  - intros w req s Hk.
    destruct (handle_answers_tagged w req s Hk) as (es & r & Ht & Hes & Hid & Htag).
    exists r. split_and!; [|done..].
    rewrite (effects_of_eq _ _ _ _ Ht), posted_app, Hes. done.
  - intros r wordStart position. by destruct r.
Qed.

Lemma responses_are_tagged_witness :
  ∃ r, posted (effects_of (foo_world 3) (ReqHover "hover-2000-2" "foo" 3 4) ready_worker)
         = [r]
       ∧ response_id r = "hover-2000-2"
       ∧ answer_type (ReqHover "hover-2000-2" "foo" 3 4) = Some (response_type r).
Proof.
  apply (proj1 responses_are_tagged (foo_world 3) (ReqHover "hover-2000-2" "foo" 3 4)).
  reflexivity.
Defined.


(** * The switch of the listener *)

Import Listener.




